(** * Living Chronicle: the simulation kernel, embedded and verified

    A shallow embedding of the deterministic kernel of the repository
    (chronicle/sim: ages.py, events.py, entities.py, gods.py, engine.py) and
    of the part of the persistence layer the kernel talks to
    (chronicle/data: models.py, database.py).

    Conventions of the embedding.
    - Python [float] values are modelled by exact rationals ([Q]); the
      comparisons, clamps and thresholds of the source are kept as written,
      rounding is not modelled.  Equality of rationals is [Qeq] ([==]).
    - Python [int] values are [Z].
    - The strings of [DOMAINS] form the closed type [Domain].
    - A [dict] read through [.get(key, default)] is a [gmap].
    - [random.Random] is an interface ([RandomGen]); the kernel shares one
      generator object between the engine, the age manager, the event
      generator and the god system, so the model threads one generator
      state through all of them.
    - The SQLite tables are lists of rows in rowid order. *)

From Stdlib Require Import QArith Qminmax ZArith Lia Lqa.
From stdpp Require Import gmap strings list.

Local Open Scope Z_scope.

(** ** data/models.py: domains *)

Inductive Domain := river | flame | sky | war | harvest | memory.

Definition DOMAINS : list Domain := [river; flame; sky; war; harvest; memory].

Definition Domain_name (d : Domain) : string :=
  match d with
  | river => "river" | flame => "flame" | sky => "sky"
  | war => "war" | harvest => "harvest" | memory => "memory"
  end.

Global Instance Domain_eq_dec : EqDecision Domain.
Proof. solve_decision. Defined.

Definition Domain_to_nat (d : Domain) : nat :=
  match d with
  | river => 0 | flame => 1 | sky => 2 | war => 3 | harvest => 4 | memory => 5
  end%nat.

Definition Domain_of_nat (n : nat) : option Domain :=
  match n with
  | 0 => Some river | 1 => Some flame | 2 => Some sky
  | 3 => Some war | 4 => Some harvest | 5 => Some memory
  | _ => None
  end%nat.

Global Instance Domain_countable : Countable Domain.
Proof. refine (inj_countable Domain_to_nat Domain_of_nat _). by intros []. Defined.

(** ** Numeric helpers

    Python's two-argument [max(a, b)] returns [b] when [b > a] and [a]
    otherwise, [min(a, b)] returns [b] when [b < a]; these are [Qmax] and
    [Qmin].  [clamp01 x] is the expression [max(0.0, min(1.0, x))]. *)

Definition clamp01 (x : Q) : Q := Qmax 0 (Qmin 1 x).

Definition in_unit (x : Q) : Prop := (0 <= x)%Q /\ (x <= 1)%Q.

Definition Qltb (x y : Q) : bool := negb (Qle_bool y x).
Definition Qgeb (x y : Q) : bool := Qle_bool y x.
Definition Qgtb (x y : Q) : bool := negb (Qle_bool x y).

(** ** The pseudorandom generator (Python's random.Random)

    The two primitive draws are [random()] (a float in [[0,1)]) and the
    internal [_randbelow(n)] (an integer in [[0,n)]); the other methods the
    kernel calls are defined from them as the standard library defines
    them. *)

Class RandomGen (G : Type) := {
  Random : Z -> G;
  random : G -> Q * G;
  randbelow : nat -> G -> nat * G;
  random_unit : forall g, (0 <= (random g).1)%Q /\ ((random g).1 < 1)%Q;
  randbelow_lt : forall n g, (0 < n)%nat -> ((randbelow n g).1 < n)%nat
}.

Section Generator.
Context {G : Type} `{RandomGen G}.

(** [uniform(a, b)] is [a + (b - a) * random()]. *)
Definition uniform (a b : Q) (g : G) : Q * G :=
  let '(r, g1) := random g in ((a + (b - a) * r)%Q, g1).

(** [randint(a, b)] is [a + _randbelow(b - a + 1)]. *)
Definition randint (a b : Z) (g : G) : Z * G :=
  let '(k, g1) := randbelow (Z.to_nat (b - a + 1)) g in (a + Z.of_nat k, g1).

(** [choice(seq)] is [seq[_randbelow(len(seq))]]; every pool the kernel
    draws from is a non-empty constant, [dflt] only makes [nth] total. *)
Definition choice {A : Type} (dflt : A) (seq : list A) (g : G) : A * G :=
  let '(i, g1) := randbelow (length seq) g in (nth i seq dflt, g1).

(** [sample(population, k)] for a short population: [k] draws from a pool
    from which each selected element is removed by moving the last
    unselected element into its place. *)
Fixpoint sample_pool {A : Type} (dflt : A) (pool : list A) (n k : nat) (g : G)
  : list A * G :=
  match k with
  | O => ([], g)
  | S k' =>
      let '(j, g1) := randbelow n g in
      let x := nth j pool dflt in
      let pool' := <[j := nth (n - 1) pool dflt]> pool in
      let '(rest, g2) := sample_pool dflt pool' (n - 1) k' g1 in
      (x :: rest, g2)
  end.

Definition sample {A : Type} (dflt : A) (population : list A) (k : nat) (g : G)
  : list A * G :=
  sample_pool dflt population (length population) k g.
End Generator.

(** ** sim/ages.py *)

Inductive Age := EMERGENCE | ORDER | STRAIN | COLLAPSE | SILENCE | REBIRTH.

Global Instance Age_eq_dec : EqDecision Age.
Proof. solve_decision. Defined.

(** The value of each enum member, and the lookup [Age(age_name)] (which
    raises [ValueError], here [None], on any other string). *)
Definition Age_value (a : Age) : string :=
  match a with
  | EMERGENCE => "Emergence" | ORDER => "Order" | STRAIN => "Strain"
  | COLLAPSE => "Collapse" | SILENCE => "Silence" | REBIRTH => "Rebirth"
  end.

Definition Age_cycle : list Age :=
  [EMERGENCE; ORDER; STRAIN; COLLAPSE; SILENCE; REBIRTH].

Definition Age_of_value (s : string) : option Age :=
  List.find (fun a => bool_decide (Age_value a = s)) Age_cycle.

Definition Age_index (a : Age) : nat :=
  match a with
  | EMERGENCE => 0 | ORDER => 1 | STRAIN => 2
  | COLLAPSE => 3 | SILENCE => 4 | REBIRTH => 5
  end%nat.

(** [Age.next]: [cycle[(idx + 1) % len(cycle)]]. *)
Definition Age_next (a : Age) : Age :=
  nth ((Age_index a + 1) mod length Age_cycle) Age_cycle EMERGENCE.

Record AgeTraits := {
  min_days : Z;
  max_days : Z;
  event_rate : Q;
  belief_growth : Q;
  fear_modifier : Q;
  gratitude_modifier : Q
}.

Definition AGE_TRAITS (a : Age) : AgeTraits :=
  match a with
  | EMERGENCE => {| min_days := 20; max_days := 40; event_rate := 0.6;
                    belief_growth := 1.2; fear_modifier := 0.3;
                    gratitude_modifier := 0.7 |}
  | ORDER => {| min_days := 30; max_days := 60; event_rate := 0.4;
                belief_growth := 1.0; fear_modifier := 0.2;
                gratitude_modifier := 0.8 |}
  | STRAIN => {| min_days := 25; max_days := 45; event_rate := 0.7;
                 belief_growth := 1.1; fear_modifier := 0.6;
                 gratitude_modifier := 0.4 |}
  | COLLAPSE => {| min_days := 15; max_days := 30; event_rate := 0.9;
                   belief_growth := 0.8; fear_modifier := 0.9;
                   gratitude_modifier := 0.1 |}
  | SILENCE => {| min_days := 10; max_days := 25; event_rate := 0.2;
                  belief_growth := 0.5; fear_modifier := 0.5;
                  gratitude_modifier := 0.3 |}
  | REBIRTH => {| min_days := 15; max_days := 35; event_rate := 0.5;
                  belief_growth := 1.3; fear_modifier := 0.4;
                  gratitude_modifier := 0.6 |}
  end.

(** The [rng] field of the dataclass is the engine's shared generator: the
    methods below take its state and return the state after their draws. *)
Record AgeManager := {
  current_age : Age;
  day_counter : Z;
  age_duration : Z
}.

Section Ages.
Context {G : Type} `{RandomGen G}.

Definition AgeManager_new (g : G) : AgeManager * G :=
  let age := EMERGENCE in
  let traits := AGE_TRAITS age in
  let '(duration, g1) := randint (min_days traits) (max_days traits) g in
  ({| current_age := age; day_counter := 0; age_duration := duration |}, g1).

Definition AgeManager_transition (m : AgeManager) (g : G)
  : Age * AgeManager * G :=
  let age := Age_next (current_age m) in
  let traits := AGE_TRAITS age in
  let '(duration, g1) := randint (min_days traits) (max_days traits) g in
  (age, {| current_age := age; day_counter := 0; age_duration := duration |}, g1).

Definition AgeManager_tick (m : AgeManager) (g : G)
  : option Age * AgeManager * G :=
  let m1 := {| current_age := current_age m;
               day_counter := day_counter m + 1;
               age_duration := age_duration m |} in
  if day_counter m1 >=? age_duration m1 then
    let '(age, m2, g1) := AgeManager_transition m1 g in (Some age, m2, g1)
  else (None, m1, g).
End Ages.

(** [from_state] draws nothing; [None] is the [ValueError] of [Age(age_name)]. *)
Definition AgeManager_from_state (age_name : string) (counter : Z)
  : option AgeManager :=
  match Age_of_value age_name with
  | None => None
  | Some age =>
      let traits := AGE_TRAITS age in
      let duration := Z.max (counter + 1) (min_days traits) in
      Some {| current_age := age; day_counter := counter; age_duration := duration |}
  end.

Definition AgeManager_traits (m : AgeManager) : AgeTraits :=
  AGE_TRAITS (current_age m).


(** ** data/models.py: the row records

    Each module is one dataclass; [t] is the record, the fields keep the
    source's names, and [set_*] are the attribute assignments the kernel
    performs on a row. *)

Module CitizenRow.
Record t := {
  id : option Z;
  name : string;
  faction_id : option Z;
  belief_vector : gmap Domain Q;
  fear : Q;
  gratitude : Q;
  alive : bool
}.

Definition set_id (c : t) (i : option Z) : t :=
  {| id := i; name := name c; faction_id := faction_id c;
     belief_vector := belief_vector c; fear := fear c;
     gratitude := gratitude c; alive := alive c |}.

Definition set_belief_vector (c : t) (bv : gmap Domain Q) : t :=
  {| id := id c; name := name c; faction_id := faction_id c;
     belief_vector := bv; fear := fear c;
     gratitude := gratitude c; alive := alive c |}.

Definition set_emotion (c : t) (f gr : Q) : t :=
  {| id := id c; name := name c; faction_id := faction_id c;
     belief_vector := belief_vector c; fear := f;
     gratitude := gr; alive := alive c |}.
End CitizenRow.

Module FactionRow.
Record t := {
  id : option Z;
  name : string;
  doctrine_bias : gmap Domain Q
}.

Definition set_id (f : t) (i : option Z) : t :=
  {| id := i; name := name f; doctrine_bias := doctrine_bias f |}.
End FactionRow.

Module MythRow.
Record t := {
  id : option Z;
  text : string;
  faction_id : option Z;
  domain : Domain;
  confidence : Q;
  day_created : Z
}.

Definition set_id (m : t) (i : option Z) : t :=
  {| id := i; text := text m; faction_id := faction_id m;
     domain := domain m; confidence := confidence m;
     day_created := day_created m |}.
End MythRow.

Module GodRow.
Record t := {
  id : option Z;
  name : string;
  domain : Domain;
  belief_strength : Q;
  coherence : Q;
  alive : bool;
  birth_day : Z;
  death_day : option Z;
  consecutive_strong_days : Z;
  consecutive_weak_days : Z
}.

Definition set_id (g : t) (i : option Z) : t :=
  {| id := i; name := name g; domain := domain g;
     belief_strength := belief_strength g; coherence := coherence g;
     alive := alive g; birth_day := birth_day g; death_day := death_day g;
     consecutive_strong_days := consecutive_strong_days g;
     consecutive_weak_days := consecutive_weak_days g |}.

Definition set_streaks (g : t) (strong weak : Z) : t :=
  {| id := id g; name := name g; domain := domain g;
     belief_strength := belief_strength g; coherence := coherence g;
     alive := alive g; birth_day := birth_day g; death_day := death_day g;
     consecutive_strong_days := strong;
     consecutive_weak_days := weak |}.
End GodRow.

Module WorldStateRow.
Record t := {
  id : option Z;
  current_day : Z;
  current_age : string;
  age_day_counter : Z;
  seed : Z
}.
End WorldStateRow.

(** ** data/database.py

    One list per table, in rowid order.  Every table has an
    [INTEGER PRIMARY KEY] column: an insert without an id takes one more
    than the largest id in use (1 in an empty table). *)

Inductive Exn :=
| IntegrityError      (* sqlite3: UNIQUE constraint failed *)
| ValueError          (* Age(age_name) on an unknown name *)
| AttributeError      (* a method of a collaborator that is still None *)
| CallbackError (msg : string).  (* whatever the narrator raises *)

Record Database := {
  world_state : option WorldStateRow.t;
  factions : list FactionRow.t;
  citizens : list CitizenRow.t;
  myths : list MythRow.t;
  gods : list GodRow.t
}.

Definition lastrowid (ids : list (option Z)) : Z :=
  1 + foldr (fun i acc => Z.max (default 0 i) acc) 0 ids.

(** [UPDATE ... WHERE id=?]: every row with that id is replaced. *)
Definition update_where_id {A : Type} (get_id : A -> option Z) (row : A)
  (table : list A) : list A :=
  map (fun r => if bool_decide (get_id r = get_id row) then row else r) table.

Definition clear_all (db : Database) : Database :=
  {| world_state := None; factions := []; citizens := []; myths := [];
     gods := [] |}.

Definition get_world_state (db : Database) : option WorldStateRow.t :=
  world_state db.

Definition save_world_state (db : Database) (state : WorldStateRow.t) : Database :=
  {| world_state :=
       Some {| WorldStateRow.id := Some 1;
               WorldStateRow.current_day := WorldStateRow.current_day state;
               WorldStateRow.current_age := WorldStateRow.current_age state;
               WorldStateRow.age_day_counter := WorldStateRow.age_day_counter state;
               WorldStateRow.seed := WorldStateRow.seed state |};
     factions := factions db; citizens := citizens db; myths := myths db;
     gods := gods db |}.

Definition set_factions (db : Database) (l : list FactionRow.t) : Database :=
  {| world_state := world_state db; factions := l; citizens := citizens db;
     myths := myths db; gods := gods db |}.

Definition set_citizens (db : Database) (l : list CitizenRow.t) : Database :=
  {| world_state := world_state db; factions := factions db; citizens := l;
     myths := myths db; gods := gods db |}.

Definition set_myths (db : Database) (l : list MythRow.t) : Database :=
  {| world_state := world_state db; factions := factions db;
     citizens := citizens db; myths := l; gods := gods db |}.

Definition set_gods (db : Database) (l : list GodRow.t) : Database :=
  {| world_state := world_state db; factions := factions db;
     citizens := citizens db; myths := myths db; gods := l |}.

(** [factions.name] is declared [UNIQUE]: an insert or update that would
    give two rows the same name raises. *)
Definition save_faction (db : Database) (faction : FactionRow.t)
  : Exn + Database * FactionRow.t :=
  match FactionRow.id faction with
  | None =>
      if bool_decide (FactionRow.name faction ∈ map FactionRow.name (factions db))
      then inl IntegrityError
      else
        let f := FactionRow.set_id faction
                   (Some (lastrowid (map FactionRow.id (factions db)))) in
        inr (set_factions db (factions db ++ [f]), f)
  | Some i =>
      if bool_decide
           (Exists (fun r => FactionRow.id r = Some i) (factions db) /\
            Exists (fun r => FactionRow.id r <> Some i /\
                             FactionRow.name r = FactionRow.name faction)
                   (factions db))
      then inl IntegrityError
      else inr (set_factions db
                  (update_where_id FactionRow.id faction (factions db)), faction)
  end.

Definition get_all_factions (db : Database) : list FactionRow.t := factions db.

Definition save_citizen (db : Database) (citizen : CitizenRow.t)
  : Database * CitizenRow.t :=
  match CitizenRow.id citizen with
  | None =>
      let c := CitizenRow.set_id citizen
                 (Some (lastrowid (map CitizenRow.id (citizens db)))) in
      (set_citizens db (citizens db ++ [c]), c)
  | Some _ =>
      (set_citizens db (update_where_id CitizenRow.id citizen (citizens db)),
       citizen)
  end.

Definition get_all_citizens (db : Database) (alive_only : bool)
  : list CitizenRow.t :=
  if alive_only then List.filter CitizenRow.alive (citizens db)
  else citizens db.

(** [save_myth] only inserts; a myth that already has an id is left alone. *)
Definition save_myth (db : Database) (myth : MythRow.t) : Database * MythRow.t :=
  match MythRow.id myth with
  | None =>
      let m := MythRow.set_id myth
                 (Some (lastrowid (map MythRow.id (myths db)))) in
      (set_myths db (myths db ++ [m]), m)
  | Some _ => (db, myth)
  end.

Definition save_god (db : Database) (god : GodRow.t) : Database * GodRow.t :=
  match GodRow.id god with
  | None =>
      let g := GodRow.set_id god
                 (Some (lastrowid (map GodRow.id (gods db)))) in
      (set_gods db (gods db ++ [g]), g)
  | Some _ =>
      (set_gods db (update_where_id GodRow.id god (gods db)), god)
  end.

Definition get_all_gods (db : Database) (alive_only : bool) : list GodRow.t :=
  if alive_only then List.filter GodRow.alive (gods db) else gods db.


(** ** sim/entities.py

    The classes [Citizen], [Faction], [Myth] and [God] wrap one row each
    and are identified with it.  [Faction.members] is a cache that the
    kernel fills and never reads; it is left out. *)

Definition CITIZEN_PREFIXES : list string :=
  ["Ash"; "Brin"; "Cal"; "Dara"; "Eld"; "Fenn"; "Gael"; "Haran"; "Isen"; "Jora";
   "Kael"; "Lira"; "Morn"; "Neth"; "Oren"; "Pira"; "Quell"; "Rath"; "Sev"; "Tarn";
   "Ula"; "Vorn"; "Wren"; "Xan"; "Yara"; "Zeph"].

Definition CITIZEN_SUFFIXES : list string :=
  ["an"; "el"; "is"; "on"; "us"; "a"; "en"; "or"; "ia"; "yn";
   "ax"; "ix"; "eth"; "oth"; "ara"; "ira"; "ona"; "ius"; "eon"; "wyn"].

Definition FACTION_ADJECTIVES : list string :=
  ["Crimson"; "Azure"; "Golden"; "Ashen"; "Verdant"; "Obsidian"; "Silver"; "Amber"].

Definition FACTION_NOUNS : list string :=
  ["Covenant"; "Circle"; "Order"; "Pact"; "Brotherhood"; "Sisterhood";
   "Assembly"; "Conclave"].

Definition GOD_PREFIXES (d : Domain) : list string :=
  match d with
  | river => ["Aqua"; "Thal"; "Riv"; "Und"; "Mare"]
  | flame => ["Pyr"; "Igna"; "Braz"; "Cind"; "Scor"]
  | sky => ["Ael"; "Cael"; "Zeph"; "Aur"; "Nub"]
  | war => ["Bel"; "Mort"; "Vic"; "Mar"; "Stri"]
  | harvest => ["Cer"; "Fert"; "Plen"; "Grai"; "Boun"]
  | memory => ["Mnem"; "Chron"; "Eter"; "Rem"; "Hist"]
  end.

Definition GOD_SUFFIXES : list string :=
  ["us"; "a"; "ion"; "or"; "is"; "ax"; "oth"; "iel"; "ara"; "eon"].

(** [belief_vector.get(domain, 0.0)] and [doctrine_bias.get(domain, 0.5)]. *)
Definition get_belief (c : CitizenRow.t) (d : Domain) : Q :=
  default 0%Q (CitizenRow.belief_vector c !! d).

Definition get_bias (f : FactionRow.t) (d : Domain) : Q :=
  default 0.5%Q (FactionRow.doctrine_bias f !! d).

Definition update_belief (c : CitizenRow.t) (d : Domain) (delta faction_bias : Q)
  : CitizenRow.t :=
  let current := get_belief c d in
  let new_value := clamp01 (current + delta * faction_bias) in
  CitizenRow.set_belief_vector c (<[d := new_value]> (CitizenRow.belief_vector c)).

Definition update_emotion (c : CitizenRow.t) (fear_delta gratitude_delta : Q)
  : CitizenRow.t :=
  CitizenRow.set_emotion c
    (clamp01 (CitizenRow.fear c + fear_delta))
    (clamp01 (CitizenRow.gratitude c + gratitude_delta)).

Definition Myth_create (text : string) (d : Domain) (confidence : Q)
  (faction_id : option Z) (day : Z) : MythRow.t :=
  {| MythRow.id := None; MythRow.text := text; MythRow.faction_id := faction_id;
     MythRow.domain := d; MythRow.confidence := confidence;
     MythRow.day_created := day |}.

Definition God_fade (g : GodRow.t) (day : Z) : GodRow.t :=
  {| GodRow.id := GodRow.id g; GodRow.name := GodRow.name g;
     GodRow.domain := GodRow.domain g;
     GodRow.belief_strength := GodRow.belief_strength g;
     GodRow.coherence := GodRow.coherence g;
     GodRow.alive := false; GodRow.birth_day := GodRow.birth_day g;
     GodRow.death_day := Some day;
     GodRow.consecutive_strong_days := GodRow.consecutive_strong_days g;
     GodRow.consecutive_weak_days := GodRow.consecutive_weak_days g |}.

Definition God_update_strength (g : GodRow.t) (new_strength new_coherence : Q)
  : GodRow.t :=
  {| GodRow.id := GodRow.id g; GodRow.name := GodRow.name g;
     GodRow.domain := GodRow.domain g;
     GodRow.belief_strength := new_strength;
     GodRow.coherence := new_coherence;
     GodRow.alive := GodRow.alive g; GodRow.birth_day := GodRow.birth_day g;
     GodRow.death_day := GodRow.death_day g;
     GodRow.consecutive_strong_days := GodRow.consecutive_strong_days g;
     GodRow.consecutive_weak_days := GodRow.consecutive_weak_days g |}.

Section Entities.
Context {G : Type} `{RandomGen G}.

Definition generate_citizen_name (g : G) : string * G :=
  let '(p, g1) := choice "" CITIZEN_PREFIXES g in
  let '(s, g2) := choice "" CITIZEN_SUFFIXES g1 in
  (p +:+ s, g2).

Definition generate_faction_name (g : G) : string * G :=
  let '(a, g1) := choice "" FACTION_ADJECTIVES g in
  let '(n, g2) := choice "" FACTION_NOUNS g1 in
  ("The " +:+ a +:+ " " +:+ n, g2).

Definition generate_god_name (d : Domain) (g : G) : string * G :=
  let prefixes := GOD_PREFIXES d in
  let '(p, g1) := choice "" prefixes g in
  let '(s, g2) := choice "" GOD_SUFFIXES g1 in
  (p +:+ s, g2).

(** The dict comprehension [{domain: rng.uniform(a, b) for domain in ds}]:
    one draw per domain, in the order of [ds]. *)
Fixpoint uniform_vector (a b : Q) (ds : list Domain) (g : G)
  : gmap Domain Q * G :=
  match ds with
  | [] => (∅, g)
  | d :: ds' =>
      let '(x, g1) := uniform a b g in
      let '(m, g2) := uniform_vector a b ds' g1 in
      (<[d := x]> m, g2)
  end.

Definition Citizen_generate (faction_id : option Z) (g : G) : CitizenRow.t * G :=
  let '(bv, g1) := uniform_vector 0 0.3 DOMAINS g in
  let '(nm, g2) := generate_citizen_name g1 in
  let '(f, g3) := uniform 0.1 0.4 g2 in
  let '(gr, g4) := uniform 0.1 0.4 g3 in
  ({| CitizenRow.id := None; CitizenRow.name := nm;
      CitizenRow.faction_id := faction_id; CitizenRow.belief_vector := bv;
      CitizenRow.fear := f; CitizenRow.gratitude := gr;
      CitizenRow.alive := true |}, g4).

(** [for domain in favored: doctrine[domain] = rng.uniform(0.7, 1.0)]. *)
Fixpoint favor (favored : list Domain) (doctrine : gmap Domain Q) (g : G)
  : gmap Domain Q * G :=
  match favored with
  | [] => (doctrine, g)
  | d :: rest =>
      let '(x, g1) := uniform 0.7 1.0 g in
      favor rest (<[d := x]> doctrine) g1
  end.

Definition Faction_generate (g : G) : FactionRow.t * G :=
  let '(doctrine, g1) := uniform_vector 0.1 0.4 DOMAINS g in
  let '(k, g2) := randint 1 2 g1 in
  let '(favored, g3) := sample river DOMAINS (Z.to_nat k) g2 in
  let '(doctrine', g4) := favor favored doctrine g3 in
  let '(nm, g5) := generate_faction_name g4 in
  ({| FactionRow.id := None; FactionRow.name := nm;
      FactionRow.doctrine_bias := doctrine' |}, g5).

Definition God_birth (d : Domain) (belief_strength coherence : Q) (day : Z) (g : G)
  : GodRow.t * G :=
  let '(nm, g1) := generate_god_name d g in
  ({| GodRow.id := None; GodRow.name := nm; GodRow.domain := d;
      GodRow.belief_strength := belief_strength; GodRow.coherence := coherence;
      GodRow.alive := true; GodRow.birth_day := day; GodRow.death_day := None;
      GodRow.consecutive_strong_days := 0;
      GodRow.consecutive_weak_days := 0 |}, g1).
End Entities.

(** ** sim/events.py *)

Record Event := {
  ev_name : string;
  description : string;
  primary_domain : Domain;
  secondary_domain : option Domain;
  fear_impact : Q;
  gratitude_impact : Q;
  belief_impact : Q;
  magnitude : Q
}.

(** A template is the tuple (name, description, fear, gratitude, belief). *)
Definition Template : Type := string * string * Q * Q * Q.

Definition EVENT_TEMPLATES (d : Domain) : list Template :=
  match d with
  | river =>
      [("The Great Flooding", "Waters rise beyond their banks", 0.4, -0.2, 0.3);
       ("The Still Waters", "Rivers calm to mirror-glass", -0.2, 0.3, 0.2);
       ("The River's Bounty", "Fish leap willingly into nets", -0.1, 0.5, 0.4);
       ("The Poisoned Springs", "Wells turn bitter and foul", 0.5, -0.3, 0.3);
       ("The Parting Currents", "Waters divide before the faithful", 0.1, 0.4, 0.5)]
  | flame =>
      [("The Consuming Fire", "Flames devour without warning", 0.6, -0.4, 0.4);
       ("The Warming Hearth", "All fires burn steady and true", -0.2, 0.4, 0.3);
       ("The Forge's Blessing", "Metalwork emerges flawless", -0.1, 0.5, 0.4);
       ("The Ember Rain", "Sparks fall from cloudless sky", 0.5, -0.2, 0.5);
       ("The Eternal Flame", "A fire burns without fuel", 0.2, 0.3, 0.6)]
  | sky =>
      [("The Darkened Sun", "Shadow crosses the daylight", 0.5, -0.3, 0.5);
       ("The Gentle Rains", "Clouds bring life-giving water", -0.2, 0.5, 0.3);
       ("The Thunder Voice", "Lightning speaks across valleys", 0.3, 0.1, 0.4);
       ("The Clear Heavens", "Stars align in ancient patterns", 0.1, 0.4, 0.4);
       ("The Howling Winds", "Gales tear at all standing", 0.5, -0.3, 0.3)]
  | war =>
      [("The Border Clash", "Blood spills at the boundaries", 0.4, -0.2, 0.3);
       ("The Victorious Return", "Warriors come home triumphant", 0.1, 0.5, 0.4);
       ("The Broken Peace", "Old alliances shatter", 0.5, -0.4, 0.4);
       ("The Honorable Duel", "Champions settle disputes", 0.2, 0.2, 0.3);
       ("The Siege Lifted", "Enemies retreat in defeat", 0.0, 0.6, 0.5)]
  | harvest =>
      [("The Abundant Yield", "Fields overflow with grain", -0.2, 0.6, 0.4);
       ("The Blighted Crops", "Rot spreads through stores", 0.5, -0.4, 0.3);
       ("The First Fruits", "Early harvest brings hope", -0.1, 0.4, 0.3);
       ("The Locust Swarm", "Insects devour all growth", 0.6, -0.5, 0.4);
       ("The Golden Fields", "Grain grows tall and strong", -0.2, 0.5, 0.4)]
  | memory =>
      [("The Forgotten Name", "Ancient knowledge is lost", 0.3, -0.2, 0.3);
       ("The Recovered Scroll", "Old wisdom resurfaces", 0.1, 0.4, 0.4);
       ("The Prophetic Dream", "Visions reveal hidden truths", 0.2, 0.3, 0.5);
       ("The Ancestral Voice", "The dead speak to the living", 0.3, 0.2, 0.5);
       ("The Chronicle Burns", "Records are destroyed", 0.4, -0.3, 0.3)]
  end%Q.

Record AgeEventModifiers := {
  magnitude_boost : Q;
  positive_bias : Q
}.

Definition AGE_EVENT_MODIFIERS (a : Age) : AgeEventModifiers :=
  match a with
  | EMERGENCE => {| magnitude_boost := 0.1; positive_bias := 0.1 |}
  | ORDER => {| magnitude_boost := -0.1; positive_bias := 0.2 |}
  | STRAIN => {| magnitude_boost := 0.1; positive_bias := -0.1 |}
  | COLLAPSE => {| magnitude_boost := 0.3; positive_bias := -0.3 |}
  | SILENCE => {| magnitude_boost := -0.2; positive_bias := 0.0 |}
  | REBIRTH => {| magnitude_boost := 0.0; positive_bias := 0.2 |}
  end.

Section Events.
Context {G : Type} `{RandomGen G}.

Definition generate_event (age : Age) (rate : Q) (g : G) : option Event * G :=
  let '(r, g1) := random g in
  if Qgtb r rate then (None, g1)
  else
    let '(primary, g2) := choice river DOMAINS g1 in
    let templates := EVENT_TEMPLATES primary in
    let '(tpl, g3) := choice ("", "", 0, 0, 0)%Q templates g2 in
    let '(nm, desc, fear0, grat0, belief) := tpl in
    let '(r2, g4) := random g3 in
    let '(secondary, g5) :=
      if Qltb r2 0.3 then
        let others := List.filter (fun d => negb (bool_decide (d = primary))) DOMAINS in
        let '(s, g') := choice river others g4 in (Some s, g')
      else (None, g4) in
    let modifiers := AGE_EVENT_MODIFIERS age in
    let '(u, g6) := uniform (-0.2) 0.2 g5 in
    let magnitude0 := (0.5 + u + magnitude_boost modifiers)%Q in
    let magnitude1 := Qmax 0.1 (Qmin 1.0 magnitude0) in
    let bias := positive_bias modifiers in
    let fear1 := (fear0 - bias * 0.2)%Q in
    let grat1 := (grat0 + bias * 0.2)%Q in
    (Some {| ev_name := nm; description := desc; primary_domain := primary;
             secondary_domain := secondary;
             fear_impact := (fear1 * magnitude1)%Q;
             gratitude_impact := (grat1 * magnitude1)%Q;
             belief_impact := (belief * magnitude1)%Q;
             magnitude := magnitude1 |}, g6).
End Events.


(** ** sim/gods.py *)

Definition BELIEF_THRESHOLD : Q := 0.6.
Definition COHERENCE_THRESHOLD : Q := 0.5.
Definition CONSECUTIVE_DAYS_BIRTH : Z := 5.
Definition CONSECUTIVE_DAYS_FADE : Z := 7.
Definition FADE_THRESHOLD : Q := 0.3.

Record BeliefAggregation := {
  agg_domain : Domain;
  total_belief : Q;
  believer_count : Z;
  average_belief : Q;
  agg_coherence : Q
}.

(** Python's [sum]: a left fold from 0. *)
Definition Qsum (l : list Q) : Q := fold_left Qplus l 0%Q.

Definition Qlen {A : Type} (l : list A) : Q := inject_Z (Z.of_nat (length l)).

(** The body of the loop of [aggregate_beliefs] for one domain. *)
Definition aggregate_domain (citizens : list CitizenRow.t) (d : Domain)
  : BeliefAggregation :=
  let beliefs := map (fun c => get_belief c d) citizens in
  match beliefs with
  | [] => {| agg_domain := d; total_belief := 0.0; believer_count := 0;
             average_belief := 0.0; agg_coherence := 0.0 |}
  | _ =>
      let total := Qsum beliefs in
      let avg := (total / Qlen beliefs)%Q in
      let variance :=
        (Qsum (map (fun b => (b - avg) ^ 2) beliefs) / Qlen beliefs)%Q in
      let coherence := Qmax 0.0 (1.0 - variance * 4) in
      let believers :=
        Z.of_nat (length (List.filter (fun b => Qgtb b 0.3) beliefs)) in
      {| agg_domain := d; total_belief := total; believer_count := believers;
         average_belief := avg; agg_coherence := coherence |}
  end.

(** The returned dict, in insertion order (the order of [DOMAINS]). *)
Definition aggregate_beliefs (citizens : list CitizenRow.t)
  : list (Domain * BeliefAggregation) :=
  map (fun d => (d, aggregate_domain citizens d)) DOMAINS.

(** [aggregations[domain]]; every domain is a key, so the default (the
    aggregation of an empty population) is never returned. *)
Definition agg_lookup (aggs : list (Domain * BeliefAggregation)) (d : Domain)
  : BeliefAggregation :=
  match List.find (fun p => bool_decide (p.1 = d)) aggs with
  | Some p => p.2
  | None => aggregate_domain [] d
  end.

(** The god system holds the database and the generator of the engine and
    owns the per-domain streak counters [_proto_god_days], a dict with one
    key per domain. *)
Record GodSystem := {
  _proto_god_days : gmap Domain Z
}.

Definition GodSystem_init : GodSystem :=
  {| _proto_god_days := list_to_map (map (fun d => (d, 0)) DOMAINS) |}.

(** The body of the first loop of [process_gods] up to the save: the god
    after the tick, and whether it was appended to [faded]. *)
Definition update_existing_god (agg : BeliefAggregation) (current_day : Z)
  (god : GodRow.t) : GodRow.t * bool :=
  let g1 := God_update_strength god (average_belief agg) (agg_coherence agg) in
  if Qltb (average_belief agg) FADE_THRESHOLD then
    let g2 := GodRow.set_streaks g1 0 (GodRow.consecutive_weak_days g1 + 1) in
    if GodRow.consecutive_weak_days g2 >=? CONSECUTIVE_DAYS_FADE
    then (God_fade g2 current_day, true)
    else (g2, false)
  else
    (GodRow.set_streaks g1 (GodRow.consecutive_strong_days g1 + 1) 0, false).

(** The first loop: state is the database, the gods of [existing_gods] as
    mutated so far, and [faded]. *)
Definition fade_step (aggs : list (Domain * BeliefAggregation)) (current_day : Z)
  (st : Database * list GodRow.t * list GodRow.t) (god : GodRow.t)
  : Database * list GodRow.t * list GodRow.t :=
  let '(db, seen, faded) := st in
  let agg := agg_lookup aggs (GodRow.domain god) in
  let '(god', is_faded) := update_existing_god agg current_day god in
  let '(db', _) := save_god db god' in
  (db', seen ++ [god'], if is_faded then faded ++ [god'] else faded).

Section Gods.
Context {G : Type} `{RandomGen G}.

(** The second loop: state is the database, the generator, the streak
    counters and [born]. *)
Definition birth_step (living_domains : gset Domain) (current_day : Z)
  (st : Database * G * gmap Domain Z * list GodRow.t)
  (item : Domain * BeliefAggregation)
  : Database * G * gmap Domain Z * list GodRow.t :=
  let '(db, g, proto, born) := st in
  let '(d, agg) := item in
  if bool_decide (d ∈ living_domains) then
    (db, g, <[d := 0]> proto, born)
  else if Qgeb (average_belief agg) BELIEF_THRESHOLD
          && Qgeb (agg_coherence agg) COHERENCE_THRESHOLD then
    let proto1 := <[d := proto !!! d + 1]> proto in
    if proto1 !!! d >=? CONSECUTIVE_DAYS_BIRTH then
      let '(god, g1) :=
        God_birth d (average_belief agg) (agg_coherence agg) current_day g in
      let '(db1, god1) := save_god db god in
      (db1, g1, <[d := 0]> proto1, born ++ [god1])
    else (db, g, proto1, born)
  else (db, g, <[d := 0]> proto, born).

Definition process_gods (citizens : list CitizenRow.t) (current_day : Z)
  (db : Database) (g : G) (gs : GodSystem)
  : list GodRow.t * list GodRow.t * Database * G * GodSystem :=
  let aggregations := aggregate_beliefs citizens in
  let existing_gods := get_all_gods db true in
  let '(db1, existing', faded) :=
    fold_left (fade_step aggregations current_day) existing_gods (db, [], []) in
  let living_domains : gset Domain :=
    list_to_set (map GodRow.domain (List.filter GodRow.alive existing')) in
  let '(db2, g2, proto, born) :=
    fold_left (birth_step living_domains current_day) aggregations
      (db1, g, _proto_god_days gs, []) in
  (born, faded, db2, g2, {| _proto_god_days := proto |}).

(** [force_belief_for_domain]. *)
Definition force_belief_for_domain (citizens : list CitizenRow.t) (d : Domain)
  (belief_level : Q) : list CitizenRow.t :=
  map (fun c => CitizenRow.set_belief_vector c
                  (<[d := belief_level]> (CitizenRow.belief_vector c)))
      citizens.
End Gods.


(** ** sim/engine.py *)

Definition INITIAL_FACTIONS : nat := 3.
Definition INITIAL_CITIZENS_PER_FACTION : nat := 8.
Definition UNAFFILIATED_CITIZENS : nat := 5.

Record TickResult := {
  day : Z;
  age : Age;
  event : option Event;
  age_transition : option Age;
  born_gods : list GodRow.t;
  faded_gods : list GodRow.t;
  new_myths : list MythRow.t
}.

(** A narrator is a callback on the tick result: it returns ([None]) or
    raises ([Some exn]); it has no access to the state of the kernel. *)
Definition Narrator : Type := TickResult -> option Exn.

(** [if x:] on an optional integer: [None] and [0] are false. *)
Definition truthy (x : option Z) : bool :=
  match x with
  | Some i => negb (i =? 0)
  | None => false
  end.

Section Engine.
Context {G : Type} `{RandomGen G}.

(** The attributes of [SimulationEngine].  [rng] is the one generator that
    [age_manager], [event_generator] and [god_system] also hold;
    [event_generator] has no state of its own and is present exactly when
    [god_system] is. *)
Record SimulationEngine := {
  db : Database;
  seed : Z;
  rng : G;
  narrator : option Narrator;
  age_manager : option AgeManager;
  god_system : option GodSystem;
  current_day : Z;
  _factions : list FactionRow.t;
  _citizens : list CitizenRow.t
}.

(** [SimulationEngine.__init__]. *)
Definition SimulationEngine_init (database : Database) (sd : Z)
  (nar : option Narrator) : SimulationEngine :=
  {| db := database; seed := sd; rng := Random sd; narrator := nar;
     age_manager := None; god_system := None; current_day := 0;
     _factions := []; _citizens := [] |}.

(** The world state row written by [_save_world_state]. *)
Definition world_state_row (cur : Z) (am : AgeManager) (sd : Z) : WorldStateRow.t :=
  {| WorldStateRow.id := Some 1;
     WorldStateRow.current_day := cur;
     WorldStateRow.current_age := Age_value (current_age am);
     WorldStateRow.age_day_counter := day_counter am;
     WorldStateRow.seed := sd |}.

(** The inner loop of [_create_new_world]: [n] citizens generated, saved and
    appended to [_citizens]. *)
Fixpoint create_citizens (n : nat) (faction_id : option Z)
  (st : Database * G * list CitizenRow.t) : Database * G * list CitizenRow.t :=
  match n with
  | O => st
  | S n' =>
      let '(d, g, cs) := st in
      let '(citizen, g1) := Citizen_generate faction_id g in
      let '(d1, citizen1) := save_citizen d citizen in
      create_citizens n' faction_id (d1, g1, cs ++ [citizen1])
  end.

(** The outer loop of [_create_new_world]: [n] factions, each with its
    citizens. *)
Fixpoint create_factions (n : nat)
  (st : Database * G * list FactionRow.t * list CitizenRow.t)
  : Exn + Database * G * list FactionRow.t * list CitizenRow.t :=
  match n with
  | O => inr st
  | S n' =>
      let '(d, g, fs, cs) := st in
      let '(faction, g1) := Faction_generate g in
      match save_faction d faction with
      | inl exn => inl exn
      | inr (d1, faction1) =>
          let '(d2, g2, cs2) :=
            create_citizens INITIAL_CITIZENS_PER_FACTION
              (FactionRow.id faction1) (d1, g1, cs) in
          create_factions n' (d2, g2, fs ++ [faction1], cs2)
      end
  end.

Definition _create_new_world (e : SimulationEngine) : Exn + SimulationEngine :=
  let '(am, g1) := AgeManager_new (rng e) in
  match create_factions INITIAL_FACTIONS (db e, g1, _factions e, _citizens e) with
  | inl exn => inl exn
  | inr (d2, g2, fs, cs) =>
      let '(d3, g3, cs3) := create_citizens UNAFFILIATED_CITIZENS None (d2, g2, cs) in
      let d4 := save_world_state d3 (world_state_row 0 am (seed e)) in
      inr {| db := d4; seed := seed e; rng := g3; narrator := narrator e;
             age_manager := Some am; god_system := god_system e;
             current_day := 0; _factions := fs; _citizens := cs3 |}
  end.

(** [for _ in range(n): self.rng.random()]. *)
Fixpoint advance_rng (n : nat) (g : G) : G :=
  match n with
  | O => g
  | S n' => advance_rng n' (random g).2
  end.

Definition _restore_world (e : SimulationEngine) (state : WorldStateRow.t)
  : Exn + SimulationEngine :=
  let g0 := Random (WorldStateRow.seed state) in
  let g1 := advance_rng (Z.to_nat (WorldStateRow.current_day state)) g0 in
  match AgeManager_from_state (WorldStateRow.current_age state)
          (WorldStateRow.age_day_counter state) with
  | None => inl ValueError
  | Some am =>
      inr {| db := db e; seed := WorldStateRow.seed state; rng := g1;
             narrator := narrator e; age_manager := Some am;
             god_system := god_system e;
             current_day := WorldStateRow.current_day state;
             _factions := _factions e ++ get_all_factions (db e);
             _citizens := _citizens e ++ get_all_citizens (db e) true |}
  end.

Definition set_db (e : SimulationEngine) (d : Database) : SimulationEngine :=
  {| db := d; seed := seed e; rng := rng e; narrator := narrator e;
     age_manager := age_manager e; god_system := god_system e;
     current_day := current_day e; _factions := _factions e;
     _citizens := _citizens e |}.

Definition set_god_system (e : SimulationEngine) (gs : option GodSystem)
  : SimulationEngine :=
  {| db := db e; seed := seed e; rng := rng e; narrator := narrator e;
     age_manager := age_manager e; god_system := gs;
     current_day := current_day e; _factions := _factions e;
     _citizens := _citizens e |}.

Definition initialize (e : SimulationEngine) (fresh : bool)
  : Exn + SimulationEngine :=
  let e1 := if fresh then set_db e (clear_all (db e)) else e in
  let world := get_world_state (db e1) in
  let built :=
    match world with
    | None => _create_new_world e1
    | Some state => _restore_world e1 state
    end in
  match built with
  | inl exn => inl exn
  | inr e2 => inr (set_god_system e2 (Some GodSystem_init))
  end.

(** The faction lookup at the top of the loop body of [_apply_event]. *)
Fixpoint find_faction_bias (factions : list FactionRow.t) (fid : option Z)
  (d : Domain) (dflt : Q) : Q :=
  match factions with
  | [] => dflt
  | f :: rest =>
      if bool_decide (FactionRow.id f = fid) then get_bias f d
      else find_faction_bias rest fid d dflt
  end.

Definition faction_bias_of (factions : list FactionRow.t) (citizen : CitizenRow.t)
  (d : Domain) : Q :=
  let faction_bias := 1.0%Q in
  if truthy (CitizenRow.faction_id citizen)
  then find_faction_bias factions (CitizenRow.faction_id citizen) d faction_bias
  else faction_bias.

(** The loop body of [_apply_event] for one citizen. *)
Definition apply_event_to (ev : Event) (traits : AgeTraits)
  (factions : list FactionRow.t) (citizen : CitizenRow.t) (g : G)
  : CitizenRow.t * G :=
  let faction_bias := faction_bias_of factions citizen (primary_domain ev) in
  let '(r1, g1) := random g in
  let belief_delta :=
    (belief_impact ev * belief_growth traits * (0.8 + r1 * 0.4))%Q in
  let c1 := update_belief citizen (primary_domain ev) belief_delta faction_bias in
  let c2 :=
    match secondary_domain ev with
    | Some d2 =>
        let secondary_delta := (belief_delta * 0.5)%Q in
        update_belief c1 d2 secondary_delta faction_bias
    | None => c1
    end in
  let '(r2, g2) := random g1 in
  let fear_delta := (fear_impact ev * fear_modifier traits * (0.8 + r2 * 0.4))%Q in
  let '(r3, g3) := random g2 in
  let grat_delta :=
    (gratitude_impact ev * gratitude_modifier traits * (0.8 + r3 * 0.4))%Q in
  (update_emotion c2 fear_delta grat_delta, g3).

Fixpoint _apply_event (ev : Event) (traits : AgeTraits)
  (factions : list FactionRow.t) (citizens : list CitizenRow.t) (g : G)
  : list CitizenRow.t * G :=
  match citizens with
  | [] => ([], g)
  | c :: rest =>
      let '(c', g1) := apply_event_to ev traits factions c g in
      let '(rest', g2) := _apply_event ev traits factions rest g1 in
      (c' :: rest', g2)
  end.

Fixpoint _create_myths (ev : Event) (cur : Z) (factions : list FactionRow.t)
  (d : Database) (g : G) : list MythRow.t * Database * G :=
  match factions with
  | [] => ([], d, g)
  | f :: rest =>
      let '(r, g1) := random g in
      if Qltb r 0.3 then
        let confidence := get_bias f (primary_domain ev) in
        let myth :=
          Myth_create ("The " +:+ FactionRow.name f +:+ " witnessed "
                         +:+ description ev)
            (primary_domain ev) confidence (FactionRow.id f) cur in
        let '(d1, myth1) := save_myth d myth in
        let '(ms, d2, g2) := _create_myths ev cur rest d1 g1 in
        (myth1 :: ms, d2, g2)
      else _create_myths ev cur rest d g1
  end.

(** [for citizen in self._citizens: self.db.save_citizen(citizen.row)]. *)
Fixpoint save_citizens (d : Database) (citizens : list CitizenRow.t)
  : Database * list CitizenRow.t :=
  match citizens with
  | [] => (d, [])
  | c :: rest =>
      let '(d1, c1) := save_citizen d c in
      let '(d2, rest1) := save_citizens d1 rest in
      (d2, c1 :: rest1)
  end.

(** [tick]: the outcome is the returned [TickResult] or the exception that
    leaves the method, together with the engine as the call leaves it. *)
Definition tick (e : SimulationEngine) : (Exn + TickResult) * SimulationEngine :=
  let cur := current_day e + 1 in
  match age_manager e with
  | None =>
      (inl AttributeError,
       {| db := db e; seed := seed e; rng := rng e; narrator := narrator e;
          age_manager := None; god_system := god_system e;
          current_day := cur; _factions := _factions e;
          _citizens := _citizens e |})
  | Some am =>
      let '(transition, am1, g1) := AgeManager_tick am (rng e) in
      match god_system e with
      | None =>
          (inl AttributeError,
           {| db := db e; seed := seed e; rng := g1; narrator := narrator e;
              age_manager := Some am1; god_system := None;
              current_day := cur; _factions := _factions e;
              _citizens := _citizens e |})
      | Some gs =>
          let '(ev, g2) :=
            generate_event (current_age am1)
              (event_rate (AgeManager_traits am1)) g1 in
          let '(citizens1, myths1, d1, g3) :=
            match ev with
            | Some ev' =>
                let '(cs, ga) :=
                  _apply_event ev' (AgeManager_traits am1) (_factions e)
                    (_citizens e) g2 in
                let '(ms, da, gb) :=
                  _create_myths ev' cur (_factions e) (db e) ga in
                (cs, ms, da, gb)
            | None => (_citizens e, [], db e, g2)
            end in
          let '(born, faded, d2, g4, gs1) :=
            process_gods citizens1 cur d1 g3 gs in
          let '(d3, citizens2) := save_citizens d2 citizens1 in
          let d4 := save_world_state d3 (world_state_row cur am1 (seed e)) in
          let result :=
            {| day := cur; age := current_age am1; event := ev;
               age_transition := transition; born_gods := born;
               faded_gods := faded; new_myths := myths1 |} in
          let e' :=
            {| db := d4; seed := seed e; rng := g4; narrator := narrator e;
               age_manager := Some am1; god_system := Some gs1;
               current_day := cur; _factions := _factions e;
               _citizens := citizens2 |} in
          match narrator e with
          | Some nar =>
              match nar result with
              | Some exn => (inl exn, e')
              | None => (inr result, e')
              end
          | None => (inr result, e')
          end
      end
  end.

(** A caller's loop [for _ in range(n): results.append(engine.tick())] that
    stops at the first exception, as [run(days)] does: the outcomes so far
    and the engine as the loop leaves it. *)
Fixpoint run (n : nat) (e : SimulationEngine)
  : list (Exn + TickResult) * SimulationEngine :=
  match n with
  | O => ([], e)
  | S n' =>
      match tick e with
      | (inl exn, e1) => ([inl exn], e1)
      | (inr r, e1) => let '(rs, e2) := run n' e1 in (inr r :: rs, e2)
      end
  end.
End Engine.

Arguments SimulationEngine : clear implicits.


(** ** A concrete generator

    A linear congruential generator that satisfies the interface; it is the
    instance at which the general theorems are exercised. *)

Definition lcg_next (s : Z) : Z := (s * 1103515245 + 12345) mod 2147483648.

Definition lcg_random (s : Z) : Q * Z :=
  let s1 := lcg_next s in
  ((inject_Z ((s1 / 65536) mod 1000) / 1000)%Q, s1).

Definition lcg_randbelow (n : nat) (s : Z) : nat * Z :=
  let s1 := lcg_next s in
  (Z.to_nat ((s1 / 65536) mod Z.of_nat n), s1).

Global Instance lcg_gen : RandomGen Z.
Proof.
  refine {| Random := fun sd => sd; random := lcg_random;
            randbelow := lcg_randbelow |}.
  - intros s. unfold lcg_random. generalize (lcg_next s / 65536). intros z.
    cbv zeta. cbn [fst].
    pose proof (Z.mod_pos_bound z 1000 ltac:(lia)) as Hb.
    revert Hb. generalize (z mod 1000). intros m Hb.
    unfold Qdiv, Qmult, Qinv, Qle, Qlt, inject_Z. cbn. lia.
  - intros n s Hn. unfold lcg_randbelow.
    generalize (lcg_next s / 65536). intros z.
    cbv zeta. cbn [fst].
    pose proof (Z.mod_pos_bound z (Z.of_nat n) ltac:(lia)).
    lia.
Defined.


(** * The rest of the kernel and its callers *)

(** ** data/database.py: the lookups

    A [SELECT] without [ORDER BY] returns the rows in rowid order, and
    [fetchone] takes the first of them. *)

Definition get_faction (db : Database) (faction_id : Z) : option FactionRow.t :=
  List.find (fun r => bool_decide (FactionRow.id r = Some faction_id))
    (factions db).

Definition get_citizens_by_faction (db : Database) (faction_id : Z)
  : list CitizenRow.t :=
  List.filter
    (fun r => bool_decide (CitizenRow.faction_id r = Some faction_id)
              && CitizenRow.alive r)
    (citizens db).

Definition get_god_by_domain (db : Database) (domain : Domain) (alive_only : bool)
  : option GodRow.t :=
  if alive_only then
    List.find (fun r => bool_decide (GodRow.domain r = domain) && GodRow.alive r)
      (gods db)
  else
    List.find (fun r => bool_decide (GodRow.domain r = domain)) (gods db).

(** ** sim/events.py: disasters *)

Section Disasters.
Context {G : Type} `{RandomGen G}.

(** [generate_disaster]; the age it is given is not used. *)
Definition generate_disaster (age : Age) (g : G) : Event * G :=
  let disasters :=
    [("The Great Cataclysm", "The world trembles to its foundations", sky,
      0.8, -0.6, 0.7);
     ("The Plague Years", "Sickness spreads without mercy", memory,
      0.7, -0.5, 0.5);
     ("The Endless Winter", "Cold grips the land", sky, 0.6, -0.4, 0.5);
     ("The Burning Lands", "Fire consumes all", flame, 0.8, -0.6, 0.6);
     ("The Great Famine", "Hunger stalks every home", harvest, 0.7, -0.5, 0.5);
     ("The War of All", "Every hand turns against another", war,
      0.8, -0.7, 0.6)]%Q in
  let '(tpl, g1) := choice ("", "", sky, 0, 0, 0)%Q disasters g in
  let '(nm, desc, domain, fear, grat, belief) := tpl in
  ({| ev_name := nm; description := desc; primary_domain := domain;
      secondary_domain := None; fear_impact := fear;
      gratitude_impact := grat; belief_impact := belief;
      magnitude := 1.0 |}, g1).
End Disasters.

(** ** sim/engine.py: the accessors *)

Definition get_citizens {G : Type} (e : SimulationEngine G) : list CitizenRow.t :=
  _citizens e.

Definition get_factions {G : Type} (e : SimulationEngine G) : list FactionRow.t :=
  _factions e.

(** ** backend/services/simulation_manager.py

    The manager as one thread sees it: [step] and [initialize] run under
    the manager's lock, so each of them is one transition.  [self.db] is
    the database object the engine is constructed on; once there is an
    engine the database is the engine's.  The subscribers are callbacks
    like the narrator of the engine.  Python's [hash] of a string differs
    from process to process; it is a parameter here.  A scar is the dict
    [{"god_name", "domain", "death_day"}]. *)

Record Scar := {
  god_name : string;
  scar_domain : Domain;
  scar_death_day : Z
}.

Inductive ManagerExn :=
| RuntimeError (msg : string)   (* step before initialize *)
| EngineExn (exn : Exn).        (* whatever the engine raises *)

Section Manager.
Context {G : Type} `{RandomGen G}.
Variable hash : string -> Z.

Record SimulationManager := {
  manager_db : Database;
  engine : option (SimulationEngine G);
  _subscribers : list Narrator;
  _historical_scars : gmap (Z * Z) Scar
}.





(** [_broadcast_tick]: every subscriber is called; what one raises is
    caught and printed.  The result is the list of the exceptions caught,
    one printed line each. *)
Definition _broadcast_tick (subscribers : list Narrator) (result : TickResult)
  : list Exn :=
  fold_left
    (fun printed callback =>
       match callback result with
       | Some exn => printed ++ [exn]
       | None => printed
       end)
    subscribers [].

(** Python's [//] and [%] by a positive number are [Z.div] and [Z.modulo]. *)
Definition _god_to_position (god : GodRow.t) : Z * Z :=
  let name_hash := hash (GodRow.name god) in
  let x := name_hash mod 64 in
  let y := (name_hash / 64) mod 64 in
  (x, y).

Definition _update_historical_scars (scars : gmap (Z * Z) Scar)
  (result : TickResult) : gmap (Z * Z) Scar :=
  let scars1 :=
    if bool_decide (age result = COLLAPSE) then
      fold_left
        (fun s god =>
           <[_god_to_position god :=
               {| god_name := GodRow.name god;
                  scar_domain := GodRow.domain god;
                  scar_death_day := day result |}]> s)
        (faded_gods result) scars
    else scars in
  match age_transition result with
  | Some EMERGENCE => ∅
  | _ => scars1
  end.

(** [step]: the result or the exception, the lines printed by the
    broadcast, and the manager afterwards. *)
Definition step (m : SimulationManager)
  : (ManagerExn + TickResult) * list Exn * SimulationManager :=
  match engine m with
  | None => (inl (RuntimeError "Simulation not initialized"), [], m)
  | Some e =>
      match tick e with
      | (inl exn, e1) =>
          (inl (EngineExn exn), [],
           {| manager_db := manager_db m; engine := Some e1;
              _subscribers := _subscribers m;
              _historical_scars := _historical_scars m |})
      | (inr result, e1) =>
          let scars := _update_historical_scars (_historical_scars m) result in
          let printed := _broadcast_tick (_subscribers m) result in
          (inr result, printed,
           {| manager_db := manager_db m; engine := Some e1;
              _subscribers := _subscribers m;
              _historical_scars := scars |})
      end
  end.


End Manager.

Arguments SimulationManager : clear implicits.


(** * Specification

    The notions the properties below are stated with. *)

(** ** Era clock *)

Section ClockSpec.
Context {G : Type} `{RandomGen G}.

(** The clocks a kernel can hold: the clock of a genesis, a clock advanced
    by one day, and a clock rebuilt from the pair (era name, day counter)
    that a kernel persisted. *)
Inductive clock_reachable : AgeManager -> Prop :=
| clock_genesis (g : G) :
    clock_reachable (AgeManager_new g).1
| clock_advance (m : AgeManager) (g : G) :
    clock_reachable m -> clock_reachable (AgeManager_tick m g).1.2
| clock_restore (m m' : AgeManager) :
    clock_reachable m ->
    AgeManager_from_state (Age_value (current_age m)) (day_counter m) = Some m' ->
    clock_reachable m'.
End ClockSpec.

Definition clock_in_bounds (m : AgeManager) : Prop :=
  0 <= day_counter m < age_duration m /\
  min_days (AGE_TRAITS (current_age m)) <= age_duration m
    <= max_days (AGE_TRAITS (current_age m)).

(** ** Population *)

Definition citizen_in_range (c : CitizenRow.t) : Prop :=
  (forall d, in_unit (get_belief c d)) /\
  in_unit (CitizenRow.fear c) /\
  in_unit (CitizenRow.gratitude c).

(** A citizen as genesis leaves it: values in range, alive, saved. *)
Definition generated_citizen (c : CitizenRow.t) : Prop :=
  citizen_in_range c /\ CitizenRow.alive c = true /\ is_Some (CitizenRow.id c).

(** What identifies a citizen and says whether it lives; a tick may change
    every other field. *)
Definition citizen_identity (c : CitizenRow.t)
  : option Z * string * option Z * bool :=
  (CitizenRow.id c, CitizenRow.name c, CitizenRow.faction_id c, CitizenRow.alive c).

(** ** Aggregation, in the words of the specification *)

Definition arithmetic_mean (xs : list Q) : Q :=
  (foldr Qplus 0 xs / inject_Z (Z.of_nat (length xs)))%Q.

Definition population_variance (xs : list Q) : Q :=
  arithmetic_mean
    (map (fun x => (x - arithmetic_mean xs) * (x - arithmetic_mean xs))%Q xs).

Definition living_population (citizens : list CitizenRow.t) : list CitizenRow.t :=
  List.filter CitizenRow.alive citizens.

(** ** Pantheon *)

(** The gods table as SQLite keeps it: every row has an id, no two rows
    share one. *)
Definition gods_wf (table : list GodRow.t) : Prop :=
  Forall (fun g => is_Some (GodRow.id g)) table /\
  NoDup (map GodRow.id table).

Definition living_gods (table : list GodRow.t) (d : Domain) : list GodRow.t :=
  List.filter (fun g => GodRow.alive g && bool_decide (GodRow.domain g = d)) table.

Definition pantheon_exclusive (table : list GodRow.t) : Prop :=
  forall d, (length (living_gods table d) <= 1)%nat.

(** The birth criteria on the aggregation of a population. *)
Definition strong_day (citizens : list CitizenRow.t) (d : Domain) : Prop :=
  (BELIEF_THRESHOLD <= average_belief (aggregate_domain citizens d))%Q /\
  (COHERENCE_THRESHOLD <= agg_coherence (aggregate_domain citizens d))%Q.

Definition weak_day (citizens : list CitizenRow.t) (d : Domain) : Prop :=
  (average_belief (aggregate_domain citizens d) < FADE_THRESHOLD)%Q.

(** One god through the first loop of [process_gods]: the row that is
    saved, and whether the god is reported as faded. *)
Definition god_after (aggs : list (Domain * BeliefAggregation)) (cur : Z)
  (g : GodRow.t) : GodRow.t :=
  (update_existing_god (agg_lookup aggs (GodRow.domain g)) cur g).1.

Definition god_fades (aggs : list (Domain * BeliefAggregation)) (cur : Z)
  (g : GodRow.t) : bool :=
  (update_existing_god (agg_lookup aggs (GodRow.domain g)) cur g).2.

(** One domain through the second loop: the streak counter it is left
    with, and whether a god is born. *)
Definition birth_outcome (living : gset Domain) (proto : gmap Domain Z)
  (d : Domain) (agg : BeliefAggregation) : Z * bool :=
  if bool_decide (d ∈ living) then (0, false)
  else if Qgeb (average_belief agg) BELIEF_THRESHOLD
          && Qgeb (agg_coherence agg) COHERENCE_THRESHOLD then
    if proto !!! d + 1 >=? CONSECUTIVE_DAYS_BIRTH then (0, true)
    else (proto !!! d + 1, false)
  else (0, false).

(** The table after the first loop, the gods the tick found alive, and the
    domains that still have a living god when the second loop starts. *)
Definition table_after (cs : list CitizenRow.t) (cur : Z) (table : list GodRow.t)
  : list GodRow.t :=
  map (fun r => if GodRow.alive r
                then god_after (aggregate_beliefs cs) cur r else r) table.

Definition living_after (cs : list CitizenRow.t) (cur : Z) (table : list GodRow.t)
  : gset Domain :=
  list_to_set
    (map GodRow.domain
       (List.filter GodRow.alive
          (map (god_after (aggregate_beliefs cs) cur)
             (List.filter GodRow.alive table)))).

Section PantheonSpec.
Context {G : Type} `{RandomGen G}.

(** The row a birth inserts into a table whose ids are [ids]. *)
Definition newborn (d : Domain) (agg : BeliefAggregation) (cur : Z) (g : G)
  (ids : list (option Z)) : GodRow.t :=
  GodRow.set_id
    (God_birth d (average_belief agg) (agg_coherence agg) cur g).1
    (Some (lastrowid ids)).
End PantheonSpec.

(** The streak counters as the kernel keeps them: an ascending counter
    stays below the birth streak, the weak streak of a living god stays
    below the fade streak. *)
Definition streaks_bounded (table : list GodRow.t) (gs : GodSystem) : Prop :=
  (forall d, 0 <= _proto_god_days gs !!! d < CONSECUTIVE_DAYS_BIRTH) /\
  Forall (fun g => GodRow.alive g = true ->
                   0 <= GodRow.consecutive_weak_days g < CONSECUTIVE_DAYS_FADE)
         table.

Section KernelSpec.
Context {G : Type} `{RandomGen G}.

(** A sequence of [process_gods] calls on one god system and database.
    Each call comes with the population and the day it is given and with
    the state in which it finds the shared generator (other components
    draw from it between two calls). *)
Fixpoint pantheon_run (inputs : list (list CitizenRow.t * Z * G))
  (d : Database) (gs : GodSystem)
  : list (list GodRow.t * list GodRow.t) * Database * GodSystem :=
  match inputs with
  | [] => ([], d, gs)
  | (citizens, current, g) :: rest =>
      let '(born, faded, d1, _, gs1) := process_gods citizens current d g gs in
      let '(outs, d2, gs2) := pantheon_run rest d1 gs1 in
      ((born, faded) :: outs, d2, gs2)
  end.

Definition set_population (e : SimulationEngine G) (cs : list CitizenRow.t)
  : SimulationEngine G :=
  {| db := db e; seed := seed e; rng := rng e; narrator := narrator e;
     age_manager := age_manager e; god_system := god_system e;
     current_day := current_day e; _factions := _factions e;
     _citizens := cs |}.

(** The gods table at every instant of one call of [process_gods]: before
    the call and after each iteration of the first loop, then after each
    iteration of the second loop.  An iteration is a prefix of the loop. *)
Definition process_gods_tables (citizens : list CitizenRow.t) (current_day : Z)
  (d : Database) (g : G) (gs : GodSystem) : list (list GodRow.t) :=
  let aggregations := aggregate_beliefs citizens in
  let existing_gods := get_all_gods d true in
  let first_loop k :=
    fold_left (fade_step aggregations current_day) (firstn k existing_gods)
      (d, [], []) in
  let '(db1, existing', _) := first_loop (length existing_gods) in
  let living_domains : gset Domain :=
    list_to_set (map GodRow.domain (List.filter GodRow.alive existing')) in
  let second_loop k :=
    fold_left (birth_step living_domains current_day) (firstn k aggregations)
      (db1, g, _proto_god_days gs, []) in
  map (fun k => gods (first_loop k).1.1) (seq 0 (S (length existing_gods)))
  ++ map (fun k => gods (second_loop k).1.1.1) (seq 1 (length aggregations)).

(** The same for one call of [tick], which changes the table of gods in its
    call of [process_gods] only. *)
Definition tick_gods_tables (e : SimulationEngine G) : list (list GodRow.t) :=
  match age_manager e, god_system e with
  | Some am, Some gs =>
      let cur := current_day e + 1 in
      let '(_, am1, g1) := AgeManager_tick am (rng e) in
      let '(ev, g2) :=
        generate_event (current_age am1) (event_rate (AgeManager_traits am1)) g1 in
      let '(citizens1, _, d1, g3) :=
        match ev with
        | Some ev' =>
            let '(cs, ga) :=
              _apply_event ev' (AgeManager_traits am1) (_factions e)
                (_citizens e) g2 in
            let '(ms, da, gb) := _create_myths ev' cur (_factions e) (db e) ga in
            (cs, ms, da, gb)
        | None => (_citizens e, [], db e, g2)
        end in
      process_gods_tables citizens1 cur d1 g3 gs
  | _, _ => [gods (db e)]
  end.

(** The engines of a run: a fresh genesis, a tick, a kernel started on the
    database a run has persisted, and a population whose belief in one
    domain was forced to a level in [0,1] between two ticks. *)
Inductive reachable : SimulationEngine G -> Prop :=
| reach_genesis (d0 : Database) (sd : Z) (nar : option Narrator)
    (e : SimulationEngine G) :
    initialize (SimulationEngine_init d0 sd nar) true = inr e ->
    reachable e
| reach_tick (e : SimulationEngine G) :
    reachable e -> reachable (tick e).2
| reach_restore (e e' : SimulationEngine G) (sd : Z) (nar : option Narrator) :
    reachable e ->
    initialize (SimulationEngine_init (db e) sd nar) false = inr e' ->
    reachable e'
| reach_force (e : SimulationEngine G) (d : Domain) (belief_level : Q) :
    reachable e ->
    in_unit belief_level ->
    reachable
      (set_population e (force_belief_for_domain (_citizens e) d belief_level)).

(** [n] calls of [tick], whatever each of them returns or raises. *)
Definition ticks (n : nat) (e : SimulationEngine G) : SimulationEngine G :=
  Nat.iter n (fun e' => (tick e').2) e.

Definition set_narrator (e : SimulationEngine G) (nar : option Narrator)
  : SimulationEngine G :=
  {| db := db e; seed := seed e; rng := rng e; narrator := nar;
     age_manager := age_manager e; god_system := god_system e;
     current_day := current_day e; _factions := _factions e;
     _citizens := _citizens e |}.

(** What an observer compares between two runs. *)
Definition observation : Type :=
  Age * option string * list Domain * list Domain.

Definition observe (r : TickResult) : observation :=
  (age r, ev_name <$> event r,
   map GodRow.domain (born_gods r), map GodRow.domain (faded_gods r)).

(** A kernel built on database [d0] with seed [sd], initialised fresh and
    ticked [n] times. *)
Definition simulate (d0 : Database) (sd : Z) (nar : option Narrator) (n : nat)
  : Exn + list (Exn + TickResult) :=
  match initialize (SimulationEngine_init d0 sd nar) true with
  | inl exn => inl exn
  | inr e => inr (run n e).1
  end.

Definition observe_run (out : Exn + list (Exn + TickResult))
  : Exn + list (Exn + observation) :=
  match out with
  | inl exn => inl exn
  | inr rs =>
      inr (map (fun r => match r with
                         | inl exn => inl exn
                         | inr t => inr (observe t)
                         end) rs)
  end.

Definition quiet (nar : option Narrator) : Prop :=
  forall f r, nar = Some f -> f r = None.
End KernelSpec.

(** What every engine of a run satisfies. *)
Definition kernel_inv {G : Type} (e : SimulationEngine G) : Prop :=
  gods_wf (gods (db e)) /\
  NoDup (map GodRow.domain (List.filter GodRow.alive (gods (db e)))) /\
  Forall citizen_in_range (_citizens e) /\
  Forall citizen_in_range (citizens (db e)).

Definition empty_db : Database :=
  {| world_state := None; factions := []; citizens := []; myths := [];
     gods := [] |}.

(** ** A concrete run

    The kernel on an empty database with seed 12345 and the generator
    [lcg_gen]; genesis succeeds (the three faction names differ). *)

Definition genesis_12345 : Exn + SimulationEngine Z :=
  initialize (SimulationEngine_init empty_db 12345 None) true.

Definition engine_12345 : SimulationEngine Z :=
  match genesis_12345 with
  | inr e => e
  | inl _ => SimulationEngine_init empty_db 12345 None
  end.

(** The clock of that run after [n] days. *)
Definition clock_after (n : nat) (sd : Z) : AgeManager * Z :=
  Nat.iter n
    (fun st => let '(_, m1, g1) := AgeManager_tick st.1 st.2 in (m1, g1))
    (AgeManager_new sd).

(** A synthetic population of one citizen with a forced belief, as the
    tests of the repository force it. *)
Definition forced_citizen (d : Domain) (belief_level : Q) : CitizenRow.t :=
  {| CitizenRow.id := Some 1; CitizenRow.name := "Ashan";
     CitizenRow.faction_id := None;
     CitizenRow.belief_vector := {[ d := belief_level ]};
     CitizenRow.fear := 0.2; CitizenRow.gratitude := 0.2;
     CitizenRow.alive := true |}.

(** [n] consecutive days, starting at [first], on each of which the god
    system is given that population. *)
Fixpoint forced_days (n : nat) (first : Z) (d : Domain) (belief_level : Q)
  : list (list CitizenRow.t * Z * Z) :=
  match n with
  | O => []
  | S n' =>
      ([forced_citizen d belief_level], first, 12345)
        :: forced_days n' (first + 1) d belief_level
  end.

Definition sky_god : GodRow.t :=
  {| GodRow.id := Some 1; GodRow.name := "Aelus"; GodRow.domain := sky;
     GodRow.belief_strength := 0.8; GodRow.coherence := 1.0;
     GodRow.alive := true; GodRow.birth_day := 5; GodRow.death_day := None;
     GodRow.consecutive_strong_days := 3; GodRow.consecutive_weak_days := 0 |}.

Definition sky_db : Database := set_gods empty_db [sky_god].

(** ** Event application *)

(** The expression bound to [belief_delta] in [_apply_event], for the draw
    [r] of the jitter. *)
Definition belief_delta_of (ev : Event) (traits : AgeTraits) (r : Q) : Q :=
  (belief_impact ev * belief_growth traits * (0.8 + r * 0.4))%Q.

(** An unaffiliated citizen and an omen of the river. *)
Definition loner : CitizenRow.t := forced_citizen river 0.2.

Definition flood : Event :=
  {| ev_name := "The Great Flooding";
     description := "Waters rise beyond their banks";
     primary_domain := river; secondary_domain := None;
     fear_impact := 0.2; gratitude_impact := -0.1;
     belief_impact := 0.15; magnitude := 0.5 |}.

(** A narrator that always raises. *)
Definition failing_narrator : Narrator :=
  fun _ => Some (CallbackError "observer failed").

Definition silent_narrator : Narrator := fun _ => None.


(** * Further notions

    The notions used by the properties of the code beyond the
    specification. *)

(** ** Era clock over several days *)

Section ClockRuns.
Context {G : Type} `{RandomGen G}.

(** [n] calls of [AgeManager.tick] in a row: what each of them returned, the
    clock and the generator afterwards. *)
Fixpoint AgeManager_ticks (n : nat) (m : AgeManager) (g : G)
  : list (option Age) * AgeManager * G :=
  match n with
  | O => ([], m, g)
  | S n' =>
      let '(tr, m1, g1) := AgeManager_tick m g in
      let '(trs, m2, g2) := AgeManager_ticks n' m1 g1 in
      (tr :: trs, m2, g2)
  end.
End ClockRuns.

(** ** The state of a run *)

(** A faction as the kernel keeps it: saved, and with no negative weight. *)
Definition faction_wf (f : FactionRow.t) : Prop :=
  is_Some (FactionRow.id f) /\ forall d, (0 <= get_bias f d)%Q.

(** A population as the kernel keeps it: values in range, everybody alive,
    everybody saved, no id twice. *)
Definition population_wf (cs : list CitizenRow.t) : Prop :=
  Forall citizen_in_range cs /\
  Forall (fun c => CitizenRow.alive c = true) cs /\
  Forall (fun c => is_Some (CitizenRow.id c)) cs /\
  NoDup (map CitizenRow.id cs).

(** What every engine of a run satisfies, beyond [kernel_inv]: it is
    initialised, its clock is in bounds, its streak counters are bounded,
    the world state row is the one of its day, clock and seed, the table of
    citizens holds the rows of its population (with the values of the last
    save) and the table of factions is its list of factions. *)
Definition run_inv {G : Type} (e : SimulationEngine G) : Prop :=
  kernel_inv e /\
  (exists am gs,
     age_manager e = Some am /\ god_system e = Some gs /\
     clock_in_bounds am /\ streaks_bounded (gods (db e)) gs /\
     world_state (db e) = Some (world_state_row (current_day e) am (seed e))) /\
  0 <= current_day e /\
  population_wf (_citizens e) /\
  population_wf (citizens (db e)) /\
  map CitizenRow.id (citizens (db e)) = map CitizenRow.id (_citizens e) /\
  factions (db e) = _factions e /\
  Forall faction_wf (_factions e).

Section RunSpec.
Context {G : Type} `{RandomGen G}.

(** The result a tick assembles; [tick] returns it unless the narrator
    raises. *)
Definition tick_outcome (e : SimulationEngine G) : option TickResult :=
  match (tick (set_narrator e None)).1 with
  | inr r => Some r
  | inl _ => None
  end.

(** The engines of a run in which nothing but the kernel changes the
    population: a fresh genesis, a tick, a restart on the persisted
    database. *)
Inductive natural : SimulationEngine G -> Prop :=
| natural_genesis (d0 : Database) (sd : Z) (nar : option Narrator)
    (e : SimulationEngine G) :
    initialize (SimulationEngine_init d0 sd nar) true = inr e ->
    natural e
| natural_tick (e : SimulationEngine G) :
    natural e -> natural (tick e).2
| natural_restore (e e' : SimulationEngine G) (sd : Z) (nar : option Narrator) :
    natural e ->
    initialize (SimulationEngine_init (db e) sd nar) false = inr e' ->
    natural e'.
End RunSpec.

(** In a natural run the table of citizens is the population, and every
    living god stands on a mean belief of at least the birth threshold. *)
Definition natural_inv {G : Type} (e : SimulationEngine G) : Prop :=
  run_inv e /\
  citizens (db e) = _citizens e /\
  Forall (fun g => GodRow.alive g = true ->
                   (BELIEF_THRESHOLD
                    <= average_belief
                         (aggregate_domain (_citizens e) (GodRow.domain g)))%Q)
         (gods (db e)).

(** Two databases that differ in the table of gods at most. *)
Definition same_but_gods (d d' : Database) : Prop :=
  world_state d' = world_state d /\ factions d' = factions d /\
  citizens d' = citizens d /\ myths d' = myths d.

(** ** Genesis *)

Section GenesisSpec.
Context {G : Type} `{RandomGen G}.


End GenesisSpec.

(** ** Factions and their members *)

(** The membership a genesis sets up, as the database answers for it: three
    factions, each found under its id and with eight living members, and
    five citizens without faction. *)
Definition members_ok (d : Database) : Prop :=
  length (factions d) = INITIAL_FACTIONS /\
  Forall (fun f =>
            exists i, FactionRow.id f = Some i /\
                      get_faction d i = Some f /\
                      length (get_citizens_by_faction d i)
                      = INITIAL_CITIZENS_PER_FACTION)
         (factions d) /\
  length (List.filter (fun c => bool_decide (CitizenRow.faction_id c = None))
            (citizens d))
  = UNAFFILIATED_CITIZENS.

(** The loop invariant of the genesis: factions with distinct ids, every
    citizen so far in one of them, eight in each. *)
Definition affiliation_inv (fs : list FactionRow.t) (cs : list CitizenRow.t)
  : Prop :=
  NoDup (map FactionRow.id fs) /\
  Forall (fun f => is_Some (FactionRow.id f)) fs /\
  Forall (fun c => CitizenRow.faction_id c ∈ map FactionRow.id fs) cs /\
  Forall (fun f =>
            length (List.filter
                      (fun c => bool_decide (CitizenRow.faction_id c
                                             = FactionRow.id f)) cs)
            = INITIAL_CITIZENS_PER_FACTION) fs.

(** ** The manager *)

(** A position of the 64 x 64 grid. *)
Definition on_grid (p : Z * Z) : Prop := 0 <= p.1 < 64 /\ 0 <= p.2 < 64.

Section ManagerSpec.
Context {G : Type} `{RandomGen G}.

(** [n] calls of [step], whatever each of them returns, raises or prints. *)
Definition steps (hash : string -> Z) (n : nat) (m : SimulationManager G)
  : SimulationManager G :=
  Nat.iter n (fun m' => (step hash m').2) m.

Definition set_subscribers (m : SimulationManager G) (subs : list Narrator)
  : SimulationManager G :=
  {| manager_db := manager_db m; engine := engine m; _subscribers := subs;
     _historical_scars := _historical_scars m |}.

End ManagerSpec.

(** The manager of the examples: initialised fresh on the empty database
    with seed 12345. *)
Definition manager_12345 : SimulationManager Z :=
  {| manager_db := empty_db; engine := Some engine_12345; _subscribers := [];
     _historical_scars := ∅ |}.

(** A hash of strings for the examples: the length. *)
Definition length_hash (s : string) : Z := Z.of_nat (String.length s).


(** * Properties *)

(** ** Arithmetic of the clamp *)

Lemma clamp01_unit (x : Q) : in_unit (clamp01 x).
Proof.
  unfold in_unit, clamp01. split.
  - apply Q.le_max_l.
  - apply Q.max_lub; [lra | apply Q.le_min_l].
Qed.

Lemma Qltb_lt (x y : Q) : Qltb x y = true <-> (x < y)%Q.
Proof.
  unfold Qltb. rewrite negb_true_iff.
  destruct (Qle_bool y x) eqn:E.
  - apply Qle_bool_iff in E. split; [discriminate | lra].
  - split; [intros _ | done].
    apply Qnot_le_lt. intros Hle. apply Qle_bool_iff in Hle. congruence.
Qed.

Lemma Qgeb_le (x y : Q) : Qgeb x y = true <-> (y <= x)%Q.
Proof. unfold Qgeb. apply Qle_bool_iff. Qed.

(** ** Generator *)

Section GeneratorFacts.
Context {G : Type} `{RandomGen G}.

Lemma uniform_range (a b : Q) (g : G) :
  (a <= b)%Q -> (a <= (uniform a b g).1)%Q /\ ((uniform a b g).1 <= b)%Q.
Proof.
  intros Hab. unfold uniform.
  pose proof (random_unit g) as [H0 H1].
  destruct (random g) as [r g1]; simpl in *.
  split; nra.
Qed.

Lemma randint_range (a b : Z) (g : G) :
  a <= b -> a <= (randint a b g).1 <= b.
Proof.
  intros Hab. unfold randint.
  pose proof (randbelow_lt (Z.to_nat (b - a + 1)) g) as Hlt.
  destruct (randbelow _ g) as [k g1]; simpl in *.
  lia.
Qed.
End GeneratorFacts.

(** ** Era clock *)

Lemma Age_of_value_value (a : Age) : Age_of_value (Age_value a) = Some a.
Proof. by destruct a. Qed.

Lemma AGE_TRAITS_days (a : Age) :
  0 < min_days (AGE_TRAITS a) <= max_days (AGE_TRAITS a).
Proof. destruct a; simpl; lia. Qed.

Lemma AgeManager_from_state_value (a : Age) (counter : Z) :
  AgeManager_from_state (Age_value a) counter =
    Some {| current_age := a; day_counter := counter;
            age_duration := Z.max (counter + 1) (min_days (AGE_TRAITS a)) |}.
Proof.
  unfold AgeManager_from_state. by rewrite Age_of_value_value.
Qed.

(** C7: a clock rebuilt from a persisted pair (era, day counter) is in that
    era, has that day counter, and its duration is the larger of the day
    counter plus one and the era's minimum duration. *)
Theorem from_state_restores (a : Age) (counter : Z) :
  AgeManager_from_state (Age_value a) counter =
    Some {| current_age := a; day_counter := counter;
            age_duration := Z.max (counter + 1) (min_days (AGE_TRAITS a)) |}.
Proof.
  unfold AgeManager_from_state. by rewrite Age_of_value_value.
Qed.

Section ClockFacts.
Context {G : Type} `{RandomGen G}.

Lemma new_in_bounds (g : G) : clock_in_bounds (AgeManager_new g).1.
Proof.
  unfold AgeManager_new, clock_in_bounds.
  pose proof (randint_range (min_days (AGE_TRAITS EMERGENCE))
                (max_days (AGE_TRAITS EMERGENCE)) g) as Hr.
  destruct (randint _ _ g) as [duration g1]; simpl in *. lia.
Qed.

Lemma tick_in_bounds (m : AgeManager) (g : G) :
  clock_in_bounds m -> clock_in_bounds (AgeManager_tick m g).1.2.
Proof.
  unfold clock_in_bounds, AgeManager_tick. intros [Hday Hdur]. cbn [day_counter age_duration current_age].
  destruct (Z.geb_spec (day_counter m + 1) (age_duration m)) as [Hge | Hlt].
  - unfold AgeManager_transition. cbn [current_age].
    pose proof (AGE_TRAITS_days (Age_next (current_age m))) as Ht.
    pose proof (randint_range (min_days (AGE_TRAITS (Age_next (current_age m))))
                  (max_days (AGE_TRAITS (Age_next (current_age m)))) g) as Hr.
    destruct (randint _ _ g) as [duration g1]; simpl in *. lia.
  - simpl. lia.
Qed.

Lemma from_state_in_bounds (m m' : AgeManager) :
  clock_in_bounds m ->
  AgeManager_from_state (Age_value (current_age m)) (day_counter m) = Some m' ->
  clock_in_bounds m'.
Proof.
  intros [Hday Hdur]. rewrite AgeManager_from_state_value. intros [= <-].
  unfold clock_in_bounds; simpl. lia.
Qed.

(** C6: every clock of a kernel -- created at genesis, advanced any number
    of days, or rebuilt from a pair the kernel persisted -- has
    0 <= day counter < duration, and its duration lies in the range of
    its current era. *)
Theorem era_clock_bounds (m : AgeManager) :
  clock_reachable m ->
  0 <= day_counter m < age_duration m /\
  min_days (AGE_TRAITS (current_age m)) <= age_duration m
    <= max_days (AGE_TRAITS (current_age m)).
Proof.
  induction 1 as [g | m g _ IH | m m' _ IH Hrestore].
  - apply new_in_bounds.
  - by apply tick_in_bounds.
  - by eapply from_state_in_bounds.
Qed.
End ClockFacts.

Lemma clock_after_succ (n : nat) (sd : Z) :
  clock_after (S n) sd
  = let '(_, m1, g1) :=
      AgeManager_tick (clock_after n sd).1 (clock_after n sd).2 in (m1, g1).
Proof. done. Qed.

Lemma clock_after_reachable (n : nat) (sd : Z) :
  clock_reachable (clock_after n sd).1.
Proof.
  induction n as [| n IH].
  - apply (clock_genesis sd).
  - rewrite clock_after_succ.
    pose proof (clock_advance _ (clock_after n sd).2 IH) as Hadv.
    by destruct (AgeManager_tick _ _) as [[tr m1] g1].
Qed.

(** The bounds on the clock of seed 12345 after 100 days. *)
Lemma era_clock_bounds_witness :
  clock_reachable (G := Z) (clock_after 100 12345).1 /\
  (0 <= day_counter (clock_after 100 12345).1
     < age_duration (clock_after 100 12345).1 /\
   min_days (AGE_TRAITS (current_age (clock_after 100 12345).1))
     <= age_duration (clock_after 100 12345).1
     <= max_days (AGE_TRAITS (current_age (clock_after 100 12345).1))).
Proof.
  split; [apply clock_after_reachable |].
  exact (era_clock_bounds (clock_after 100 12345).1
           (clock_after_reachable 100 12345)).
Defined.

(** ** Citizens: belief and emotion updates *)

Lemma get_belief_update_same (c : CitizenRow.t) (d : Domain) (delta bias : Q) :
  get_belief (update_belief c d delta bias) d
  = clamp01 (get_belief c d + delta * bias).
Proof. unfold update_belief, get_belief; simpl. by rewrite lookup_insert_eq. Qed.

Lemma get_belief_update_other (c : CitizenRow.t) (d d' : Domain) (delta bias : Q) :
  d <> d' ->
  get_belief (update_belief c d delta bias) d' = get_belief c d'.
Proof.
  intros Hne. unfold update_belief, get_belief; simpl.
  by rewrite lookup_insert_ne.
Qed.

Lemma update_belief_in_range (c : CitizenRow.t) (d : Domain) (delta bias : Q) :
  citizen_in_range c -> citizen_in_range (update_belief c d delta bias).
Proof.
  intros (Hb & Hf & Hg). split; [| by split].
  intros d'. destruct (decide (d = d')) as [<- | Hne].
  - rewrite get_belief_update_same. apply clamp01_unit.
  - rewrite get_belief_update_other by done. apply Hb.
Qed.

Lemma update_emotion_in_range (c : CitizenRow.t) (fd gd : Q) :
  citizen_in_range c -> citizen_in_range (update_emotion c fd gd).
Proof.
  intros (Hb & _ & _). split; [exact Hb |].
  split; apply clamp01_unit.
Qed.

Lemma update_belief_identity (c : CitizenRow.t) (d : Domain) (delta bias : Q) :
  citizen_identity (update_belief c d delta bias) = citizen_identity c.
Proof. done. Qed.

Lemma update_emotion_identity (c : CitizenRow.t) (fd gd : Q) :
  citizen_identity (update_emotion c fd gd) = citizen_identity c.
Proof. done. Qed.

Lemma force_belief_in_range (cs : list CitizenRow.t) (d : Domain) (level : Q) :
  in_unit level ->
  Forall citizen_in_range cs ->
  Forall citizen_in_range (force_belief_for_domain cs d level).
Proof.
  intros Hlevel Hcs. unfold force_belief_for_domain.
  apply Forall_forall. intros c' Hc'.
  apply list_elem_of_In, in_map_iff in Hc' as (c & <- & Hc).
  rewrite Forall_forall in Hcs.
  destruct (Hcs c ltac:(by apply list_elem_of_In)) as (Hb & Hf & Hg).
  split; [| by split]. intros d'. unfold get_belief; simpl.
  destruct (decide (d = d')) as [<- | Hne].
  - by rewrite lookup_insert_eq.
  - rewrite lookup_insert_ne by done. apply Hb.
Qed.

Lemma force_belief_identity (cs : list CitizenRow.t) (d : Domain) (level : Q) :
  map citizen_identity (force_belief_for_domain cs d level)
  = map citizen_identity cs.
Proof.
  unfold force_belief_for_domain. rewrite List.map_map. by apply map_ext.
Qed.

Section PopulationFacts.
Context {G : Type} `{RandomGen G}.

Lemma apply_event_to_in_range ev traits factions (c : CitizenRow.t) (g : G) :
  citizen_in_range c ->
  citizen_in_range (apply_event_to ev traits factions c g).1.
Proof.
  intros Hc. unfold apply_event_to.
  destruct (random g) as [r1 g1]. destruct (random g1) as [r2 g2].
  destruct (random g2) as [r3 g3]. cbn [fst].
  apply update_emotion_in_range.
  destruct (secondary_domain ev); repeat apply update_belief_in_range; done.
Qed.

Lemma apply_event_to_identity ev traits factions (c : CitizenRow.t) (g : G) :
  citizen_identity (apply_event_to ev traits factions c g).1 = citizen_identity c.
Proof.
  unfold apply_event_to.
  destruct (random g) as [r1 g1]. destruct (random g1) as [r2 g2].
  destruct (random g2) as [r3 g3]. cbn [fst].
  by destruct (secondary_domain ev).
Qed.

Lemma _apply_event_in_range ev traits factions (cs : list CitizenRow.t) (g : G) :
  Forall citizen_in_range cs ->
  Forall citizen_in_range (_apply_event ev traits factions cs g).1.
Proof.
  intros Hcs. revert g. induction Hcs as [| c cs Hc _ IH]; intros g; simpl.
  - constructor.
  - pose proof (apply_event_to_in_range ev traits factions c g Hc) as Hc'.
    destruct (apply_event_to ev traits factions c g) as [c' g1].
    specialize (IH g1).
    destruct (_apply_event ev traits factions cs g1) as [rest g2].
    by constructor.
Qed.

Lemma _apply_event_identity ev traits factions (cs : list CitizenRow.t) (g : G) :
  map citizen_identity (_apply_event ev traits factions cs g).1
  = map citizen_identity cs.
Proof.
  revert g. induction cs as [| c cs IH]; intros g; simpl; [done |].
  pose proof (apply_event_to_identity ev traits factions c g) as Hc.
  destruct (apply_event_to ev traits factions c g) as [c' g1].
  specialize (IH g1).
  destruct (_apply_event ev traits factions cs g1) as [rest g2].
  simpl in *. by f_equal.
Qed.

Lemma uniform_vector_in_unit (a b : Q) (ds : list Domain) (g : G) (d : Domain) :
  (0 <= a)%Q -> (a <= b)%Q -> (b <= 1)%Q ->
  in_unit (default 0%Q ((uniform_vector a b ds g).1 !! d)).
Proof.
  intros Ha Hab Hb. revert g. induction ds as [| d0 ds IH]; intros g; simpl.
  - rewrite lookup_empty. simpl. unfold in_unit. lra.
  - pose proof (uniform_range a b g Hab) as Hu.
    destruct (uniform a b g) as [x g1].
    specialize (IH g1).
    destruct (uniform_vector a b ds g1) as [m g2]. simpl in *.
    destruct (decide (d0 = d)) as [-> | Hne].
    + rewrite lookup_insert_eq. simpl. unfold in_unit. lra.
    + by rewrite lookup_insert_ne.
Qed.

Lemma Citizen_generate_in_range (fid : option Z) (g : G) :
  citizen_in_range (Citizen_generate fid g).1.
Proof.
  unfold Citizen_generate.
  pose proof (fun d => uniform_vector_in_unit 0 0.3 DOMAINS g d
                         ltac:(lra) ltac:(lra) ltac:(lra)) as Hbv.
  destruct (uniform_vector 0 0.3 DOMAINS g) as [bv g1].
  destruct (generate_citizen_name g1) as [nm g2].
  pose proof (uniform_range 0.1 0.4 g2 ltac:(lra)) as Hf.
  destruct (uniform 0.1 0.4 g2) as [f g3].
  pose proof (uniform_range 0.1 0.4 g3 ltac:(lra)) as Hg.
  destruct (uniform 0.1 0.4 g3) as [gr g4]. cbn [fst] in *.
  split; [exact Hbv |]. cbn [CitizenRow.fear CitizenRow.gratitude].
  unfold in_unit. split; lra.
Qed.

Lemma Citizen_generate_alive (fid : option Z) (g : G) :
  CitizenRow.alive (Citizen_generate fid g).1 = true.
Proof.
  unfold Citizen_generate.
  destruct (uniform_vector 0 0.3 DOMAINS g) as [bv g1].
  destruct (generate_citizen_name g1) as [nm g2].
  destruct (uniform 0.1 0.4 g2) as [f g3].
  by destruct (uniform 0.1 0.4 g3) as [gr g4].
Qed.
End PopulationFacts.

(** ** Database: what each save touches *)

Lemma update_where_id_Forall {A : Type} (get_id : A -> option Z) (P : A -> Prop)
  (row : A) (table : list A) :
  P row -> Forall P table -> Forall P (update_where_id get_id row table).
Proof.
  intros Hrow Htable. unfold update_where_id.
  apply Forall_fmap. eapply Forall_impl; [exact Htable |].
  intros r Hr. simpl. by case_bool_decide.
Qed.

Lemma save_citizen_gods (d : Database) (c : CitizenRow.t) :
  gods (save_citizen d c).1 = gods d.
Proof. unfold save_citizen. by destruct (CitizenRow.id c). Qed.

Lemma save_citizen_in_range (d : Database) (c : CitizenRow.t) :
  citizen_in_range c ->
  Forall citizen_in_range (citizens d) ->
  citizen_in_range (save_citizen d c).2 /\
  Forall citizen_in_range (citizens (save_citizen d c).1).
Proof.
  intros Hc Hd. unfold save_citizen.
  destruct (CitizenRow.id c); simpl.
  - split; [done |]. by apply update_where_id_Forall.
  - split; [done |]. apply Forall_app. split; [done |]. by constructor.
Qed.

Lemma save_citizen_identity (d : Database) (c : CitizenRow.t) :
  is_Some (CitizenRow.id c) -> (save_citizen d c).2 = c.
Proof. intros [i Hi]. unfold save_citizen. by rewrite Hi. Qed.

Lemma save_citizen_alive (d : Database) (c : CitizenRow.t) :
  CitizenRow.alive (save_citizen d c).2 = CitizenRow.alive c.
Proof. unfold save_citizen. by destruct (CitizenRow.id c). Qed.

Lemma save_citizen_has_id (d : Database) (c : CitizenRow.t) :
  is_Some (CitizenRow.id (save_citizen d c).2).
Proof. unfold save_citizen. destruct (CitizenRow.id c) eqn:E; simpl; eauto. Qed.

Lemma save_citizens_gods (d : Database) (cs : list CitizenRow.t) :
  gods (save_citizens d cs).1 = gods d.
Proof.
  revert d. induction cs as [| c cs IH]; intros d; simpl; [done |].
  pose proof (save_citizen_gods d c) as Hg.
  destruct (save_citizen d c) as [d1 c1]. specialize (IH d1).
  destruct (save_citizens d1 cs) as [d2 rest]. simpl in *. congruence.
Qed.

Lemma save_citizens_in_range (d : Database) (cs : list CitizenRow.t) :
  Forall citizen_in_range cs ->
  Forall citizen_in_range (citizens d) ->
  Forall citizen_in_range (save_citizens d cs).2 /\
  Forall citizen_in_range (citizens (save_citizens d cs).1).
Proof.
  intros Hcs. revert d. induction Hcs as [| c cs Hc _ IH]; intros d Hd; simpl.
  - by split.
  - destruct (save_citizen_in_range d c Hc Hd) as [Hc1 Hd1].
    destruct (save_citizen d c) as [d1 c1]. simpl in *.
    destruct (IH d1 Hd1) as [Hrest Hd2].
    destruct (save_citizens d1 cs) as [d2 rest]. simpl in *.
    split; [by constructor | done].
Qed.

Lemma save_citizens_identity (d : Database) (cs : list CitizenRow.t) :
  Forall (fun c => is_Some (CitizenRow.id c)) cs ->
  (save_citizens d cs).2 = cs.
Proof.
  intros Hcs. revert d. induction Hcs as [| c cs Hc _ IH]; intros d; simpl.
  - done.
  - pose proof (save_citizen_identity d c Hc) as Hc1.
    destruct (save_citizen d c) as [d1 c1]. specialize (IH d1).
    destruct (save_citizens d1 cs) as [d2 rest]. simpl in *. congruence.
Qed.

Lemma save_myth_frame (d : Database) (m : MythRow.t) :
  gods (save_myth d m).1 = gods d /\ citizens (save_myth d m).1 = citizens d.
Proof. unfold save_myth. by destruct (MythRow.id m). Qed.

Lemma save_god_citizens (d : Database) (g : GodRow.t) :
  citizens (save_god d g).1 = citizens d.
Proof. unfold save_god. by destruct (GodRow.id g). Qed.

Section FrameFacts.
Context {G : Type} `{RandomGen G}.

Lemma _create_myths_frame ev cur (fs : list FactionRow.t) (d : Database) (g : G) :
  gods (_create_myths ev cur fs d g).1.2 = gods d /\
  citizens (_create_myths ev cur fs d g).1.2 = citizens d.
Proof.
  revert d g. induction fs as [| f fs IH]; intros d g; [done |].
  cbn [_create_myths].
  destruct (random g) as [r g1].
  destruct (Qltb r 0.3); [| apply IH].
  match goal with
  | |- context [save_myth d ?m] =>
      pose proof (save_myth_frame d m) as [Hg Hc];
      destruct (save_myth d m) as [d1 myth1]
  end.
  specialize (IH d1 g1).
  destruct (_create_myths ev cur fs d1 g1) as [[ms d2] g2].
  cbn [fst snd] in *. destruct IH. split; congruence.
Qed.

Lemma fade_loop_citizens aggs cur (l : list GodRow.t)
  (st : Database * list GodRow.t * list GodRow.t) :
  citizens (fold_left (fade_step aggs cur) l st).1.1 = citizens st.1.1.
Proof.
  revert st. induction l as [| g l IH]; intros st; simpl; [done |].
  rewrite IH. destruct st as [[d seen] faded]. unfold fade_step.
  destruct (update_existing_god _ cur g) as [g' is_faded].
  pose proof (save_god_citizens d g') as Hc.
  by destruct (save_god d g') as [d' ?].
Qed.

Lemma birth_loop_citizens living cur (l : list (Domain * BeliefAggregation))
  (st : Database * G * gmap Domain Z * list GodRow.t) :
  citizens (fold_left (birth_step living cur) l st).1.1.1 = citizens st.1.1.1.
Proof.
  revert st. induction l as [| [d agg] l IH]; intros st; simpl; [done |].
  rewrite IH. destruct st as [[[dbs g] proto] born]. unfold birth_step.
  case_bool_decide; [done |].
  destruct (_ && _); [| done].
  destruct (_ >=? _); [| done].
  destruct (God_birth d _ _ cur g) as [god g1].
  pose proof (save_god_citizens dbs god) as Hc.
  by destruct (save_god dbs god) as [db1 god1].
Qed.

Lemma process_gods_citizens cs cur (d : Database) (g : G) (gs : GodSystem) :
  citizens (process_gods cs cur d g gs).1.1.2 = citizens d.
Proof.
  unfold process_gods.
  pose proof (fade_loop_citizens (aggregate_beliefs cs) cur
                (get_all_gods d true) (d, [], [])) as Hf.
  destruct (fold_left (fade_step _ cur) _ _) as [[d1 seen] faded].
  pose proof (birth_loop_citizens
                (list_to_set (map GodRow.domain (List.filter GodRow.alive seen)))
                cur (aggregate_beliefs cs) (d1, g, _proto_god_days gs, [])) as Hb.
  destruct (fold_left (birth_step _ cur) _ _) as [[[d2 g2] proto] born].
  simpl in *. congruence.
Qed.
End FrameFacts.

(** ** The gods table: rows addressed by id *)

Lemma lastrowid_above (ids : list (option Z)) (i : Z) :
  Some i ∈ ids -> i < lastrowid ids.
Proof.
  unfold lastrowid. induction ids as [| j ids IH]; intros Hin.
  - by apply not_elem_of_nil in Hin.
  - apply elem_of_cons in Hin as [<- | Hin]; simpl; [lia |].
    specialize (IH Hin). lia.
Qed.

Lemma lastrowid_fresh (ids : list (option Z)) : Some (lastrowid ids) ∉ ids.
Proof. intros Hin. apply lastrowid_above in Hin. lia. Qed.

Lemma update_where_id_fresh {A : Type} (get_id : A -> option Z) (row : A)
  (table : list A) :
  get_id row ∉ map get_id table -> update_where_id get_id row table = table.
Proof.
  unfold update_where_id. induction table as [| r table IH]; intros Hnot; simpl.
  - done.
  - rewrite fmap_cons in Hnot. apply not_elem_of_cons in Hnot as [Hne Hnot].
    rewrite bool_decide_eq_false_2 by congruence.
    f_equal. by apply IH.
Qed.

Lemma update_where_id_app {A : Type} (get_id : A -> option Z) (row : A)
  (l1 l2 : list A) :
  update_where_id get_id row (l1 ++ l2)
  = update_where_id get_id row l1 ++ update_where_id get_id row l2.
Proof. unfold update_where_id. apply List.map_app. Qed.

Lemma update_where_id_cons {A : Type} (get_id : A -> option Z) (row r : A)
  (l : list A) :
  update_where_id get_id row (r :: l)
  = (if bool_decide (get_id r = get_id row) then row else r)
      :: update_where_id get_id row l.
Proof. done. Qed.

Lemma update_fold_map {A : Type} (get_id : A -> option Z) (f : A -> A)
  (P : A -> bool) (l pre : list A) :
  (forall r, get_id (f r) = get_id r) ->
  NoDup (map get_id (pre ++ l)) ->
  fold_left (fun t g => update_where_id get_id (f g) t) (List.filter P l) (pre ++ l)
  = pre ++ map (fun r => if P r then f r else r) l.
Proof.
  intros Hid. revert pre. induction l as [| r l IH]; intros pre Hnd; simpl.
  - done.
  - assert (Hnd' : forall x, get_id x = get_id r ->
                     NoDup (map get_id ((pre ++ [x]) ++ l))).
    { intros x Hx. rewrite <- app_assoc. simpl.
      rewrite List.map_app in *. simpl in *. by rewrite Hx. }
    destruct (P r) eqn:HP; simpl.
    + assert (Hstep : update_where_id get_id (f r) (pre ++ r :: l)
                      = pre ++ f r :: l).
      { rewrite List.map_app in Hnd. simpl in Hnd.
        apply NoDup_app in Hnd as (_ & Hdisj & Htail).
        apply NoDup_cons in Htail as [Hr _].
        rewrite update_where_id_app, update_where_id_cons.
        rewrite bool_decide_eq_true_2 by (symmetry; apply Hid).
        rewrite !update_where_id_fresh; [done | |].
        - by rewrite Hid.
        - rewrite Hid. intros Hin. apply (Hdisj _ Hin). by left. }
      rewrite Hstep.
      replace (pre ++ f r :: l) with ((pre ++ [f r]) ++ l)
        by (by rewrite <- app_assoc).
      rewrite IH by (apply Hnd', Hid). by rewrite <- app_assoc.
    + replace (pre ++ r :: l) with ((pre ++ [r]) ++ l)
        by (by rewrite <- app_assoc).
      rewrite IH by (by apply Hnd'). by rewrite <- app_assoc.
Qed.

Lemma god_after_id aggs cur (g : GodRow.t) :
  GodRow.id (god_after aggs cur g) = GodRow.id g.
Proof.
  unfold god_after, update_existing_god.
  destruct (Qltb _ _); [destruct (_ >=? _) |]; done.
Qed.

Lemma god_after_domain aggs cur (g : GodRow.t) :
  GodRow.domain (god_after aggs cur g) = GodRow.domain g.
Proof.
  unfold god_after, update_existing_god.
  destruct (Qltb _ _); [destruct (_ >=? _) |]; done.
Qed.

Lemma god_after_alive aggs cur (g : GodRow.t) :
  GodRow.alive (god_after aggs cur g)
  = GodRow.alive g && negb (god_fades aggs cur g).
Proof.
  unfold god_after, god_fades, update_existing_god.
  destruct (Qltb _ _); [destruct (_ >=? _) |]; simpl;
    by rewrite ?andb_true_r, ?andb_false_r.
Qed.

(** The first loop of [process_gods], list by list. *)
Lemma fade_step_unfold aggs cur (d : Database) (seen faded : list GodRow.t)
  (g : GodRow.t) :
  is_Some (GodRow.id g) ->
  fade_step aggs cur (d, seen, faded) g
  = (set_gods d (update_where_id GodRow.id (god_after aggs cur g) (gods d)),
     seen ++ [god_after aggs cur g],
     faded ++ (if god_fades aggs cur g then [god_after aggs cur g] else [])).
Proof.
  intros [i Hi]. unfold fade_step.
  pose proof (god_after_id aggs cur g) as Hid. rewrite Hi in Hid.
  unfold god_after, god_fades in *.
  destruct (update_existing_god (agg_lookup aggs (GodRow.domain g)) cur g)
    as [g' is_faded].
  cbn [fst snd] in *. unfold save_god. rewrite Hid.
  destruct is_faded; by rewrite ?app_nil_r.
Qed.

Lemma fade_loop_lists aggs cur (l : list GodRow.t) (d : Database)
  (seen faded : list GodRow.t) :
  Forall (fun g => is_Some (GodRow.id g)) l ->
  fold_left (fade_step aggs cur) l (d, seen, faded)
  = (set_gods d
       (fold_left
          (fun t g => update_where_id GodRow.id (god_after aggs cur g) t)
          l (gods d)),
     seen ++ map (god_after aggs cur) l,
     faded ++ map (god_after aggs cur) (List.filter (god_fades aggs cur) l)).
Proof.
  intros Hl. revert d seen faded.
  induction Hl as [| g l Hg _ IH]; intros d seen faded.
  - simpl. rewrite !app_nil_r. by destruct d.
  - cbn [fold_left]. rewrite fade_step_unfold by done. rewrite IH.
    cbn [gods set_gods map List.filter].
    f_equal; [f_equal |].
    + by rewrite <- app_assoc.
    + rewrite <- app_assoc. by destruct (god_fades aggs cur g).
Qed.

(** The second loop of [process_gods]. *)

Lemma birth_outcome_insert_ne living (proto : gmap Domain Z) (d d' : Domain)
  (v : Z) agg :
  d' <> d ->
  birth_outcome living (<[d' := v]> proto) d agg = birth_outcome living proto d agg.
Proof.
  intros Hne. unfold birth_outcome. by rewrite lookup_total_insert_ne.
Qed.

Lemma birth_outcome_born living (proto : gmap Domain Z) (d : Domain) agg :
  (birth_outcome living proto d agg).2 = true ->
  (birth_outcome living proto d agg).1 = 0 /\ (d ∉ living) /\
  (BELIEF_THRESHOLD <= average_belief agg)%Q /\
  (COHERENCE_THRESHOLD <= agg_coherence agg)%Q /\
  CONSECUTIVE_DAYS_BIRTH <= proto !!! d + 1.
Proof.
  unfold birth_outcome. case_bool_decide; [done |].
  destruct (Qgeb _ _ && Qgeb _ _) eqn:Hq; [| done].
  apply andb_true_iff in Hq as [Hb Hc].
  apply Qgeb_le in Hb, Hc.
  destruct (Z.geb_spec (proto !!! d + 1) CONSECUTIVE_DAYS_BIRTH); [| done].
  intros _. repeat split; try done; lia.
Qed.

Section BirthLoop.
Context {G : Type} `{RandomGen G}.

Lemma newborn_fields (d : Domain) agg cur (g : G) ids :
  let b := newborn d agg cur g ids in
  GodRow.id b = Some (lastrowid ids) /\ GodRow.domain b = d /\
  GodRow.alive b = true /\ GodRow.birth_day b = cur /\
  GodRow.death_day b = None /\
  GodRow.belief_strength b = average_belief agg /\
  GodRow.coherence b = agg_coherence agg /\
  GodRow.consecutive_strong_days b = 0 /\ GodRow.consecutive_weak_days b = 0.
Proof.
  unfold newborn, God_birth.
  by destruct (generate_god_name d g) as [nm g1].
Qed.

Lemma birth_step_unfold living cur (d0 : Database) (g : G)
  (proto : gmap Domain Z) (born : list GodRow.t) (d : Domain) agg :
  birth_step living cur (d0, g, proto, born) (d, agg)
  = if (birth_outcome living proto d agg).2 then
      let b := newborn d agg cur g (map GodRow.id (gods d0)) in
      (set_gods d0 (gods d0 ++ [b]),
       (God_birth d (average_belief agg) (agg_coherence agg) cur g).2,
       <[d := 0]> proto, born ++ [b])
    else (d0, g, <[d := (birth_outcome living proto d agg).1]> proto, born).
Proof.
  unfold birth_step, birth_outcome, newborn.
  case_bool_decide; [done |].
  destruct (Qgeb _ _ && Qgeb _ _); [| done].
  rewrite lookup_total_insert_eq.
  destruct (_ >=? _); [| done]. cbn [snd].
  unfold God_birth. destruct (generate_god_name d g) as [nm g1].
  cbn [fst snd]. unfold save_god. cbn [GodRow.id].
  by rewrite insert_insert_eq.
Qed.

(** What the second loop does to the table, to [born] and to the
    counters, for a list of items with pairwise distinct domains. *)
Lemma birth_loop_spec living cur (l : list (Domain * BeliefAggregation)) :
  NoDup (map fst l) ->
  forall (d0 : Database) (g : G) (proto : gmap Domain Z) (born : list GodRow.t),
  exists (nb : list GodRow.t) (g' : G) (proto' : gmap Domain Z),
    fold_left (birth_step living cur) l (d0, g, proto, born)
    = (set_gods d0 (gods d0 ++ nb), g', proto', born ++ nb) /\
    (forall d, d ∉ map fst l -> proto' !!! d = proto !!! d) /\
    (forall d agg, (d, agg) ∈ l ->
       proto' !!! d = (birth_outcome living proto d agg).1 /\
       ((birth_outcome living proto d agg).2 = true ->
        exists b, b ∈ nb /\ GodRow.domain b = d /\ GodRow.alive b = true /\
                  GodRow.birth_day b = cur /\ GodRow.death_day b = None)) /\
    Forall (fun b => GodRow.alive b = true /\
                     exists agg, (GodRow.domain b, agg) ∈ l /\
                       (birth_outcome living proto (GodRow.domain b) agg).2 = true)
           nb /\
    (gods_wf (gods d0) -> gods_wf (gods d0 ++ nb)) /\
    NoDup (map GodRow.domain nb).
Proof.
  induction l as [| [d agg] l IH]; intros Hnd d0 g proto born.
  - exists [], g, proto. simpl. rewrite !app_nil_r.
    split; [by destruct d0 |]. split; [done |].
    split; [intros ? ? Hin; by apply not_elem_of_nil in Hin |].
    split; [constructor |]. split; [done | constructor].
  - simpl in Hnd. apply NoDup_cons in Hnd as [Hd Hnd].
    cbn [fold_left]. rewrite birth_step_unfold.
    set (o := birth_outcome living proto d agg).
    assert (Hother : forall d1 agg1, (d1, agg1) ∈ l ->
              forall v, birth_outcome living (<[d := v]> proto) d1 agg1
                        = birth_outcome living proto d1 agg1).
    { intros d1 agg1 Hin v. apply birth_outcome_insert_ne.
      intros ->. apply Hd. apply list_elem_of_In, in_map_iff.
      exists (d1, agg1). split; [done | by apply list_elem_of_In]. }
    destruct (o.2) eqn:Ho.
    + cbn zeta.
      set (b := newborn d agg cur g (map GodRow.id (gods d0))).
      destruct (IH Hnd (set_gods d0 (gods d0 ++ [b]))
                  (God_birth d (average_belief agg) (agg_coherence agg) cur g).2
                  (<[d := 0]> proto) (born ++ [b]))
        as (nb & g' & proto' & Hfold & Hrest & Hin & Hall & Hwf & Hdom).
      exists (b :: nb), g', proto'.
      pose proof (newborn_fields d agg cur g (map GodRow.id (gods d0))) as Hb.
      cbn zeta in Hb. fold b in Hb.
      destruct Hb as (Hbid & Hbd & Hba & Hbb & Hbe & _).
      split; [| split; [| split; [| split; [| split]]]].
      * rewrite Hfold. cbn [gods set_gods]. by rewrite <- !app_assoc.
      * intros d1 Hd1. simpl in Hd1. apply not_elem_of_cons in Hd1 as [Hne Hd1].
        rewrite (Hrest d1 Hd1). by rewrite lookup_total_insert_ne.
      * intros d1 agg1 Hin1. apply elem_of_cons in Hin1 as [[= -> ->] | Hin1].
        -- rewrite (Hrest d Hd), lookup_total_insert_eq.
           destruct (birth_outcome_born living proto d agg Ho) as (Ho1 & _).
           fold o. split; [done |]. intros _. exists b. split; [by left | done].
        -- destruct (Hin d1 agg1 Hin1) as [Hp Hborn].
           rewrite Hother in Hp, Hborn by done. split; [done |].
           intros Ho1. destruct (Hborn Ho1) as (b1 & Hb1 & ?).
           exists b1. split; [by right | done].
      * constructor.
        -- split; [done |]. exists agg. rewrite Hbd. split; [by left | done].
        -- eapply Forall_impl; [exact Hall |]. intros b1 (Ha1 & agg1 & Hin1 & Ho1).
           split; [done |]. exists agg1. split; [by right |].
           by rewrite Hother in Ho1.
      * intros Hwf0. cbn [gods set_gods] in Hwf.
        rewrite <- app_assoc in Hwf. apply Hwf.
        destruct Hwf0 as [Hsome Hnodup]. split.
        -- apply Forall_app. split; [done |]. constructor; [| done].
           rewrite Hbid. eauto.
        -- rewrite List.map_app. simpl. apply NoDup_app.
           split; [done |]. split; [| apply NoDup_singleton].
           intros i Hi Hi'. apply list_elem_of_singleton in Hi'. subst i.
           rewrite ?Hbid in Hi. by apply lastrowid_fresh in Hi.
      * cbn [map]. apply NoDup_cons. split; [| done].
        rewrite Hbd. intros Hin'.
        apply list_elem_of_In, in_map_iff in Hin' as (b1 & Hb1d & Hb1).
        rewrite Forall_forall in Hall.
        destruct (Hall b1 ltac:(by apply list_elem_of_In)) as (_ & agg1 & Hin1 & _).
        apply Hd. apply list_elem_of_In, in_map_iff.
        exists (GodRow.domain b1, agg1).
        split; [done | by apply list_elem_of_In].
    + destruct (IH Hnd d0 g (<[d := o.1]> proto) born)
        as (nb & g' & proto' & Hfold & Hrest & Hin & Hall & Hwf & Hdom).
      exists nb, g', proto'.
      split; [done |]. split; [| split; [| split; [| done]]].
      * intros d1 Hd1. simpl in Hd1. apply not_elem_of_cons in Hd1 as [Hne Hd1].
        rewrite (Hrest d1 Hd1). by rewrite lookup_total_insert_ne.
      * intros d1 agg1 Hin1. apply elem_of_cons in Hin1 as [[= -> ->] | Hin1].
        -- rewrite (Hrest d Hd), lookup_total_insert_eq. fold o.
           split; [done |]. congruence.
        -- destruct (Hin d1 agg1 Hin1) as [Hp Hborn].
           rewrite Hother in Hp, Hborn by done. done.
      * eapply Forall_impl; [exact Hall |]. intros b1 (Ha1 & agg1 & Hin1 & Ho1).
        split; [done |]. exists agg1. split; [by right |].
        by rewrite Hother in Ho1.
Qed.
End BirthLoop.

(** ** [process_gods] as a whole *)

Lemma DOMAINS_NoDup : NoDup DOMAINS.
Proof. apply (bool_decide_unpack _). by vm_compute. Qed.

Lemma DOMAINS_complete (d : Domain) : d ∈ DOMAINS.
Proof. apply list_elem_of_In. destruct d; simpl; tauto. Qed.

Lemma aggregate_beliefs_domains (cs : list CitizenRow.t) :
  map fst (aggregate_beliefs cs) = DOMAINS.
Proof. done. Qed.

Lemma aggregate_beliefs_elem (cs : list CitizenRow.t) (d : Domain) agg :
  (d, agg) ∈ aggregate_beliefs cs <-> agg = aggregate_domain cs d.
Proof.
  unfold aggregate_beliefs. rewrite list_elem_of_In, in_map_iff. split.
  - intros (d' & [= -> <-] & _). done.
  - intros ->. exists d. split; [done |]. apply list_elem_of_In, DOMAINS_complete.
Qed.

Lemma agg_lookup_aggregate (cs : list CitizenRow.t) (d : Domain) :
  agg_lookup (aggregate_beliefs cs) d = aggregate_domain cs d.
Proof. by destruct d. Qed.

Lemma god_after_aggregate (cs : list CitizenRow.t) (cur : Z) (g : GodRow.t) :
  god_after (aggregate_beliefs cs) cur g
  = (update_existing_god (aggregate_domain cs (GodRow.domain g)) cur g).1.
Proof. unfold god_after. by rewrite agg_lookup_aggregate. Qed.

Lemma god_fades_aggregate (cs : list CitizenRow.t) (cur : Z) (g : GodRow.t) :
  god_fades (aggregate_beliefs cs) cur g
  = (update_existing_god (aggregate_domain cs (GodRow.domain g)) cur g).2.
Proof. unfold god_fades. by rewrite agg_lookup_aggregate. Qed.

Section ProcessGods.
Context {G : Type} `{RandomGen G}.

Lemma table_after_ids cs cur (table : list GodRow.t) :
  map GodRow.id (table_after cs cur table) = map GodRow.id table.
Proof.
  unfold table_after. rewrite List.map_map. apply map_ext.
  intros r. destruct (GodRow.alive r); [apply god_after_id | done].
Qed.

Lemma table_after_wf cs cur (table : list GodRow.t) :
  gods_wf table -> gods_wf (table_after cs cur table).
Proof.
  intros [Hsome Hnd]. split; [| by rewrite table_after_ids].
  unfold table_after. apply Forall_forall. intros r' Hr'.
  apply list_elem_of_In, in_map_iff in Hr' as (r & <- & Hr).
  apply list_elem_of_In in Hr.
  rewrite Forall_forall in Hsome. specialize (Hsome r Hr).
  destruct (GodRow.alive r); [by rewrite god_after_id | done].
Qed.

Lemma process_gods_spec cs cur (d0 : Database) (g : G) (gs : GodSystem) :
  gods_wf (gods d0) ->
  exists (nb : list GodRow.t) (g' : G) (proto' : gmap Domain Z),
    process_gods cs cur d0 g gs
    = (nb,
       map (god_after (aggregate_beliefs cs) cur)
         (List.filter (god_fades (aggregate_beliefs cs) cur)
            (List.filter GodRow.alive (gods d0))),
       set_gods d0 (table_after cs cur (gods d0) ++ nb), g',
       {| _proto_god_days := proto' |}) /\
    (forall d,
       let o := birth_outcome (living_after cs cur (gods d0))
                  (_proto_god_days gs) d (aggregate_domain cs d) in
       proto' !!! d = o.1 /\
       (o.2 = true ->
        exists b, b ∈ nb /\ GodRow.domain b = d /\ GodRow.alive b = true /\
                  GodRow.birth_day b = cur /\ GodRow.death_day b = None)) /\
    Forall (fun b =>
              GodRow.alive b = true /\
              (birth_outcome (living_after cs cur (gods d0))
                 (_proto_god_days gs) (GodRow.domain b)
                 (aggregate_domain cs (GodRow.domain b))).2 = true) nb /\
    gods_wf (table_after cs cur (gods d0) ++ nb) /\
    NoDup (map GodRow.domain nb).
Proof.
  intros Hwf. pose proof Hwf as [Hsome Hnd].
  unfold process_gods, get_all_gods.
  rewrite fade_loop_lists.
  2:{ apply Forall_forall. intros r Hr.
      apply list_elem_of_In, filter_In in Hr as [Hr _].
      rewrite Forall_forall in Hsome. apply Hsome. by apply list_elem_of_In. }
  pose proof (update_fold_map GodRow.id (god_after (aggregate_beliefs cs) cur)
                GodRow.alive (gods d0) []
                (god_after_id (aggregate_beliefs cs) cur)) as Hmap.
  simpl in Hmap. rewrite Hmap by done. clear Hmap.
  fold (table_after cs cur (gods d0)). cbn [app].
  fold (living_after cs cur (gods d0)).
  destruct (birth_loop_spec (living_after cs cur (gods d0)) cur
              (aggregate_beliefs cs)
              ltac:(rewrite aggregate_beliefs_domains; apply DOMAINS_NoDup)
              (set_gods d0 (table_after cs cur (gods d0))) g
              (_proto_god_days gs) [])
    as (nb & g' & proto' & Hfold & _ & Hin & Hall & Hwf' & Hdom).
  rewrite Hfold. cbn [app gods set_gods].
  exists nb, g', proto'.
  split; [by destruct d0 |]. split; [| split; [| split; [| done]]].
  - intros d. cbn zeta.
    apply (Hin d (aggregate_domain cs d)). by apply aggregate_beliefs_elem.
  - eapply Forall_impl; [exact Hall |].
    intros b (Ha & agg & Hagg & Ho). split; [done |].
    apply aggregate_beliefs_elem in Hagg. by subst agg.
  - apply Hwf'. cbn [gods set_gods]. by apply table_after_wf.
Qed.
End ProcessGods.

(** ** Pantheon exclusivity through [process_gods] *)

Lemma living_gods_nil (table : list GodRow.t) (d : Domain) :
  living_gods table d = []
  <-> d ∉ map GodRow.domain (List.filter GodRow.alive table).
Proof.
  unfold living_gods. split.
  - intros Hnil Hin.
    apply list_elem_of_In, in_map_iff in Hin as (r & Hd & Hr).
    apply filter_In in Hr as [Hr Ha].
    assert (Hx : In r (List.filter
              (fun g => GodRow.alive g && bool_decide (GodRow.domain g = d)) table)).
    { apply filter_In. split; [done |]. rewrite Ha. by apply bool_decide_eq_true. }
    by rewrite Hnil in Hx.
  - intros Hnot.
    destruct (List.filter
                (fun g => GodRow.alive g && bool_decide (GodRow.domain g = d))
                table) as [| x rest] eqn:Hf; [done |].
    exfalso. apply Hnot.
    assert (Hx : In x (List.filter
              (fun g => GodRow.alive g && bool_decide (GodRow.domain g = d)) table))
      by (rewrite Hf; by left).
    apply filter_In in Hx as [Hx Hp]. apply andb_true_iff in Hp as [Hxa Hxd].
    apply bool_decide_eq_true in Hxd. rewrite <- Hxd.
    apply list_elem_of_In, in_map, filter_In. done.
Qed.

Lemma living_gods_cons (r : GodRow.t) (table : list GodRow.t) (d : Domain) :
  living_gods (r :: table) d
  = if GodRow.alive r && bool_decide (GodRow.domain r = d)
    then r :: living_gods table d else living_gods table d.
Proof. done. Qed.

Lemma alive_domains_exclusive (table : list GodRow.t) :
  NoDup (map GodRow.domain (List.filter GodRow.alive table)) ->
  pantheon_exclusive table.
Proof.
  intros Hnd d.
  induction table as [| r table IH]; [simpl; lia |].
  rewrite living_gods_cons. cbn [List.filter] in Hnd.
  destruct (GodRow.alive r) eqn:Ha; cbn [andb]; [| by apply IH].
  cbn [map] in Hnd. apply NoDup_cons in Hnd as [Hr Hnd]. specialize (IH Hnd).
  case_bool_decide as Hd; [| done].
  subst d. apply living_gods_nil in Hr. rewrite Hr. simpl. lia.
Qed.

Section Exclusivity.
Context {G : Type} `{RandomGen G}.

Lemma alive_after_filter cs cur (table : list GodRow.t) :
  List.filter GodRow.alive (table_after cs cur table)
  = List.filter GodRow.alive
      (map (god_after (aggregate_beliefs cs) cur) (List.filter GodRow.alive table)).
Proof.
  unfold table_after. induction table as [| r table IH]; simpl; [done |].
  destruct (GodRow.alive r) eqn:Ha; simpl.
  - by rewrite IH.
  - by rewrite Ha.
Qed.

Lemma alive_after_sublist cs cur (table : list GodRow.t) :
  sublist (map GodRow.domain (List.filter GodRow.alive (table_after cs cur table)))
          (map GodRow.domain (List.filter GodRow.alive table)).
Proof.
  unfold table_after. induction table as [| r table IH]; simpl; [constructor |].
  destruct (GodRow.alive r) eqn:Ha; simpl.
  - destruct (GodRow.alive (god_after _ cur r)) eqn:Ha'; simpl.
    + rewrite god_after_domain. by constructor.
    + by constructor.
  - by rewrite Ha.
Qed.

Lemma elem_living_after cs cur (table : list GodRow.t) (d : Domain) :
  d ∈ living_after cs cur table
  <-> d ∈ map GodRow.domain (List.filter GodRow.alive (table_after cs cur table)).
Proof.
  unfold living_after. rewrite elem_of_list_to_set. by rewrite alive_after_filter.
Qed.

(** One call of [process_gods] keeps the table well formed and keeps the
    living gods in pairwise distinct domains, whatever the population. *)
Lemma process_gods_exclusive cs cur (d0 : Database) (g : G) (gs : GodSystem) :
  gods_wf (gods d0) ->
  NoDup (map GodRow.domain (List.filter GodRow.alive (gods d0))) ->
  gods_wf (gods (process_gods cs cur d0 g gs).1.1.2) /\
  NoDup (map GodRow.domain
           (List.filter GodRow.alive (gods (process_gods cs cur d0 g gs).1.1.2))).
Proof.
  intros Hwf Hnd.
  destruct (process_gods_spec cs cur d0 g gs Hwf)
    as (nb & g' & proto' & -> & _ & Hall & Hwf' & Hdom).
  cbn [fst snd gods set_gods]. split; [done |].
  rewrite List.filter_app, List.map_app.
  assert (Hnb : List.filter GodRow.alive nb = nb).
  { apply forallb_filter_id, forallb_forall. intros b Hb.
    rewrite Forall_forall in Hall.
    by destruct (Hall b ltac:(by apply list_elem_of_In)) as [-> _]. }
  rewrite Hnb. apply NoDup_app. split; [| split; [| done]].
  - eapply sublist_NoDup; [exact Hnd | apply alive_after_sublist].
  - intros d Hd Hd'.
    apply list_elem_of_In, in_map_iff in Hd' as (b & <- & Hb).
    rewrite Forall_forall in Hall.
    destruct (Hall b ltac:(by apply list_elem_of_In)) as [_ Ho].
    apply birth_outcome_born in Ho as (_ & Hnot & _).
    apply Hnot. by apply elem_living_after.
Qed.
End Exclusivity.

(** ** Exclusivity at every instant of a tick *)

Lemma map_sublist {A B : Type} (f : A -> B) (l1 l2 : list A) :
  sublist l1 l2 -> sublist (map f l1) (map f l2).
Proof. induction 1; simpl; by constructor. Qed.

Lemma filter_sublist {A : Type} (P : A -> bool) (l : list A) :
  sublist (List.filter P l) l.
Proof.
  induction l as [| x l IH]; simpl; [constructor |].
  destruct (P x); by constructor.
Qed.

Lemma sublist_Forall {A : Type} (P : A -> Prop) (l1 l2 : list A) :
  Forall P l2 -> sublist l1 l2 -> Forall P l1.
Proof.
  intros Hall Hsub. apply Forall_forall. intros x Hx.
  rewrite Forall_forall in Hall. apply Hall.
  eapply elem_of_sublist; [exact Hx | exact Hsub].
Qed.

Lemma exclusive_alive_domains (table : list GodRow.t) :
  pantheon_exclusive table ->
  NoDup (map GodRow.domain (List.filter GodRow.alive table)).
Proof.
  induction table as [| r table IH]; intros Hex; simpl; [constructor |].
  assert (Hrest : pantheon_exclusive table).
  { intros d. specialize (Hex d). rewrite living_gods_cons in Hex.
    destruct (_ && _); simpl in Hex; lia. }
  destruct (GodRow.alive r) eqn:Ha; [| by apply IH].
  simpl. apply NoDup_cons. split; [| by apply IH].
  apply living_gods_nil. specialize (Hex (GodRow.domain r)).
  rewrite living_gods_cons, Ha, bool_decide_eq_true_2 in Hex by done.
  simpl in Hex. apply length_zero_iff_nil. lia.
Qed.

(** One [UPDATE] of a living god by the row the first loop computes. *)
Lemma update_one_row (table : list GodRow.t) (g g' : GodRow.t) :
  NoDup (map GodRow.id table) -> g ∈ table -> GodRow.id g' = GodRow.id g ->
  exists pre post,
    table = pre ++ g :: post /\
    update_where_id GodRow.id g' table = pre ++ g' :: post.
Proof.
  intros Hnd Hin Hid.
  apply list_elem_of_split in Hin as (pre & post & ->).
  exists pre, post. split; [done |].
  rewrite List.map_app in Hnd. simpl in Hnd.
  apply NoDup_app in Hnd as (_ & Hdisj & Htail).
  apply NoDup_cons in Htail as [Hg _].
  rewrite update_where_id_app, update_where_id_cons.
  rewrite bool_decide_eq_true_2 by done.
  rewrite !update_where_id_fresh; [done | |].
  - by rewrite Hid.
  - rewrite Hid. intros Hin. apply (Hdisj _ Hin). by left.
Qed.

Lemma fold_update_exclusive aggs cur (l : list GodRow.t) :
  forall table : list GodRow.t,
  gods_wf table ->
  NoDup (map GodRow.domain (List.filter GodRow.alive table)) ->
  Forall (fun g => g ∈ table /\ GodRow.alive g = true) l ->
  NoDup (map GodRow.id l) ->
  let table' :=
    fold_left (fun t g => update_where_id GodRow.id (god_after aggs cur g) t)
      l table in
  gods_wf table' /\
  NoDup (map GodRow.domain (List.filter GodRow.alive table')).
Proof.
  induction l as [| g l IH]; intros table Hwf Hdom Hl Hids; [done |].
  cbn zeta. cbn [fold_left].
  apply Forall_cons in Hl as [[Hg Ha] Hl].
  cbn [map] in Hids. apply NoDup_cons in Hids as [Hgid Hids].
  destruct Hwf as [Hsome Hnd].
  destruct (update_one_row table g (god_after aggs cur g) Hnd Hg
              (god_after_id aggs cur g)) as (pre & post & -> & ->).
  apply IH; [split | | | done].
  - apply Forall_app in Hsome as [Hpre Hpost].
    apply Forall_cons in Hpost as [Hgsome Hpost].
    apply Forall_app. split; [done |]. constructor; [| done].
    by rewrite god_after_id.
  - rewrite List.map_app in *. cbn [map] in *. by rewrite god_after_id.
  - rewrite List.filter_app, List.map_app in *. cbn [List.filter] in *.
    rewrite Ha in Hdom. cbn [map] in Hdom.
    destruct (GodRow.alive (god_after aggs cur g)); cbn [map].
    + by rewrite god_after_domain.
    + eapply sublist_NoDup; [exact Hdom |].
      apply sublist_app; [done | by constructor].
  - apply Forall_forall. intros x Hx.
    rewrite Forall_forall in Hl. destruct (Hl x Hx) as [Hxin Hxa].
    split; [| done].
    apply elem_of_app in Hxin as [Hxin | Hxin]; [apply elem_of_app; by left |].
    apply elem_of_cons in Hxin as [-> | Hxin].
    + exfalso. apply Hgid. by apply list_elem_of_In, in_map, list_elem_of_In.
    + apply elem_of_app. right. by right.
Qed.

Section Instants.
Context {G : Type} `{RandomGen G}.

(** After any number of iterations of the first loop. *)
Lemma first_loop_exclusive cs cur (d0 : Database) (k : nat) :
  gods_wf (gods d0) ->
  NoDup (map GodRow.domain (List.filter GodRow.alive (gods d0))) ->
  let r := fold_left (fade_step (aggregate_beliefs cs) cur)
             (firstn k (get_all_gods d0 true)) (d0, [], []) in
  gods_wf (gods r.1.1) /\
  NoDup (map GodRow.domain (List.filter GodRow.alive (gods r.1.1))).
Proof.
  intros Hwf Hdom. cbn zeta. unfold get_all_gods.
  pose proof Hwf as [Hsome Hnd].
  assert (Hsub : sublist (firstn k (List.filter GodRow.alive (gods d0))) (gods d0)).
  { etrans; [apply sublist_take | apply filter_sublist]. }
  rewrite fade_loop_lists.
  2:{ eapply sublist_Forall; [exact Hsome | exact Hsub]. }
  cbn [fst snd gods set_gods].
  apply fold_update_exclusive; try done.
  - apply Forall_forall. intros g Hg. split.
    + eapply elem_of_sublist; [exact Hg | exact Hsub].
    + assert (Hg' : g ∈ List.filter GodRow.alive (gods d0))
        by (eapply elem_of_sublist; [exact Hg | apply sublist_take]).
      by apply list_elem_of_In, filter_In in Hg' as [_ Hg'].
  - eapply sublist_NoDup; [exact Hnd |]. by apply map_sublist.
Qed.

(** After any number of iterations of the second loop. *)
Lemma second_loop_exclusive cs cur (d0 : Database) (g : G)
  (proto : gmap Domain Z) (l : list (Domain * BeliefAggregation)) :
  gods_wf (gods d0) ->
  NoDup (map GodRow.domain (List.filter GodRow.alive (gods d0))) ->
  NoDup (map fst l) ->
  let r := fold_left (birth_step (living_after cs cur (gods d0)) cur) l
             (set_gods d0 (table_after cs cur (gods d0)), g, proto, []) in
  NoDup (map GodRow.domain (List.filter GodRow.alive (gods r.1.1.1))).
Proof.
  intros Hwf Hdom Hl. cbn zeta.
  destruct (birth_loop_spec (living_after cs cur (gods d0)) cur l Hl
              (set_gods d0 (table_after cs cur (gods d0))) g proto [])
    as (nb & g' & proto' & -> & _ & _ & Hall & _ & Hnb).
  cbn [fst snd gods set_gods].
  rewrite List.filter_app, List.map_app.
  assert (Hfilter : List.filter GodRow.alive nb = nb).
  { apply forallb_filter_id, forallb_forall. intros b Hb.
    rewrite Forall_forall in Hall.
    by destruct (Hall b ltac:(by apply list_elem_of_In)) as [-> _]. }
  rewrite Hfilter. apply NoDup_app. split; [| split; [| done]].
  - eapply sublist_NoDup; [exact Hdom | apply alive_after_sublist].
  - intros d Hd Hd'.
    apply list_elem_of_In, in_map_iff in Hd' as (b & <- & Hb).
    rewrite Forall_forall in Hall.
    destruct (Hall b ltac:(by apply list_elem_of_In)) as (_ & agg & _ & Ho).
    apply birth_outcome_born in Ho as (_ & Hnot & _).
    apply Hnot. by apply elem_living_after.
Qed.

(** Every table a call of [process_gods] passes through is exclusive, and
    the last one is the table the call leaves. *)
Lemma process_gods_tables_exclusive cs cur (d0 : Database) (g : G)
  (gs : GodSystem) :
  gods_wf (gods d0) ->
  NoDup (map GodRow.domain (List.filter GodRow.alive (gods d0))) ->
  Forall pantheon_exclusive (process_gods_tables cs cur d0 g gs) /\
  last (process_gods_tables cs cur d0 g gs)
  = Some (gods (process_gods cs cur d0 g gs).1.1.2).
Proof.
  intros Hwf Hdom. pose proof Hwf as [Hsome Hnd].
  unfold process_gods_tables, process_gods, get_all_gods.
  rewrite firstn_all.
  assert (Hex : Forall (fun g0 => is_Some (GodRow.id g0))
                  (List.filter GodRow.alive (gods d0))).
  { eapply sublist_Forall; [exact Hsome | apply filter_sublist]. }
  rewrite (fade_loop_lists _ _ (List.filter GodRow.alive (gods d0))) by done.
  pose proof (update_fold_map GodRow.id (god_after (aggregate_beliefs cs) cur)
                GodRow.alive (gods d0) []
                (god_after_id (aggregate_beliefs cs) cur)) as Hmap.
  simpl in Hmap. rewrite Hmap by done. clear Hmap.
  fold (table_after cs cur (gods d0)). cbn [app].
  fold (living_after cs cur (gods d0)).
  split.
  - apply Forall_app. split.
    + apply Forall_forall. intros table Htable.
      apply list_elem_of_In, in_map_iff in Htable as (k & <- & _).
      apply alive_domains_exclusive.
      by apply (first_loop_exclusive cs cur d0 k).
    + apply Forall_forall. intros table Htable.
      apply list_elem_of_In, in_map_iff in Htable as (k & <- & _).
      apply alive_domains_exclusive.
      apply (second_loop_exclusive cs cur d0 g (_proto_god_days gs)); try done.
      eapply sublist_NoDup; [apply DOMAINS_NoDup |].
      rewrite <- (aggregate_beliefs_domains cs).
      apply map_sublist, sublist_take.
  - change (length (aggregate_beliefs cs)) with 6%nat.
    cbn [seq map]. rewrite last_app. cbn [last].
    change (firstn 6 (aggregate_beliefs cs)) with (aggregate_beliefs cs).
    by destruct (fold_left (birth_step _ cur) (aggregate_beliefs cs) _)
      as [[[d2 g2] proto] born].
Qed.
End Instants.

(** ** Genesis and restoration *)

Lemma save_citizen_row_in_range (d : Database) (c : CitizenRow.t) :
  citizen_in_range c -> citizen_in_range (save_citizen d c).2.
Proof. intros Hc. unfold save_citizen. by destruct (CitizenRow.id c). Qed.

Lemma save_faction_frame (d d' : Database) (f f' : FactionRow.t) :
  save_faction d f = inr (d', f') ->
  gods d' = gods d /\ citizens d' = citizens d.
Proof.
  unfold save_faction. destruct (FactionRow.id f).
  - case_bool_decide; [done |]. by intros [= <- <-].
  - case_bool_decide; [done |]. by intros [= <- <-].
Qed.

Section Genesis.
Context {G : Type} `{RandomGen G}.

Lemma create_citizens_spec (n : nat) (fid : option Z) (d : Database) (g : G)
  (cs : list CitizenRow.t) :
  exists new,
    (create_citizens n fid (d, g, cs)).2 = cs ++ new /\
    length new = n /\
    Forall generated_citizen new /\
    gods (create_citizens n fid (d, g, cs)).1.1 = gods d /\
    (Forall citizen_in_range (citizens d) ->
     Forall citizen_in_range (citizens (create_citizens n fid (d, g, cs)).1.1)).
Proof.
  revert d g cs. induction n as [| n IH]; intros d g cs.
  - exists []. simpl. by rewrite app_nil_r.
  - cbn [create_citizens].
    pose proof (Citizen_generate_in_range fid g) as Hrange.
    pose proof (Citizen_generate_alive fid g) as Halive.
    destruct (Citizen_generate fid g) as [c g1]. cbn [fst] in *.
    pose proof (save_citizen_gods d c) as Hgods.
    pose proof (save_citizen_alive d c) as Ha.
    pose proof (save_citizen_has_id d c) as Hid.
    pose proof (save_citizen_row_in_range d c Hrange) as Hrow.
    pose proof (save_citizen_in_range d c Hrange) as Hr.
    destruct (save_citizen d c) as [d1 c1]. cbn [fst snd] in *.
    destruct (IH d1 g1 (cs ++ [c1])) as (new & Hcs & Hlen & Hall & Hg & Hdb).
    exists (c1 :: new). rewrite Hcs, Hg, <- app_assoc. simpl.
    split; [done |]. split; [by rewrite Hlen |].
    split; [| split; [done |]].
    + constructor; [| done]. split; [done |]. split; [congruence | done].
    + intros Hd. apply Hdb. by apply Hr.
Qed.

Lemma create_factions_spec (n : nat) (d : Database) (g : G)
  (fs : list FactionRow.t) (cs : list CitizenRow.t) d' g' fs' cs' :
  create_factions n (d, g, fs, cs) = inr (d', g', fs', cs') ->
  exists new,
    cs' = cs ++ new /\
    length new = (n * INITIAL_CITIZENS_PER_FACTION)%nat /\
    Forall generated_citizen new /\
    length fs' = (length fs + n)%nat /\
    gods d' = gods d /\
    (Forall citizen_in_range (citizens d) -> Forall citizen_in_range (citizens d')).
Proof.
  revert d g fs cs. induction n as [| n IH]; intros d g fs cs.
  - intros [= <- <- <- <-]. exists []. rewrite app_nil_r, Nat.add_0_r. by simpl.
  - cbn [create_factions].
    destruct (Faction_generate g) as [faction g1].
    destruct (save_faction d faction) as [exn | [d1 faction1]] eqn:Hsave; [done |].
    apply save_faction_frame in Hsave as [Hg1 Hc1].
    destruct (create_citizens_spec INITIAL_CITIZENS_PER_FACTION
                (FactionRow.id faction1) d1 g1 cs)
      as (new1 & Hcs1 & Hlen1 & Hall1 & Hgods1 & Hdb1).
    destruct (create_citizens INITIAL_CITIZENS_PER_FACTION
                (FactionRow.id faction1) (d1, g1, cs)) as [[d2 g2] cs2].
    cbn [fst snd] in *. intros Hrest.
    destruct (IH _ _ _ _ Hrest) as (new & -> & Hlen & Hall & Hfs & Hgods & Hdb).
    exists (new1 ++ new). subst cs2. rewrite <- app_assoc.
    split; [done |]. split; [rewrite length_app; lia |].
    split; [by apply Forall_app |].
    split; [rewrite Hfs, length_app; simpl; lia |].
    split; [congruence |].
    intros Hd. apply Hdb, Hdb1. by rewrite Hc1.
Qed.

Lemma _create_new_world_spec (e e' : SimulationEngine G) :
  _create_new_world e = inr e' ->
  exists new,
    _citizens e' = _citizens e ++ new /\
    length new = (INITIAL_FACTIONS * INITIAL_CITIZENS_PER_FACTION
                  + UNAFFILIATED_CITIZENS)%nat /\
    Forall generated_citizen new /\
    length (_factions e') = (length (_factions e) + INITIAL_FACTIONS)%nat /\
    gods (db e') = gods (db e) /\
    (Forall citizen_in_range (citizens (db e)) ->
     Forall citizen_in_range (citizens (db e'))).
Proof.
  unfold _create_new_world.
  destruct (AgeManager_new (rng e)) as [am g1].
  destruct (create_factions INITIAL_FACTIONS (db e, g1, _factions e, _citizens e))
    as [exn | [[[d2 g2] fs] cs]] eqn:Hfactions; [done |].
  apply create_factions_spec in Hfactions
    as (new1 & -> & Hlen1 & Hall1 & Hfs & Hgods1 & Hdb1).
  destruct (create_citizens_spec UNAFFILIATED_CITIZENS None d2 g2
              (_citizens e ++ new1))
    as (new2 & Hcs2 & Hlen2 & Hall2 & Hgods2 & Hdb2).
  destruct (create_citizens UNAFFILIATED_CITIZENS None
              (d2, g2, _citizens e ++ new1)) as [[d3 g3] cs3].
  cbn [fst snd] in *. intros [= <-]. cbn [_citizens _factions db].
  exists (new1 ++ new2). subst cs3. rewrite <- app_assoc.
  split; [done |]. split; [rewrite length_app; lia |].
  split; [by apply Forall_app |]. split; [done |].
  split; [cbn [gods save_world_state]; congruence |].
  intros Hd. cbn [citizens save_world_state]. by apply Hdb2, Hdb1.
Qed.

(** A fresh initialisation ignores what the database held: the table of
    gods is empty and the population is the generated one. *)
Lemma initialize_fresh_spec (d0 : Database) (sd : Z) (nar : option Narrator)
  (e : SimulationEngine G) :
  initialize (SimulationEngine_init d0 sd nar) true = inr e ->
  length (_citizens e) = 29%nat /\
  Forall generated_citizen (_citizens e) /\
  length (_factions e) = 3%nat /\
  gods (db e) = [] /\
  Forall citizen_in_range (citizens (db e)) /\
  narrator e = nar /\
  god_system e = Some GodSystem_init /\
  is_Some (age_manager e).
Proof.
  unfold initialize. cbn [db SimulationEngine_init set_db clear_all
                            get_world_state world_state].
  destruct (_create_new_world _) as [exn | e1] eqn:Hworld; [done |].
  intros [= <-].
  pose proof Hworld as Hworld'.
  apply _create_new_world_spec in Hworld
    as (new & Hcs & Hlen & Hall & Hfs & Hgods & Hdb).
  cbn [_citizens _factions db gods citizens set_god_system app length god_system
         narrator age_manager] in *.
  rewrite Hcs. repeat split; try done.
  - by apply Hdb.
  - unfold _create_new_world in Hworld'.
    destruct (AgeManager_new _) as [am g1].
    destruct (create_factions _ _) as [? | [[[? ?] ?] ?]]; [done |].
    destruct (create_citizens _ _ _) as [[? ?] ?]. by injection Hworld' as <-.
  - unfold _create_new_world in Hworld'.
    destruct (AgeManager_new _) as [am g1].
    destruct (create_factions _ _) as [? | [[[? ?] ?] ?]]; [done |].
    destruct (create_citizens _ _ _) as [[? ?] ?]. injection Hworld' as <-.
    by eexists.
Qed.
End Genesis.

(** ** One tick *)

Section TickFacts.
Context {G : Type} `{RandomGen G}.

Lemma filter_alive_in_range (cs : list CitizenRow.t) :
  Forall citizen_in_range cs ->
  Forall citizen_in_range (List.filter CitizenRow.alive cs).
Proof.
  intros Hcs. apply Forall_forall. intros c Hc.
  apply list_elem_of_In, filter_In in Hc as [Hc _].
  rewrite Forall_forall in Hcs. apply Hcs. by apply list_elem_of_In.
Qed.

Lemma initialize_restore_spec (d : Database) (sd : Z) (nar : option Narrator)
  (e : SimulationEngine G) :
  initialize (SimulationEngine_init d sd nar) false = inr e ->
  gods (db e) = gods d /\
  (Forall citizen_in_range (citizens d) ->
   Forall citizen_in_range (_citizens e) /\
   Forall citizen_in_range (citizens (db e))).
Proof.
  unfold initialize, get_world_state. cbn [db SimulationEngine_init].
  destruct (world_state d) as [state |].
  - unfold _restore_world. cbn [db _citizens _factions narrator god_system].
    match goal with
    | |- context [AgeManager_from_state ?a ?b] =>
        destruct (AgeManager_from_state a b) as [am |]; [| done]
    end.
    intros [= <-]. cbn [db _citizens set_god_system app].
    split; [done |]. intros Hd. split; [| done].
    unfold get_all_citizens. by apply filter_alive_in_range.
  - destruct (_create_new_world _) as [exn | e1] eqn:Hworld; [done |].
    intros [= <-].
    apply _create_new_world_spec in Hworld
      as (new & Hcs & _ & Hall & _ & Hgods & Hdb).
    cbn [_citizens db set_god_system app] in *.
    split; [done |]. intros Hd. split; [| by apply Hdb].
    rewrite Hcs. eapply Forall_impl; [exact Hall |]. by intros c [? _].
Qed.

Lemma tick_kernel_inv (e : SimulationEngine G) :
  kernel_inv e -> kernel_inv (tick e).2.
Proof.
  intros (Hwf & Hnd & Hcs & Hdb). unfold kernel_inv, tick.
  destruct (age_manager e) as [am |]; [| done].
  destruct (AgeManager_tick am (rng e)) as [[transition am1] g1].
  destruct (god_system e) as [gs |]; [| done].
  destruct (generate_event _ _ g1) as [ev g2].
  set (stage := match ev with Some _ => _ | None => _ end).
  assert (Hstage : gods stage.1.2 = gods (db e) /\
                   citizens stage.1.2 = citizens (db e) /\
                   Forall citizen_in_range stage.1.1.1).
  { subst stage. destruct ev as [ev |]; [| done].
    pose proof (_apply_event_in_range ev (AgeManager_traits am1) (_factions e)
                  (_citizens e) g2 Hcs) as Hrange.
    destruct (_apply_event ev _ _ _ g2) as [cs ga].
    pose proof (_create_myths_frame ev (current_day e + 1) (_factions e)
                  (db e) ga) as [Hg Hc].
    by destruct (_create_myths ev _ _ _ ga) as [[ms da] gb]. }
  destruct stage as [[[citizens1 myths1] d1] g3].
  cbn [fst snd] in Hstage. destruct Hstage as (Hg1 & Hc1 & Hrange1).
  rewrite <- Hg1 in Hwf, Hnd.
  pose proof (process_gods_exclusive citizens1 (current_day e + 1) d1 g3 gs
                Hwf Hnd) as [Hwf2 Hnd2].
  pose proof (process_gods_citizens citizens1 (current_day e + 1) d1 g3 gs) as Hc2.
  destruct (process_gods citizens1 _ d1 g3 gs) as [[[[born faded] d2] g4] gs1].
  cbn [fst snd] in *.
  pose proof (save_citizens_gods d2 citizens1) as Hg3.
  pose proof (save_citizens_in_range d2 citizens1 Hrange1
                ltac:(by rewrite Hc2, Hc1)) as [Hrange3 Hdb3].
  destruct (save_citizens d2 citizens1) as [d3 citizens2].
  cbn [fst snd] in *.
  assert (Hgoal : kernel_inv
            {| db := save_world_state d3
                       (world_state_row (current_day e + 1) am1 (seed e));
               seed := seed e; rng := g4; narrator := narrator e;
               age_manager := Some am1; god_system := Some gs1;
               current_day := current_day e + 1; _factions := _factions e;
               _citizens := citizens2 |}).
  { unfold kernel_inv. cbn [db _citizens gods citizens save_world_state].
    by rewrite Hg3. }
  destruct (narrator e) as [nar |]; [destruct (nar _) |]; exact Hgoal.
Qed.

Lemma reachable_kernel_inv (e : SimulationEngine G) :
  reachable e -> kernel_inv e.
Proof.
  induction 1 as [d0 sd nar e Hinit | e _ IH | e e' sd nar _ IH Hinit
                  | e d level _ IH Hlevel].
  - apply initialize_fresh_spec in Hinit
      as (_ & Hall & _ & Hgods & Hdb & _).
    unfold kernel_inv. rewrite Hgods. repeat split; try done; try constructor.
    eapply Forall_impl; [exact Hall |]. by intros c [? _].
  - by apply tick_kernel_inv.
  - destruct IH as (Hwf & Hnd & Hcs & Hdb).
    apply initialize_restore_spec in Hinit as [Hgods Hrange].
    unfold kernel_inv. rewrite Hgods. destruct (Hrange Hdb). done.
  - destruct IH as (Hwf & Hnd & Hcs & Hdb).
    unfold kernel_inv. cbn [db _citizens set_population].
    split; [done |]. split; [done |]. split; [| done].
    by apply force_belief_in_range.
Qed.
End TickFacts.

(** The concrete kernel: genesis with seed 12345 succeeds. *)
Lemma genesis_12345_succeeds :
  initialize (SimulationEngine_init empty_db 12345 None) true = inr engine_12345.
Proof. vm_compute. reflexivity. Qed.

(** A first start on an empty database without the fresh flag is a
    genesis like any other. *)
Lemma reachable_first_start {G : Type} `{RandomGen G} (sd : Z)
  (nar : option Narrator) (e : SimulationEngine G) :
  initialize (SimulationEngine_init empty_db sd nar) false = inr e ->
  reachable e.
Proof. intros Hinit. by apply (reach_genesis empty_db sd nar). Qed.

Lemma engine_12345_reachable : reachable engine_12345.
Proof. eapply reach_genesis. exact genesis_12345_succeeds. Qed.

(** ** Pantheon exclusivity *)

Section PantheonExclusivity.
Context {G : Type} `{RandomGen G}.

(** The tables of gods a tick passes through are exclusive, and the last
    of them is the table the tick leaves. *)
Lemma tick_gods_tables_exclusive (e : SimulationEngine G) :
  kernel_inv e ->
  Forall pantheon_exclusive (tick_gods_tables e) /\
  last (tick_gods_tables e) = Some (gods (db (tick e).2)).
Proof.
  intros (Hwf & Hnd & Hcs & Hdb). unfold tick_gods_tables, tick.
  destruct (age_manager e) as [am |].
  2:{ split; [| done]. constructor; [| done]. by apply alive_domains_exclusive. }
  destruct (god_system e) as [gs |].
  2:{ destruct (AgeManager_tick am (rng e)) as [[transition am1] g1].
      split; [| done]. constructor; [| done]. by apply alive_domains_exclusive. }
  destruct (AgeManager_tick am (rng e)) as [[transition am1] g1].
  destruct (generate_event _ _ g1) as [ev g2].
  set (stage := match ev with Some _ => _ | None => _ end).
  assert (Hstage : gods stage.1.2 = gods (db e)).
  { subst stage. destruct ev as [ev |]; [| done].
    destruct (_apply_event ev _ _ _ g2) as [cs ga].
    pose proof (_create_myths_frame ev (current_day e + 1) (_factions e)
                  (db e) ga) as [Hg _].
    by destruct (_create_myths ev _ _ _ ga) as [[ms da] gb]. }
  destruct stage as [[[citizens1 myths1] d1] g3]. cbn [fst snd] in Hstage.
  rewrite <- Hstage in Hwf, Hnd.
  destruct (process_gods_tables_exclusive citizens1 (current_day e + 1) d1 g3 gs
              Hwf Hnd) as [Hall Hlast].
  split; [exact Hall |]. rewrite Hlast.
  destruct (process_gods citizens1 _ d1 g3 gs) as [[[[born faded] d2] g4] gs1].
  pose proof (save_citizens_gods d2 citizens1) as Hg3.
  destruct (save_citizens d2 citizens1) as [d3 citizens2].
  cbn [fst snd] in *.
  destruct (narrator e) as [nar |]; [destruct (nar _) |];
    cbn [snd db gods save_world_state]; by rewrite Hg3.
Qed.

(** C1: at every point of a run -- after a fresh initialisation, after any
    number of ticks (with beliefs forced between them or not), after a
    restart on the persisted database, and at every instant within the
    next tick, between two writes of its loops over the gods -- every
    domain has at most one living god. *)
Theorem pantheon_exclusivity (e : SimulationEngine G) :
  reachable e ->
  (forall d : Domain, (length (living_gods (gods (db e)) d) <= 1)%nat) /\
  Forall (fun table =>
            forall d : Domain, (length (living_gods table d) <= 1)%nat)
         (tick_gods_tables e).
Proof.
  intros Hreach. apply reachable_kernel_inv in Hreach.
  split.
  - destruct Hreach as (_ & Hnd & _). by apply alive_domains_exclusive.
  - by apply tick_gods_tables_exclusive.
Qed.
End PantheonExclusivity.

(** The kernel of seed 12345 with the belief in flame forced to 0.8, one
    tick later. *)
Lemma engine_12345_forced_reachable :
  reachable
    (tick (set_population engine_12345
             (force_belief_for_domain (_citizens engine_12345) flame 0.8))).2.
Proof.
  apply reach_tick, reach_force; [exact engine_12345_reachable |].
  split; vm_compute; discriminate.
Qed.

(** Exclusivity in that engine, at rest and throughout its next tick. *)
Lemma pantheon_exclusivity_witness :
  reachable
    (tick (set_population engine_12345
             (force_belief_for_domain (_citizens engine_12345) flame 0.8))).2 /\
  ((forall d : Domain,
      (length
         (living_gods
            (gods (db (tick (set_population engine_12345
                               (force_belief_for_domain
                                  (_citizens engine_12345) flame 0.8))).2)) d)
       <= 1)%nat) /\
   Forall (fun table =>
             forall d : Domain, (length (living_gods table d) <= 1)%nat)
          (tick_gods_tables
             (tick (set_population engine_12345
                      (force_belief_for_domain (_citizens engine_12345)
                         flame 0.8))).2)).
Proof.
  split; [exact engine_12345_forced_reachable |].
  exact (pantheon_exclusivity _ engine_12345_forced_reachable).
Defined.

(** ** Belief and emotion clamp *)

Section Clamp.
Context {G : Type} `{RandomGen G}.

(** C3: a belief update leaves the updated belief in [0,1] whatever the
    delta and the bias, an emotion update leaves fear and gratitude in
    [0,1] whatever the deltas, both keep a citizen whose values are in
    range in range, and so every citizen of every engine of a run has all
    its belief values, its fear and its gratitude in [0,1]. *)
Theorem belief_emotion_clamp :
  (forall (c : CitizenRow.t) (d : Domain) (delta bias : Q),
     in_unit (get_belief (update_belief c d delta bias) d) /\
     (citizen_in_range c -> citizen_in_range (update_belief c d delta bias))) /\
  (forall (c : CitizenRow.t) (fear_delta gratitude_delta : Q),
     in_unit (CitizenRow.fear (update_emotion c fear_delta gratitude_delta)) /\
     in_unit (CitizenRow.gratitude (update_emotion c fear_delta gratitude_delta)) /\
     (citizen_in_range c ->
      citizen_in_range (update_emotion c fear_delta gratitude_delta))) /\
  (forall e : SimulationEngine G,
     reachable e ->
     Forall (fun c => (forall d, in_unit (get_belief c d)) /\
                      in_unit (CitizenRow.fear c) /\
                      in_unit (CitizenRow.gratitude c))
            (_citizens e)).
Proof.
  split; [| split].
  - intros c d delta bias. split.
    + rewrite get_belief_update_same. apply clamp01_unit.
    + apply update_belief_in_range.
  - intros c fd gd. split; [apply clamp01_unit |].
    split; [apply clamp01_unit | apply update_emotion_in_range].
  - intros e Hreach. by apply reachable_kernel_inv in Hreach as (_ & _ & Hcs & _).
Qed.
End Clamp.

(** The ranges in the kernel of seed 12345 after two ticks. *)
Lemma belief_emotion_clamp_witness :
  reachable (tick (tick engine_12345).2).2 /\
  Forall (fun c => (forall d, in_unit (get_belief c d)) /\
                   in_unit (CitizenRow.fear c) /\
                   in_unit (CitizenRow.gratitude c))
         (_citizens (tick (tick engine_12345).2).2).
Proof.
  assert (Hreach : reachable (tick (tick engine_12345).2).2)
    by (do 2 apply reach_tick; exact engine_12345_reachable).
  split; [exact Hreach |].
  exact (proj2 (proj2 belief_emotion_clamp) _ Hreach).
Defined.

(** ** The population of a run *)

Lemma identity_has_id (cs cs' : list CitizenRow.t) :
  map citizen_identity cs' = map citizen_identity cs ->
  Forall (fun c => is_Some (CitizenRow.id c)) cs ->
  Forall (fun c => is_Some (CitizenRow.id c)) cs'.
Proof.
  revert cs'. induction cs as [| c cs IH]; intros [| c' cs']; simpl; try done.
  intros [= Hid _ _ _ Hrest] Hall. apply Forall_cons in Hall as [Hc Hcs].
  constructor; [by rewrite Hid | by apply IH].
Qed.

Lemma identity_alive (cs cs' : list CitizenRow.t) :
  map citizen_identity cs' = map citizen_identity cs ->
  Forall (fun c => CitizenRow.alive c = true) cs ->
  Forall (fun c => CitizenRow.alive c = true) cs'.
Proof.
  revert cs'. induction cs as [| c cs IH]; intros [| c' cs']; simpl; try done.
  intros [= _ _ _ Ha Hrest] Hall. apply Forall_cons in Hall as [Hc Hcs].
  constructor; [by rewrite Ha | by apply IH].
Qed.

Section Population.
Context {G : Type} `{RandomGen G}.

(** Genesis links 8 citizens to each of the 3 factions and leaves 5
    without a faction. *)
Lemma create_citizens_affiliation (n : nat) (fid : option Z) (d : Database)
  (g : G) (cs : list CitizenRow.t) :
  exists new,
    (create_citizens n fid (d, g, cs)).2 = cs ++ new /\
    length new = n /\
    Forall (fun c => CitizenRow.faction_id c = fid) new.
Proof.
  revert d g cs. induction n as [| n IH]; intros d g cs.
  - exists []. simpl. by rewrite app_nil_r.
  - cbn [create_citizens].
    assert (Hfid : CitizenRow.faction_id (Citizen_generate fid g).1 = fid).
    { unfold Citizen_generate.
      destruct (uniform_vector 0 0.3 DOMAINS g) as [bv g1].
      destruct (generate_citizen_name g1) as [nm g2].
      destruct (uniform 0.1 0.4 g2) as [f g3].
      by destruct (uniform 0.1 0.4 g3) as [gr g4]. }
    destruct (Citizen_generate fid g) as [c g1]. cbn [fst] in Hfid.
    assert (Hsaved : CitizenRow.faction_id (save_citizen d c).2 = fid)
      by (unfold save_citizen; by destruct (CitizenRow.id c)).
    destruct (save_citizen d c) as [d1 c1]. cbn [snd] in Hsaved.
    destruct (IH d1 g1 (cs ++ [c1])) as (new & Hcs & Hlen & Hall).
    exists (c1 :: new). rewrite Hcs, <- app_assoc. simpl.
    split; [done |]. split; [by rewrite Hlen | by constructor].
Qed.

Lemma create_factions_affiliation (n : nat) (d : Database) (g : G)
  (fs : list FactionRow.t) (cs : list CitizenRow.t) d' g' fs' cs' :
  create_factions n (d, g, fs, cs) = inr (d', g', fs', cs') ->
  exists new,
    cs' = cs ++ new /\
    length new = (n * INITIAL_CITIZENS_PER_FACTION)%nat /\
    Forall (fun c => is_Some (CitizenRow.faction_id c)) new.
Proof.
  revert d g fs cs. induction n as [| n IH]; intros d g fs cs.
  - intros [= <- <- <- <-]. exists []. by rewrite app_nil_r.
  - cbn [create_factions].
    destruct (Faction_generate g) as [faction g1].
    destruct (save_faction d faction) as [exn | [d1 faction1]] eqn:Hsave; [done |].
    assert (Hid : is_Some (FactionRow.id faction1)).
    { unfold save_faction in Hsave.
      destruct (FactionRow.id faction) eqn:Hf; case_bool_decide; try done;
        injection Hsave as <- <-; [by rewrite Hf | by eexists]. }
    destruct (create_citizens_affiliation INITIAL_CITIZENS_PER_FACTION
                (FactionRow.id faction1) d1 g1 cs) as (new1 & Hcs1 & Hlen1 & Hall1).
    destruct (create_citizens INITIAL_CITIZENS_PER_FACTION
                (FactionRow.id faction1) (d1, g1, cs)) as [[d2 g2] cs2].
    cbn [snd] in Hcs1. intros Hrest.
    destruct (IH _ _ _ _ Hrest) as (new & -> & Hlen & Hall).
    exists (new1 ++ new). subst cs2. rewrite <- app_assoc.
    split; [done |]. split; [rewrite length_app; lia |].
    apply Forall_app. split; [| done].
    eapply Forall_impl; [exact Hall1 |]. intros c ->. done.
Qed.

Lemma genesis_affiliation (d0 : Database) (sd : Z) (nar : option Narrator)
  (e : SimulationEngine G) :
  initialize (SimulationEngine_init d0 sd nar) true = inr e ->
  exists affiliated unaffiliated,
    _citizens e = affiliated ++ unaffiliated /\
    length affiliated = (INITIAL_FACTIONS * INITIAL_CITIZENS_PER_FACTION)%nat /\
    Forall (fun c => is_Some (CitizenRow.faction_id c)) affiliated /\
    length unaffiliated = UNAFFILIATED_CITIZENS /\
    Forall (fun c => CitizenRow.faction_id c = None) unaffiliated.
Proof.
  unfold initialize, _create_new_world.
  cbn [db SimulationEngine_init set_db clear_all get_world_state world_state
         rng seed narrator god_system _factions _citizens].
  destruct (AgeManager_new (Random sd)) as [am g1].
  destruct (create_factions INITIAL_FACTIONS _)
    as [exn | [[[d2 g2] fs] cs]] eqn:Hfactions; [done |].
  apply create_factions_affiliation in Hfactions as (new1 & -> & Hlen1 & Hall1).
  destruct (create_citizens_affiliation UNAFFILIATED_CITIZENS None d2 g2
              ([] ++ new1)) as (new2 & Hcs2 & Hlen2 & Hall2).
  destruct (create_citizens UNAFFILIATED_CITIZENS None (d2, g2, [] ++ new1))
    as [[d3 g3] cs3].
  cbn [snd] in Hcs2. intros [= <-]. cbn [_citizens set_god_system].
  exists new1, new2. by subst cs3.
Qed.

(** A tick returns the citizens it was given: the same rows in the same
    order, with other beliefs and emotions at most. *)
Lemma tick_identity (e : SimulationEngine G) :
  Forall (fun c => is_Some (CitizenRow.id c)) (_citizens e) ->
  map citizen_identity (_citizens (tick e).2) = map citizen_identity (_citizens e).
Proof.
  intros Hids. unfold tick.
  destruct (age_manager e) as [am |]; [| done].
  destruct (AgeManager_tick am (rng e)) as [[transition am1] g1].
  destruct (god_system e) as [gs |]; [| done].
  destruct (generate_event _ _ g1) as [ev g2].
  set (stage := match ev with Some _ => _ | None => _ end).
  assert (Hstage : map citizen_identity stage.1.1.1
                   = map citizen_identity (_citizens e)).
  { subst stage. destruct ev as [ev |]; [| done].
    pose proof (_apply_event_identity ev (AgeManager_traits am1) (_factions e)
                  (_citizens e) g2) as Hident.
    destruct (_apply_event ev _ _ _ g2) as [cs ga].
    by destruct (_create_myths ev _ _ _ ga) as [[ms da] gb]. }
  destruct stage as [[[citizens1 myths1] d1] g3]. cbn [fst snd] in Hstage.
  destruct (process_gods citizens1 _ d1 g3 gs) as [[[[born faded] d2] g4] gs1].
  pose proof (save_citizens_identity d2 citizens1
                (identity_has_id _ _ Hstage Hids)) as Hsaved.
  destruct (save_citizens d2 citizens1) as [d3 citizens2].
  cbn [snd] in Hsaved. subst citizens2.
  by destruct (narrator e) as [nar |]; [destruct (nar _) |].
Qed.

Lemma ticks_identity (n : nat) (e : SimulationEngine G) :
  Forall (fun c => is_Some (CitizenRow.id c)) (_citizens e) ->
  map citizen_identity (_citizens (ticks n e)) = map citizen_identity (_citizens e).
Proof.
  intros Hids. induction n as [| n IH]; [done |].
  unfold ticks in *. cbn [Nat.iter nat_rect].
  rewrite tick_identity; [done |].
  eapply identity_has_id; [exact IH | exact Hids].
Qed.

(** C10: after a fresh genesis the population is the 29 generated citizens
    (3 x 8 linked to a faction, then 5 without one), all alive; no sequence
    of ticks removes, adds, reorders or kills one: ids, names, faction
    links and the alive flags stay as genesis set them, so the living
    population is the whole population. *)
Theorem citizens_immortal (d0 : Database) (sd : Z) (nar : option Narrator)
  (e : SimulationEngine G) :
  initialize (SimulationEngine_init d0 sd nar) true = inr e ->
  length (_citizens e)
  = (INITIAL_FACTIONS * INITIAL_CITIZENS_PER_FACTION + UNAFFILIATED_CITIZENS)%nat /\
  length (_citizens e) = 29%nat /\
  Forall (fun c => CitizenRow.alive c = true) (_citizens e) /\
  (exists affiliated unaffiliated,
     _citizens e = affiliated ++ unaffiliated /\
     length affiliated = (3 * 8)%nat /\
     Forall (fun c => is_Some (CitizenRow.faction_id c)) affiliated /\
     length unaffiliated = 5%nat /\
     Forall (fun c => CitizenRow.faction_id c = None) unaffiliated) /\
  forall n : nat,
    map citizen_identity (_citizens (ticks n e)) = map citizen_identity (_citizens e) /\
    length (_citizens (ticks n e)) = 29%nat /\
    Forall (fun c => CitizenRow.alive c = true) (_citizens (ticks n e)) /\
    living_population (_citizens (ticks n e)) = _citizens (ticks n e).
Proof.
  intros Hinit. pose proof (genesis_affiliation _ _ _ _ Hinit) as Haff.
  apply initialize_fresh_spec in Hinit as (Hlen & Hall & _).
  assert (Halive : Forall (fun c => CitizenRow.alive c = true) (_citizens e))
    by (eapply Forall_impl; [exact Hall |]; by intros c (_ & ? & _)).
  assert (Hids : Forall (fun c => is_Some (CitizenRow.id c)) (_citizens e))
    by (eapply Forall_impl; [exact Hall |]; by intros c (_ & _ & ?)).
  split; [exact Hlen |]. split; [exact Hlen |]. split; [exact Halive |].
  split; [exact Haff |].
  intros n. pose proof (ticks_identity n e Hids) as Hident.
  assert (Halive' : Forall (fun c => CitizenRow.alive c = true)
                      (_citizens (ticks n e)))
    by (eapply identity_alive; [exact Hident | exact Halive]).
  split; [exact Hident |]. split; [| split; [exact Halive' |]].
  - rewrite <- Hlen, <- (length_map citizen_identity), Hident.
    apply length_map.
  - unfold living_population. apply forallb_filter_id, forallb_forall.
    intros c Hc. rewrite Forall_forall in Halive'.
    apply Halive'. by apply list_elem_of_In.
Qed.
End Population.

(** The population of the kernel of seed 12345. *)
Lemma citizens_immortal_witness :
  initialize (SimulationEngine_init empty_db 12345 None) true = inr engine_12345 /\
  length (_citizens engine_12345) = 29%nat /\
  forall n : nat,
    map citizen_identity (_citizens (ticks n engine_12345))
    = map citizen_identity (_citizens engine_12345).
Proof.
  pose proof (citizens_immortal empty_db 12345 None engine_12345
                genesis_12345_succeeds) as (_ & Hlen & _ & _ & Hticks).
  split; [exact genesis_12345_succeeds |]. split; [exact Hlen |].
  intros n. exact (proj1 (Hticks n)).
Defined.

(** ** Birth and fade streaks *)

Lemma living_gods_app (l1 l2 : list GodRow.t) (d : Domain) :
  living_gods (l1 ++ l2) d = living_gods l1 d ++ living_gods l2 d.
Proof. unfold living_gods. apply List.filter_app. Qed.

Lemma living_gods_none (l : list GodRow.t) (d : Domain) :
  Forall (fun b => GodRow.domain b <> d) l -> living_gods l d = [].
Proof.
  induction 1 as [| b l Hb _ IH]; [done |].
  rewrite living_gods_cons, bool_decide_eq_false_2 by done.
  by rewrite andb_false_r.
Qed.

Lemma living_gods_single (l : list GodRow.t) (b : GodRow.t) :
  NoDup (map GodRow.domain l) -> b ∈ l -> GodRow.alive b = true ->
  living_gods l (GodRow.domain b) = [b].
Proof.
  induction l as [| x l IH]; intros Hnd Hin Ha.
  - by apply not_elem_of_nil in Hin.
  - cbn [map] in Hnd. apply NoDup_cons in Hnd as [Hx Hnd].
    rewrite living_gods_cons.
    apply elem_of_cons in Hin as [<- | Hin].
    + rewrite Ha, bool_decide_eq_true_2 by done. cbn [andb]. f_equal.
      apply living_gods_none, Forall_forall. intros y Hy Heq.
      apply Hx. rewrite <- Heq. by apply list_elem_of_In, in_map, list_elem_of_In.
    + rewrite bool_decide_eq_false_2, andb_false_r; [by apply IH |].
      intros Heq. apply Hx. rewrite Heq.
      by apply list_elem_of_In, in_map, list_elem_of_In.
Qed.

Lemma unique_by_id (l : list GodRow.t) (x y : GodRow.t) :
  NoDup (map GodRow.id l) -> x ∈ l -> y ∈ l -> GodRow.id x = GodRow.id y -> x = y.
Proof.
  induction l as [| z l IH]; intros Hnd Hx Hy Heq.
  - by apply not_elem_of_nil in Hx.
  - cbn [map] in Hnd. apply NoDup_cons in Hnd as [Hz Hnd].
    apply elem_of_cons in Hx as [-> | Hx]; apply elem_of_cons in Hy as [-> | Hy].
    + done.
    + exfalso. apply Hz. rewrite Heq.
      by apply list_elem_of_In, in_map, list_elem_of_In.
    + exfalso. apply Hz. rewrite <- Heq.
      by apply list_elem_of_In, in_map, list_elem_of_In.
    + by apply IH.
Qed.

Lemma strong_day_outcome living (proto : gmap Domain Z) cs (d : Domain) :
  strong_day cs d -> d ∉ living ->
  birth_outcome living proto d (aggregate_domain cs d)
  = if proto !!! d + 1 >=? CONSECUTIVE_DAYS_BIRTH then (0, true)
    else (proto !!! d + 1, false).
Proof.
  intros [Hb Hc] Hnot. unfold birth_outcome.
  rewrite bool_decide_eq_false_2 by done.
  apply Qgeb_le in Hb, Hc. by rewrite Hb, Hc.
Qed.

Lemma weak_day_update cs cur (god : GodRow.t) :
  weak_day cs (GodRow.domain god) ->
  let god' := god_after (aggregate_beliefs cs) cur god in
  GodRow.consecutive_weak_days god' = GodRow.consecutive_weak_days god + 1 /\
  (GodRow.consecutive_weak_days god + 1 < CONSECUTIVE_DAYS_FADE ->
   GodRow.alive god' = GodRow.alive god /\
   god_fades (aggregate_beliefs cs) cur god = false) /\
  (CONSECUTIVE_DAYS_FADE <= GodRow.consecutive_weak_days god + 1 ->
   GodRow.alive god' = false /\ GodRow.death_day god' = Some cur /\
   god_fades (aggregate_beliefs cs) cur god = true).
Proof.
  intros Hweak. cbn zeta.
  rewrite god_after_aggregate, god_fades_aggregate.
  unfold update_existing_god. apply Qltb_lt in Hweak. rewrite Hweak.
  cbn [GodRow.consecutive_weak_days GodRow.set_streaks God_update_strength].
  destruct (Z.geb_spec (GodRow.consecutive_weak_days god + 1)
              CONSECUTIVE_DAYS_FADE); cbn [fst snd];
    (split; [done |]); split; intros ?; try lia; done.
Qed.

Section Streaks.
Context {G : Type} `{RandomGen G}.

Lemma no_living_after cs cur (table : list GodRow.t) (d : Domain) :
  living_gods table d = [] ->
  (d ∉ living_after cs cur table) /\
  living_gods (table_after cs cur table) d = [].
Proof.
  intros Hnone. apply living_gods_nil in Hnone.
  assert (Hnot : d ∉ map GodRow.domain
                       (List.filter GodRow.alive (table_after cs cur table))).
  { intros Hin. apply Hnone.
    eapply elem_of_sublist; [exact Hin | apply alive_after_sublist]. }
  split; [by rewrite elem_living_after | by apply living_gods_nil].
Qed.

(** One tick on a domain without a living god whose day meets the birth
    criteria. *)
Lemma process_gods_strong_day cs cur (d0 : Database) (g : G) (gs : GodSystem)
  (d : Domain) :
  gods_wf (gods d0) ->
  living_gods (gods d0) d = [] ->
  strong_day cs d ->
  let r := process_gods cs cur d0 g gs in
  let k := _proto_god_days gs !!! d in
  gods_wf (gods r.1.1.2) /\
  (k + 1 < CONSECUTIVE_DAYS_BIRTH ->
   _proto_god_days r.2 !!! d = k + 1 /\
   living_gods (gods r.1.1.2) d = [] /\
   Forall (fun b => GodRow.domain b <> d) r.1.1.1.1) /\
  (CONSECUTIVE_DAYS_BIRTH <= k + 1 ->
   _proto_god_days r.2 !!! d = 0 /\
   exists b, b ∈ r.1.1.1.1 /\ living_gods (gods r.1.1.2) d = [b] /\
             GodRow.domain b = d /\ GodRow.alive b = true /\
             GodRow.birth_day b = cur /\ GodRow.death_day b = None).
Proof.
  intros Hwf Hnone Hstrong. cbn zeta.
  destruct (process_gods_spec cs cur d0 g gs Hwf)
    as (nb & g' & proto' & -> & Hproto & Hall & Hwf' & Hdom).
  cbn [fst snd gods set_gods _proto_god_days].
  destruct (no_living_after cs cur (gods d0) d Hnone) as [Hnot Hafter].
  specialize (Hproto d). cbn zeta in Hproto.
  rewrite (strong_day_outcome _ _ _ _ Hstrong Hnot) in Hproto.
  destruct Hproto as [Hcount Hborn].
  rewrite living_gods_app, Hafter. cbn [app].
  split; [done |]. split.
  - intros Hlt.
    destruct (Z.geb_spec (_proto_god_days gs !!! d + 1) CONSECUTIVE_DAYS_BIRTH);
      [lia |].
    assert (Hnone' : Forall (fun b => GodRow.domain b <> d) nb).
    { apply Forall_forall. intros b Hb Heq.
      rewrite Forall_forall in Hall. destruct (Hall b Hb) as [_ Ho].
      rewrite Heq, (strong_day_outcome _ _ _ _ Hstrong Hnot) in Ho.
      destruct (Z.geb_spec (_proto_god_days gs !!! d + 1) CONSECUTIVE_DAYS_BIRTH);
        [lia | done]. }
    split; [done |]. split; [by apply living_gods_none | done].
  - intros Hge.
    destruct (Z.geb_spec (_proto_god_days gs !!! d + 1) CONSECUTIVE_DAYS_BIRTH);
      [| lia].
    split; [done |].
    destruct (Hborn eq_refl) as (b & Hb & Hbd & Hba & Hbb & Hbe).
    exists b. split; [done |]. split; [| done].
    rewrite <- Hbd. by apply living_gods_single.
Qed.

(** One tick on a living god whose domain has a weak day. *)
Lemma process_gods_weak_day cs cur (d0 : Database) (g : G) (gs : GodSystem)
  (god : GodRow.t) :
  gods_wf (gods d0) ->
  god ∈ gods d0 ->
  GodRow.alive god = true ->
  weak_day cs (GodRow.domain god) ->
  let r := process_gods cs cur d0 g gs in
  let god' := god_after (aggregate_beliefs cs) cur god in
  let k := GodRow.consecutive_weak_days god in
  gods_wf (gods r.1.1.2) /\ god' ∈ gods r.1.1.2 /\
  GodRow.id god' = GodRow.id god /\ GodRow.domain god' = GodRow.domain god /\
  GodRow.consecutive_weak_days god' = k + 1 /\
  (k + 1 < CONSECUTIVE_DAYS_FADE ->
   GodRow.alive god' = true /\
   Forall (fun f => GodRow.id f <> GodRow.id god) r.1.1.1.2) /\
  (CONSECUTIVE_DAYS_FADE <= k + 1 ->
   GodRow.alive god' = false /\ GodRow.death_day god' = Some cur /\
   god' ∈ r.1.1.1.2).
Proof.
  intros Hwf Hin Halive Hweak. cbn zeta.
  destruct (process_gods_spec cs cur d0 g gs Hwf)
    as (nb & g' & proto' & -> & _ & _ & Hwf' & _).
  cbn [fst snd gods set_gods].
  destruct (weak_day_update cs cur god Hweak) as (Hcount & Hstay & Hfade).
  split; [done |]. split; [| split; [apply god_after_id |
                                     split; [apply god_after_domain |
                                             split; [done |]]]].
  - apply elem_of_app. left. unfold table_after.
    apply list_elem_of_In, in_map_iff. exists god.
    rewrite Halive. split; [done | by apply list_elem_of_In].
  - split.
    + intros Hlt. destruct (Hstay Hlt) as [Ha Hf].
      split; [congruence |].
      apply Forall_forall. intros f Hfin Heq.
      apply list_elem_of_In, in_map_iff in Hfin as (x & <- & Hx).
      apply filter_In in Hx as [Hx Hxf]. apply filter_In in Hx as [Hx _].
      rewrite god_after_id in Heq.
      assert (x = god) as ->.
      { destruct Hwf as [_ Hnd].
        eapply unique_by_id; [exact Hnd | by apply list_elem_of_In | done | done]. }
      congruence.
    + intros Hge. destruct (Hfade Hge) as (Ha & Hd & Hf).
      split; [done |]. split; [done |].
      apply list_elem_of_In, in_map, filter_In. split; [| done].
      apply filter_In. split; [by apply list_elem_of_In | done].
Qed.
End Streaks.

Section StreakRuns.
Context {G : Type} `{RandomGen G}.

Lemma pantheon_run_cons cs cur (g : G) rest (d0 : Database) (gs : GodSystem) :
  pantheon_run ((cs, cur, g) :: rest) d0 gs
  = let r := process_gods cs cur d0 g gs in
    let r2 := pantheon_run rest r.1.1.2 r.2 in
    ((r.1.1.1.1, r.1.1.1.2) :: r2.1.1, r2.1.2, r2.2).
Proof.
  cbn [pantheon_run].
  destruct (process_gods cs cur d0 g gs) as [[[[born faded] d1] g1] gs1].
  cbn zeta. cbn [fst snd].
  by destruct (pantheon_run rest d1 gs1) as [[outs d2] gs2].
Qed.

Lemma birth_streak (d : Domain) (inputs : list (list CitizenRow.t * Z * G)) :
  forall (d0 : Database) (gs : GodSystem),
  gods_wf (gods d0) ->
  living_gods (gods d0) d = [] ->
  _proto_god_days gs !!! d < CONSECUTIVE_DAYS_BIRTH ->
  Z.of_nat (length inputs) = CONSECUTIVE_DAYS_BIRTH - _proto_god_days gs !!! d ->
  Forall (fun i => strong_day i.1.1 d) inputs ->
  exists earlier born faded cs cur g b,
    (pantheon_run inputs d0 gs).1.1 = earlier ++ [(born, faded)] /\
    last inputs = Some (cs, cur, g) /\
    Forall (fun out => Forall (fun x => GodRow.domain x <> d) out.1) earlier /\
    b ∈ born /\ GodRow.domain b = d /\ GodRow.alive b = true /\
    GodRow.birth_day b = cur /\ GodRow.death_day b = None /\
    living_gods (gods (pantheon_run inputs d0 gs).1.2) d = [b] /\
    _proto_god_days (pantheon_run inputs d0 gs).2 !!! d = 0.
Proof.
  induction inputs as [| [[cs cur] g] rest IH];
    intros d0 gs Hwf Hnone Hlt Hlen Hstrong.
  - simpl in Hlen. lia.
  - apply Forall_cons in Hstrong as [Hday Hrest]. cbn [fst] in Hday.
    rewrite pantheon_run_cons. cbn zeta. cbn [fst snd].
    pose proof (process_gods_strong_day cs cur d0 g gs d Hwf Hnone Hday)
      as (Hwf1 & Hasc & Hbirth). cbn zeta in Hasc, Hbirth.
    set (r := process_gods cs cur d0 g gs) in *.
    cbn [length] in Hlen.
    destruct (decide (_proto_god_days gs !!! d + 1 < CONSECUTIVE_DAYS_BIRTH))
      as [Hmore | Hdone].
    + destruct (Hasc Hmore) as (Hproto & Hnone1 & Hborn1).
      destruct (IH r.1.1.2 r.2 Hwf1 Hnone1 ltac:(lia) ltac:(lia) Hrest)
        as (earlier & born & faded & cs' & cur' & g' & b & Houts & Hlast & Hearly
            & Hb & Hrest').
      exists ((r.1.1.1.1, r.1.1.1.2) :: earlier), born, faded, cs', cur', g', b.
      rewrite Houts. split; [done |]. split.
      { rewrite last_cons, Hlast. done. }
      split; [by constructor | done].
    + assert (rest = []) as -> by (apply length_zero_iff_nil; lia).
      destruct (Hbirth ltac:(lia)) as (Hproto & b & Hb & Hliving & Hfields).
      exists [], r.1.1.1.1, r.1.1.1.2, cs, cur, g, b.
      cbn [pantheon_run fst snd app]. repeat split; try done; apply Hfields.
Qed.

Lemma fade_streak (inputs : list (list CitizenRow.t * Z * G)) :
  forall (god : GodRow.t) (d0 : Database) (gs : GodSystem),
  gods_wf (gods d0) ->
  god ∈ gods d0 ->
  GodRow.alive god = true ->
  GodRow.consecutive_weak_days god < CONSECUTIVE_DAYS_FADE ->
  Z.of_nat (length inputs)
  = CONSECUTIVE_DAYS_FADE - GodRow.consecutive_weak_days god ->
  Forall (fun i => weak_day i.1.1 (GodRow.domain god)) inputs ->
  exists earlier born faded cs cur g god',
    (pantheon_run inputs d0 gs).1.1 = earlier ++ [(born, faded)] /\
    last inputs = Some (cs, cur, g) /\
    Forall (fun out => Forall (fun x => GodRow.id x <> GodRow.id god) out.2)
           earlier /\
    god' ∈ faded /\ god' ∈ gods (pantheon_run inputs d0 gs).1.2 /\
    GodRow.id god' = GodRow.id god /\ GodRow.domain god' = GodRow.domain god /\
    GodRow.alive god' = false /\ GodRow.death_day god' = Some cur.
Proof.
  induction inputs as [| [[cs cur] g] rest IH];
    intros god d0 gs Hwf Hin Halive Hlt Hlen Hweak.
  - simpl in Hlen. lia.
  - apply Forall_cons in Hweak as [Hday Hrest]. cbn [fst] in Hday.
    rewrite pantheon_run_cons. cbn zeta. cbn [fst snd].
    pose proof (process_gods_weak_day cs cur d0 g gs god Hwf Hin Halive Hday)
      as (Hwf1 & Hin1 & Hid1 & Hdom1 & Hcount1 & Hstay & Hfade).
    cbn zeta in *.
    set (r := process_gods cs cur d0 g gs) in *.
    set (god1 := god_after (aggregate_beliefs cs) cur god) in *.
    cbn [length] in Hlen.
    destruct (decide (GodRow.consecutive_weak_days god + 1 < CONSECUTIVE_DAYS_FADE))
      as [Hmore | Hdone].
    + destruct (Hstay Hmore) as [Halive1 Hnotfaded].
      rewrite <- Hdom1 in Hrest.
      destruct (IH god1 r.1.1.2 r.2 Hwf1 Hin1 Halive1 ltac:(lia) ltac:(lia) Hrest)
        as (earlier & born & faded & cs' & cur' & g' & god' & Houts & Hlast
            & Hearly & Hf & Hdb & Hid & Hdom & Hdead).
      exists ((r.1.1.1.1, r.1.1.1.2) :: earlier), born, faded, cs', cur', g', god'.
      rewrite Houts. split; [done |]. split.
      { rewrite last_cons, Hlast. done. }
      split.
      { constructor; [done |].
        eapply Forall_impl; [exact Hearly |]. intros out Hout.
        eapply Forall_impl; [exact Hout |]. intros x Hx. by rewrite <- Hid1. }
      split; [done |]. split; [done |].
      split; [congruence |]. split; [congruence | done].
    + assert (rest = []) as -> by (apply length_zero_iff_nil; lia).
      destruct (Hfade ltac:(lia)) as (Hdead & Hday' & Hfaded).
      exists [], r.1.1.1.1, r.1.1.1.2, cs, cur, g, god1.
      cbn [pantheon_run fst snd app]. done.
Qed.

(** C2: on a domain without a living god, the fifth consecutive tick whose
    aggregation has mean belief >= 0.6 and coherence >= 0.5 -- counting the
    days the ascending counter has already recorded -- gives birth to a
    god of that domain, alive, born on the day of that tick, and leaves the
    counter at 0; no god of the domain is born on the ticks before.  For a
    living god, the seventh consecutive tick on which the mean belief of
    its domain is below 0.3 -- counting the weak days the god has already
    recorded -- reports it as faded and stores it dead with that day as its
    death day; it is not reported on the ticks before. *)
Theorem birth_fade_thresholds :
  (forall (d : Domain) (inputs : list (list CitizenRow.t * Z * G))
          (d0 : Database) (gs : GodSystem),
     gods_wf (gods d0) ->
     living_gods (gods d0) d = [] ->
     _proto_god_days gs !!! d < CONSECUTIVE_DAYS_BIRTH ->
     Z.of_nat (length inputs)
     = CONSECUTIVE_DAYS_BIRTH - _proto_god_days gs !!! d ->
     Forall (fun i => strong_day i.1.1 d) inputs ->
     exists earlier born faded cs cur g b,
       (pantheon_run inputs d0 gs).1.1 = earlier ++ [(born, faded)] /\
       last inputs = Some (cs, cur, g) /\
       Forall (fun out => Forall (fun x => GodRow.domain x <> d) out.1) earlier /\
       b ∈ born /\ GodRow.domain b = d /\ GodRow.alive b = true /\
       GodRow.birth_day b = cur /\ GodRow.death_day b = None /\
       living_gods (gods (pantheon_run inputs d0 gs).1.2) d = [b] /\
       _proto_god_days (pantheon_run inputs d0 gs).2 !!! d = 0) /\
  (forall (god : GodRow.t) (inputs : list (list CitizenRow.t * Z * G))
          (d0 : Database) (gs : GodSystem),
     gods_wf (gods d0) ->
     god ∈ gods d0 ->
     GodRow.alive god = true ->
     GodRow.consecutive_weak_days god < CONSECUTIVE_DAYS_FADE ->
     Z.of_nat (length inputs)
     = CONSECUTIVE_DAYS_FADE - GodRow.consecutive_weak_days god ->
     Forall (fun i => weak_day i.1.1 (GodRow.domain god)) inputs ->
     exists earlier born faded cs cur g god',
       (pantheon_run inputs d0 gs).1.1 = earlier ++ [(born, faded)] /\
       last inputs = Some (cs, cur, g) /\
       Forall (fun out => Forall (fun x => GodRow.id x <> GodRow.id god) out.2)
              earlier /\
       god' ∈ faded /\ god' ∈ gods (pantheon_run inputs d0 gs).1.2 /\
       GodRow.id god' = GodRow.id god /\
       GodRow.domain god' = GodRow.domain god /\
       GodRow.alive god' = false /\ GodRow.death_day god' = Some cur).
Proof.
  split.
  - intros d inputs. apply birth_streak.
  - intros god inputs. apply fade_streak.
Qed.
End StreakRuns.

(** Five days of belief 0.7 in flame on an empty pantheon, and seven days
    of belief 0.1 in sky under a living god of the sky. *)
Lemma birth_fade_thresholds_witness :
  (Forall (fun i => strong_day i.1.1 flame) (forced_days 5 1 flame 0.7) /\
   exists earlier born faded cs cur g b,
     (pantheon_run (forced_days 5 1 flame 0.7) empty_db GodSystem_init).1.1
     = earlier ++ [(born, faded)] /\
     last (forced_days 5 1 flame 0.7) = Some (cs, cur, g) /\
     Forall (fun out => Forall (fun x => GodRow.domain x <> flame) out.1) earlier /\
     b ∈ born /\ GodRow.domain b = flame /\ GodRow.alive b = true /\
     GodRow.birth_day b = cur /\ GodRow.death_day b = None /\
     living_gods
       (gods (pantheon_run (forced_days 5 1 flame 0.7) empty_db
                GodSystem_init).1.2) flame = [b] /\
     _proto_god_days
       (pantheon_run (forced_days 5 1 flame 0.7) empty_db GodSystem_init).2
       !!! flame = 0) /\
  (Forall (fun i => weak_day i.1.1 sky) (forced_days 7 10 sky 0.1) /\
   exists earlier born faded cs cur g god',
     (pantheon_run (forced_days 7 10 sky 0.1) sky_db GodSystem_init).1.1
     = earlier ++ [(born, faded)] /\
     last (forced_days 7 10 sky 0.1) = Some (cs, cur, g) /\
     Forall (fun out => Forall (fun x => GodRow.id x <> GodRow.id sky_god) out.2)
            earlier /\
     god' ∈ faded /\
     god' ∈ gods (pantheon_run (forced_days 7 10 sky 0.1) sky_db
                    GodSystem_init).1.2 /\
     GodRow.id god' = GodRow.id sky_god /\
     GodRow.domain god' = GodRow.domain sky_god /\
     GodRow.alive god' = false /\ GodRow.death_day god' = Some cur).
Proof.
  assert (Hstrong : Forall (fun i => strong_day i.1.1 flame)
                      (forced_days 5 1 flame 0.7)).
  { repeat constructor; vm_compute; discriminate. }
  assert (Hweak : Forall (fun i => weak_day i.1.1 sky) (forced_days 7 10 sky 0.1)).
  { repeat constructor; vm_compute; reflexivity. }
  split; (split; [done |]).
  - apply (proj1 birth_fade_thresholds flame (forced_days 5 1 flame 0.7)
             empty_db GodSystem_init).
    + split; constructor.
    + reflexivity.
    + vm_compute. reflexivity.
    + vm_compute. reflexivity.
    + exact Hstrong.
  - apply (proj2 birth_fade_thresholds sky_god (forced_days 7 10 sky 0.1)
             sky_db GodSystem_init).
    + split; repeat constructor; [by eexists | set_solver].
    + by left.
    + reflexivity.
    + vm_compute. reflexivity.
    + vm_compute. reflexivity.
    + exact Hweak.
Defined.

(** ** The bias of an unaffiliated citizen *)

(** C4, as stated, fails: for the unaffiliated citizen [loner] and the omen
    [flood] in the era of Order, the belief in the primary domain after the
    event is not the clamped sum of the old belief and half the belief
    delta. *)
Lemma unaffiliated_bias_is_not_half :
  ~ (get_belief (apply_event_to flood (AGE_TRAITS ORDER) [] loner (12345 : Z)).1
       river
     == clamp01 (get_belief loner river
                 + belief_delta_of flood (AGE_TRAITS ORDER)
                     (random (12345 : Z)).1 * 0.5))%Q.
Proof. vm_compute. discriminate. Qed.

Section UnaffiliatedBias.
Context {G : Type} `{RandomGen G}.

(** C4, amended: for a citizen without a faction the bias toward the
    primary domain of the event is 1.0, and the belief in that domain after
    the event is the old belief plus the whole belief delta, clamped. *)
Theorem unaffiliated_bias_is_one (ev : Event) (traits : AgeTraits)
  (factions : list FactionRow.t) (c : CitizenRow.t) (g : G) :
  CitizenRow.faction_id c = None ->
  secondary_domain ev <> Some (primary_domain ev) ->
  faction_bias_of factions c (primary_domain ev) = 1.0%Q /\
  get_belief (apply_event_to ev traits factions c g).1 (primary_domain ev)
  = clamp01 (get_belief c (primary_domain ev)
             + belief_delta_of ev traits (random g).1 * 1.0).
Proof.
  intros Hnone Hsecondary.
  assert (Hbias : faction_bias_of factions c (primary_domain ev) = 1.0%Q)
    by (unfold faction_bias_of; by rewrite Hnone).
  split; [exact Hbias |].
  unfold apply_event_to, belief_delta_of. rewrite Hbias.
  destruct (random g) as [r1 g1]. destruct (random g1) as [r2 g2].
  destruct (random g2) as [r3 g3]. cbn [fst].
  assert (Hemotion : forall c' fd gd d,
            get_belief (update_emotion c' fd gd) d = get_belief c' d) by done.
  rewrite Hemotion.
  destruct (secondary_domain ev) as [d2 |].
  - rewrite get_belief_update_other by congruence.
    apply get_belief_update_same.
  - apply get_belief_update_same.
Qed.
End UnaffiliatedBias.

(** The unaffiliated citizen [loner] under the omen [flood]. *)
Lemma unaffiliated_bias_is_one_witness :
  CitizenRow.faction_id loner = None /\
  faction_bias_of [] loner (primary_domain flood) = 1.0%Q /\
  get_belief (apply_event_to flood (AGE_TRAITS ORDER) [] loner (12345 : Z)).1
    (primary_domain flood)
  = clamp01 (get_belief loner (primary_domain flood)
             + belief_delta_of flood (AGE_TRAITS ORDER) (random (12345 : Z)).1 * 1.0).
Proof.
  split; [reflexivity |].
  apply (unaffiliated_bias_is_one flood (AGE_TRAITS ORDER) [] loner (12345 : Z)).
  - reflexivity.
  - discriminate.
Defined.

(** The hypotheses of the two streak statements on the counters hold in
    every state the god system reaches. *)

Lemma birth_outcome_bounded living (proto : gmap Domain Z) (d : Domain) agg :
  0 <= proto !!! d < CONSECUTIVE_DAYS_BIRTH ->
  0 <= (birth_outcome living proto d agg).1 < CONSECUTIVE_DAYS_BIRTH.
Proof.
  intros Hk. unfold birth_outcome, CONSECUTIVE_DAYS_BIRTH in *.
  case_bool_decide; [simpl; lia |].
  destruct (_ && _); [| simpl; lia].
  destruct (Z.geb_spec (proto !!! d + 1) 5); simpl; lia.
Qed.

Lemma god_after_weak_bounded aggs cur (g : GodRow.t) :
  (GodRow.alive g = true ->
   0 <= GodRow.consecutive_weak_days g < CONSECUTIVE_DAYS_FADE) ->
  GodRow.alive (god_after aggs cur g) = true ->
  0 <= GodRow.consecutive_weak_days (god_after aggs cur g) < CONSECUTIVE_DAYS_FADE.
Proof.
  unfold god_after, update_existing_god, CONSECUTIVE_DAYS_FADE.
  destruct (Qltb _ _).
  - cbn [GodRow.consecutive_weak_days GodRow.set_streaks God_update_strength].
    destruct (Z.geb_spec (GodRow.consecutive_weak_days g + 1) 7);
      cbn [fst GodRow.alive God_fade GodRow.set_streaks God_update_strength
             GodRow.consecutive_weak_days]; [done |].
    intros Hk Ha. specialize (Hk Ha). lia.
  - cbn. lia.
Qed.

Lemma GodSystem_init_bounded (d : Domain) :
  _proto_god_days GodSystem_init !!! d = 0.
Proof. by destruct d. Qed.

Section StreakBounds.
Context {G : Type} `{RandomGen G}.

Lemma birth_loop_fresh living cur (l : list (Domain * BeliefAggregation))
  (st : Database * G * gmap Domain Z * list GodRow.t) :
  Forall (fun b => GodRow.consecutive_weak_days b = 0) st.2 ->
  Forall (fun b => GodRow.consecutive_weak_days b = 0)
         (fold_left (birth_step living cur) l st).2.
Proof.
  revert st. induction l as [| [d agg] l IH]; intros st Hst; [done |].
  cbn [fold_left]. apply IH.
  destruct st as [[[d0 g] proto] born]. rewrite birth_step_unfold.
  destruct (birth_outcome living proto d agg).2; [| done].
  cbn [snd] in *. apply Forall_app. split; [done |].
  constructor; [| done].
  apply (newborn_fields d agg cur g (map GodRow.id (gods d0))).
Qed.

Lemma process_gods_born_fresh cs cur (d0 : Database) (g : G) (gs : GodSystem) :
  Forall (fun b => GodRow.consecutive_weak_days b = 0)
         (process_gods cs cur d0 g gs).1.1.1.1.
Proof.
  unfold process_gods.
  destruct (fold_left (fade_step _ cur) _ _) as [[d1 seen] faded].
  match goal with
  | |- context [fold_left (birth_step ?living cur) ?l ?st] =>
      pose proof (birth_loop_fresh living cur l st ltac:(constructor)) as Hfresh;
      destruct (fold_left (birth_step living cur) l st)
        as [[[d2 g2] proto] born]
  end.
  exact Hfresh.
Qed.

Lemma process_gods_streaks_bounded cs cur (d0 : Database) (g : G)
  (gs : GodSystem) :
  gods_wf (gods d0) ->
  streaks_bounded (gods d0) gs ->
  streaks_bounded (gods (process_gods cs cur d0 g gs).1.1.2)
                  (process_gods cs cur d0 g gs).2.
Proof.
  intros Hwf [Hproto Hweak].
  pose proof (process_gods_born_fresh cs cur d0 g gs) as Hfresh.
  destruct (process_gods_spec cs cur d0 g gs Hwf)
    as (nb & g' & proto' & Heq & Hcount & _).
  rewrite Heq in *. clear Heq. unfold streaks_bounded.
  cbn [fst snd gods set_gods _proto_god_days] in *. split.
  - intros d. destruct (Hcount d) as [Hd _]. rewrite Hd.
    by apply birth_outcome_bounded.
  - apply Forall_app. split.
    + unfold table_after. apply Forall_forall. intros r' Hr'.
      apply list_elem_of_In, in_map_iff in Hr' as (r & <- & Hr).
      rewrite Forall_forall in Hweak.
      specialize (Hweak r ltac:(by apply list_elem_of_In)).
      destruct (GodRow.alive r) eqn:Ha; [| by rewrite Ha].
      apply god_after_weak_bounded. intros _. by apply Hweak.
    + eapply Forall_impl; [exact Hfresh |].
      intros b Hb _. rewrite Hb. unfold CONSECUTIVE_DAYS_FADE. lia.
Qed.
End StreakBounds.

(** ** The narrator and the tick *)

Section NarratorFacts.
Context {G : Type} `{RandomGen G}.

Lemma set_narrator_twice (e : SimulationEngine G) (n1 n2 : option Narrator) :
  set_narrator (set_narrator e n1) n2 = set_narrator e n2.
Proof. done. Qed.

Lemma set_narrator_same (e : SimulationEngine G) :
  set_narrator e (narrator e) = e.
Proof. by destruct e. Qed.

(** The narrator is called last: the engine a tick leaves behind is the one
    the tick without narrator leaves, and the outcome is the result of that
    tick unless the narrator raises. *)
Lemma tick_narrator_split (e : SimulationEngine G) :
  (tick e).2 = set_narrator (tick (set_narrator e None)).2 (narrator e) /\
  (tick e).1
  = match (tick (set_narrator e None)).1 with
    | inl exn => inl exn
    | inr r =>
        match narrator e with
        | Some nar =>
            match nar r with
            | Some exn => inl exn
            | None => inr r
            end
        | None => inr r
        end
    end.
Proof.
  unfold tick.
  cbn [set_narrator age_manager god_system rng db seed current_day _factions
         _citizens narrator].
  destruct (age_manager e) as [am |]; [| done].
  destruct (AgeManager_tick am (rng e)) as [[transition am1] g1].
  destruct (god_system e) as [gs |]; [| done].
  destruct (generate_event _ _ g1) as [ev g2].
  destruct (match ev with Some _ => _ | None => _ end)
    as [[[citizens1 myths1] d1] g3].
  destruct (process_gods citizens1 _ d1 g3 gs) as [[[[born faded] d2] g4] gs1].
  destruct (save_citizens d2 citizens1) as [d3 citizens2].
  destruct (narrator e) as [nar |]; [| by split].
  cbn [fst snd set_narrator].
  match goal with
  | |- context [nar ?r] => destruct (nar r)
  end; by split.
Qed.

Lemma tick_quiet (e : SimulationEngine G) :
  quiet (narrator e) ->
  (tick e).1 = (tick (set_narrator e None)).1.
Proof.
  intros Hquiet. destruct (tick_narrator_split e) as [_ ->].
  destruct (tick (set_narrator e None)).1 as [exn | r]; [done |].
  destruct (narrator e) as [nar |] eqn:Hnar; [| done].
  by rewrite (Hquiet nar r eq_refl).
Qed.

(** Two engines that differ in their narrators at most, neither of which
    raises, produce the same outcomes tick after tick. *)
Lemma run_same_kernel (n : nat) (e1 e2 : SimulationEngine G) :
  quiet (narrator e1) -> quiet (narrator e2) ->
  set_narrator e1 None = set_narrator e2 None ->
  (run n e1).1 = (run n e2).1.
Proof.
  revert e1 e2. induction n as [| n IH]; intros e1 e2 Hq1 Hq2 Hsame; [done |].
  cbn [run].
  pose proof (tick_quiet e1 Hq1) as Hout1.
  pose proof (tick_quiet e2 Hq2) as Hout2.
  destruct (tick_narrator_split e1) as [Hstate1 _].
  destruct (tick_narrator_split e2) as [Hstate2 _].
  rewrite Hsame in Hout1, Hstate1.
  destruct (tick e1) as [out1 e1']. destruct (tick e2) as [out2 e2'].
  destruct (tick (set_narrator e2 None)) as [out e'].
  cbn [fst snd] in *. subst out1 out2 e1' e2'.
  destruct out as [exn | r]; [done |].
  specialize (IH (set_narrator e' (narrator e1)) (set_narrator e' (narrator e2))
                Hq1 Hq2 eq_refl).
  destruct (run n (set_narrator e' (narrator e1))) as [rs1 ?].
  destruct (run n (set_narrator e' (narrator e2))) as [rs2 ?].
  cbn [fst] in *. by subst rs2.
Qed.

(** A fresh initialisation does not depend on the database it starts from
    and passes the narrator through. *)
Lemma initialize_fresh_narrator (d0 : Database) (sd : Z) (nar : option Narrator) :
  initialize (SimulationEngine_init d0 sd nar) true
  = match initialize (SimulationEngine_init empty_db sd None) true with
    | inl exn => inl exn
    | inr e => inr (set_narrator e nar)
    end.
Proof.
  unfold initialize, _create_new_world.
  cbn [db SimulationEngine_init set_db clear_all get_world_state world_state
         rng seed narrator god_system _factions _citizens empty_db].
  destruct (AgeManager_new (Random sd)) as [am g1].
  destruct (create_factions INITIAL_FACTIONS _) as [exn | [[[d2 g2] fs] cs]];
    [done |].
  by destruct (create_citizens UNAFFILIATED_CITIZENS None _) as [[d3 g3] cs3].
Qed.

(** C5: two kernels built with the same seed, initialised fresh -- on
    whatever databases, with whatever narrators, provided these do not
    raise -- and ticked the same number of times return the same results,
    hence the same sequence of (era, event name, domains of the gods born,
    domains of the gods faded); if genesis fails, it fails in both. *)
Theorem same_seed_same_run (d1 d2 : Database) (nar1 nar2 : option Narrator)
  (sd : Z) (n : nat) :
  quiet nar1 -> quiet nar2 ->
  simulate d1 sd nar1 n = simulate d2 sd nar2 n /\
  observe_run (simulate d1 sd nar1 n) = observe_run (simulate d2 sd nar2 n).
Proof.
  intros Hq1 Hq2.
  assert (Hsame : simulate d1 sd nar1 n = simulate d2 sd nar2 n).
  { unfold simulate.
    rewrite (initialize_fresh_narrator d1), (initialize_fresh_narrator d2).
    destruct (initialize (SimulationEngine_init empty_db sd None) true)
      as [exn | e]; [done |].
    f_equal. by apply run_same_kernel. }
  split; [exact Hsame | by rewrite Hsame].
Qed.

(** The engine a raising narrator leaves behind is the engine of the
    completed tick, but the call itself raises what the narrator raised
    instead of returning the result. *)
Lemma tick_failing_narrator (e : SimulationEngine G) (exn : Exn) (r : TickResult) :
  (tick (set_narrator e None)).1 = inr r ->
  (tick (set_narrator e (Some (fun _ => Some exn)))).1 = inl exn /\
  (tick (set_narrator e (Some (fun _ => Some exn)))).2
  = set_narrator (tick (set_narrator e None)).2 (Some (fun _ => Some exn)).
Proof.
  intros Hr.
  destruct (tick_narrator_split (set_narrator e (Some (fun _ => Some exn))))
    as [Hstate Hout].
  rewrite set_narrator_twice in Hstate, Hout. rewrite Hr in Hout.
  by split.
Qed.

Lemma tick_current_day (e : SimulationEngine G) :
  current_day (tick e).2 = current_day e + 1.
Proof.
  unfold tick.
  destruct (age_manager e) as [am |]; [| done].
  destruct (AgeManager_tick am (rng e)) as [[transition am1] g1].
  destruct (god_system e) as [gs |]; [| done].
  destruct (generate_event _ _ g1) as [ev g2].
  destruct (match ev with Some _ => _ | None => _ end)
    as [[[citizens1 myths1] d1] g3].
  destruct (process_gods citizens1 _ d1 g3 gs) as [[[[born faded] d2] g4] gs1].
  destruct (save_citizens d2 citizens1) as [d3 citizens2].
  by destruct (narrator e) as [nar |]; [destruct (nar _) |].
Qed.

Lemma tick_initialized (e : SimulationEngine G) :
  is_Some (age_manager e) -> is_Some (god_system e) ->
  narrator e = None ->
  exists r, (tick e).1 = inr r /\ day r = current_day e + 1.
Proof.
  intros [am Ham] [gs Hgs] Hnar. unfold tick. rewrite Ham.
  destruct (AgeManager_tick am (rng e)) as [[transition am1] g1].
  rewrite Hgs.
  destruct (generate_event _ _ g1) as [ev g2].
  destruct (match ev with Some _ => _ | None => _ end)
    as [[[citizens1 myths1] d1] g3].
  destruct (process_gods citizens1 _ d1 g3 gs) as [[[[born faded] d2] g4] gs1].
  destruct (save_citizens d2 citizens1) as [d3 citizens2].
  rewrite Hnar. by eexists.
Qed.
End NarratorFacts.

(** Seed 12345 on an empty database without narrator and on a database
    that holds a god, with a narrator that returns. *)
Lemma same_seed_same_run_witness :
  quiet (Some silent_narrator) /\
  observe_run (simulate empty_db 12345 None 10 : Exn + list (Exn + TickResult))
  = observe_run (simulate sky_db 12345 (Some silent_narrator) 10).
Proof.
  assert (Hq : quiet (Some silent_narrator)) by (by intros f r [= <-]).
  split; [exact Hq |].
  refine (proj2 (same_seed_same_run (G := Z) empty_db sky_db None
                   (Some silent_narrator) 12345 10 _ Hq)).
  by intros f r.
Defined.

(** C8, at a failing input: the kernel of seed 12345 after a fresh genesis,
    with a narrator that raises.  Without a narrator the first tick returns
    its result; with the raising narrator the same tick raises the
    narrator's exception instead, although the engine it leaves behind is
    the engine of the completed tick and the day has advanced. *)
Theorem failing_narrator_aborts_tick :
  (exists r, (tick engine_12345).1 = inr r) /\
  (tick (set_narrator engine_12345 (Some failing_narrator))).1
  = inl (CallbackError "observer failed") /\
  (tick (set_narrator engine_12345 (Some failing_narrator))).2
  = set_narrator (tick engine_12345).2 (Some failing_narrator) /\
  current_day (tick (set_narrator engine_12345 (Some failing_narrator))).2 = 1.
Proof.
  assert (Hnone : set_narrator engine_12345 None = engine_12345)
    by (vm_compute; reflexivity).
  destruct (tick_initialized engine_12345) as (r & Hr & _).
  - vm_compute. by eexists.
  - vm_compute. by eexists.
  - vm_compute. reflexivity.
  - destruct (tick_failing_narrator engine_12345
                (CallbackError "observer failed") r) as [Hout Hstate].
    + by rewrite Hnone.
    + rewrite Hnone in Hstate. unfold failing_narrator.
      split; [by exists r |].
      split; [exact Hout |]. split; [exact Hstate |].
      rewrite tick_current_day. vm_compute. reflexivity.
Qed.

(** ** Belief aggregation *)

Lemma fold_left_Qplus (l : list Q) (a : Q) :
  (fold_left Qplus l a == a + foldr Qplus 0 l)%Q.
Proof.
  revert a. induction l as [| x l IH]; intros a; simpl.
  - ring.
  - rewrite IH. ring.
Qed.

Lemma Qsum_foldr (l : list Q) : (Qsum l == foldr Qplus 0 l)%Q.
Proof. unfold Qsum. rewrite fold_left_Qplus. ring. Qed.

Lemma foldr_Qplus_Qeq (l l' : list Q) :
  Forall2 Qeq l l' -> (foldr Qplus 0 l == foldr Qplus 0 l')%Q.
Proof.
  induction 1 as [| x y l l' Hxy _ IH]; simpl; [reflexivity |].
  by rewrite Hxy, IH.
Qed.

Lemma squared_deviations_Qeq (xs : list Q) (avg m : Q) :
  (avg == m)%Q ->
  Forall2 Qeq (map (fun b => (b - avg) ^ 2)%Q xs)
              (map (fun x => (x - m) * (x - m))%Q xs).
Proof.
  intros Havg. induction xs as [| x xs IH]; simpl; constructor; [| exact IH].
  rewrite Havg. reflexivity.
Qed.

Lemma aggregate_values (xs : list Q) :
  let avg := (Qsum xs / Qlen xs)%Q in
  let variance := (Qsum (map (fun b => (b - avg) ^ 2) xs) / Qlen xs)%Q in
  (avg == arithmetic_mean xs)%Q /\
  (Qmax 0.0 (1.0 - variance * 4) == Qmax 0 (1 - 4 * population_variance xs))%Q.
Proof.
  cbn zeta.
  assert (Hmean : (Qsum xs / Qlen xs == arithmetic_mean xs)%Q).
  { unfold arithmetic_mean, Qlen. by rewrite Qsum_foldr. }
  split; [exact Hmean |].
  apply Q.max_compat; [reflexivity |].
  unfold population_variance, arithmetic_mean at 1.
  rewrite length_map, Qsum_foldr.
  rewrite (foldr_Qplus_Qeq _ _ (squared_deviations_Qeq xs _ _ Hmean)).
  unfold Qlen. ring.
Qed.

Lemma aggregate_domain_mean (cs : list CitizenRow.t) (d : Domain) :
  cs <> [] ->
  (average_belief (aggregate_domain cs d)
   == arithmetic_mean (map (fun c => get_belief c d) cs))%Q /\
  (agg_coherence (aggregate_domain cs d)
   == Qmax 0 (1 - 4 * population_variance (map (fun c => get_belief c d) cs)))%Q.
Proof.
  intros Hne. destruct cs as [| c cs]; [done |].
  unfold aggregate_domain. cbn [map average_belief agg_coherence].
  apply (aggregate_values (get_belief c d :: map (fun c0 => get_belief c0 d) cs)).
Qed.

(** The populations the kernel aggregates over hold living citizens only. *)

Lemma save_citizens_alive (d : Database) (cs : list CitizenRow.t) :
  Forall (fun c => CitizenRow.alive c = true) cs ->
  Forall (fun c => CitizenRow.alive c = true) (save_citizens d cs).2.
Proof.
  intros Hcs. revert d. induction Hcs as [| c cs Hc _ IH]; intros d; simpl.
  - constructor.
  - pose proof (save_citizen_alive d c) as Ha.
    destruct (save_citizen d c) as [d1 c1]. specialize (IH d1).
    destruct (save_citizens d1 cs) as [d2 rest]. simpl in *.
    constructor; [congruence | done].
Qed.

Section LivingPopulation.
Context {G : Type} `{RandomGen G}.

Lemma tick_all_alive (e : SimulationEngine G) :
  Forall (fun c => CitizenRow.alive c = true) (_citizens e) ->
  Forall (fun c => CitizenRow.alive c = true) (_citizens (tick e).2).
Proof.
  intros Halive. unfold tick.
  destruct (age_manager e) as [am |]; [| done].
  destruct (AgeManager_tick am (rng e)) as [[transition am1] g1].
  destruct (god_system e) as [gs |]; [| done].
  destruct (generate_event _ _ g1) as [ev g2].
  set (stage := match ev with Some _ => _ | None => _ end).
  assert (Hstage : Forall (fun c => CitizenRow.alive c = true) stage.1.1.1).
  { subst stage. destruct ev as [ev |]; [| done].
    pose proof (_apply_event_identity ev (AgeManager_traits am1) (_factions e)
                  (_citizens e) g2) as Hident.
    destruct (_apply_event ev _ _ _ g2) as [cs ga].
    destruct (_create_myths ev _ _ _ ga) as [[ms da] gb].
    cbn [fst] in *. by eapply identity_alive. }
  destruct stage as [[[citizens1 myths1] d1] g3]. cbn [fst snd] in Hstage.
  destruct (process_gods citizens1 _ d1 g3 gs) as [[[[born faded] d2] g4] gs1].
  pose proof (save_citizens_alive d2 citizens1 Hstage) as Hsaved.
  destruct (save_citizens d2 citizens1) as [d3 citizens2].
  by destruct (narrator e) as [nar |]; [destruct (nar _) |].
Qed.

Lemma initialize_restore_alive (d : Database) (sd : Z) (nar : option Narrator)
  (e : SimulationEngine G) :
  initialize (SimulationEngine_init d sd nar) false = inr e ->
  Forall (fun c => CitizenRow.alive c = true) (_citizens e).
Proof.
  unfold initialize, get_world_state. cbn [db SimulationEngine_init].
  destruct (world_state d) as [state |].
  - unfold _restore_world. cbn [db _citizens _factions narrator god_system].
    match goal with
    | |- context [AgeManager_from_state ?a ?b] =>
        destruct (AgeManager_from_state a b) as [am |]; [| done]
    end.
    intros [= <-]. cbn [_citizens set_god_system app].
    unfold get_all_citizens. apply Forall_forall. intros c Hc.
    by apply list_elem_of_In, filter_In in Hc as [_ Hc].
  - destruct (_create_new_world _) as [exn | e1] eqn:Hworld; [done |].
    intros [= <-].
    apply _create_new_world_spec in Hworld as (new & Hcs & _ & Hall & _).
    cbn [_citizens set_god_system app] in *. rewrite Hcs.
    eapply Forall_impl; [exact Hall |]. by intros c (_ & ? & _).
Qed.

Lemma reachable_all_alive (e : SimulationEngine G) :
  reachable e -> Forall (fun c => CitizenRow.alive c = true) (_citizens e).
Proof.
  induction 1 as [d0 sd nar e Hinit | e _ IH | e e' sd nar _ IH Hinit
                  | e d level _ IH Hlevel].
  - apply initialize_fresh_spec in Hinit as (_ & Hall & _).
    eapply Forall_impl; [exact Hall |]. by intros c (_ & ? & _).
  - by apply tick_all_alive.
  - by eapply initialize_restore_alive.
  - cbn [_citizens set_population].
    eapply identity_alive; [apply force_belief_identity | exact IH].
Qed.
End LivingPopulation.

(** C9: over a population whose citizens are all alive (the only
    populations the kernel holds), the aggregation of a domain has as mean
    belief the arithmetic average of the living citizens' beliefs in that
    domain and as coherence max(0, 1 - 4 x variance), with the population
    variance of those same values; over an empty population both are 0. *)
Theorem belief_aggregation (cs : list CitizenRow.t) (d : Domain) :
  Forall (fun c => CitizenRow.alive c = true) cs ->
  let agg := agg_lookup (aggregate_beliefs cs) d in
  let beliefs := map (fun c => get_belief c d) (living_population cs) in
  (living_population cs <> [] ->
   (average_belief agg == arithmetic_mean beliefs)%Q /\
   (agg_coherence agg == Qmax 0 (1 - 4 * population_variance beliefs))%Q) /\
  (living_population cs = [] ->
   (average_belief agg == 0)%Q /\ (agg_coherence agg == 0)%Q).
Proof.
  intros Halive. cbn zeta. rewrite agg_lookup_aggregate.
  assert (Hliving : living_population cs = cs).
  { unfold living_population. apply forallb_filter_id, forallb_forall.
    intros c Hc. rewrite Forall_forall in Halive.
    apply Halive. by apply list_elem_of_In. }
  rewrite Hliving. split.
  - apply aggregate_domain_mean.
  - intros ->. by split.
Qed.

(** A population of three with beliefs 0.7, 0.2 and none in flame. *)
Lemma belief_aggregation_witness :
  Forall (fun c => CitizenRow.alive c = true)
    [forced_citizen flame 0.7; forced_citizen flame 0.2; loner] /\
  (average_belief
     (agg_lookup
        (aggregate_beliefs
           [forced_citizen flame 0.7; forced_citizen flame 0.2; loner]) flame)
   == arithmetic_mean [0.7; 0.2; 0])%Q /\
  (agg_coherence
     (agg_lookup
        (aggregate_beliefs
           [forced_citizen flame 0.7; forced_citizen flame 0.2; loner]) flame)
   == Qmax 0 (1 - 4 * population_variance [0.7; 0.2; 0]))%Q.
Proof.
  assert (Halive : Forall (fun c => CitizenRow.alive c = true)
            [forced_citizen flame 0.7; forced_citizen flame 0.2; loner])
    by (by repeat constructor).
  split; [exact Halive |].
  apply (proj1 (belief_aggregation
                  [forced_citizen flame 0.7; forced_citizen flame 0.2; loner]
                  flame Halive)).
  discriminate.
Defined.



(** * Further properties of the code *)

(** ** The cycle of ages *)

Lemma Age_of_value_Some (s : string) (a : Age) :
  Age_of_value s = Some a <-> Age_value a = s.
Proof.
  split.
  - intros Hfind. apply find_some in Hfind as [_ Hp].
    by apply bool_decide_eq_true in Hp.
  - intros <-. apply Age_of_value_value.
Qed.

Lemma Age_of_value_None (s : string) :
  Age_of_value s = None <-> forall a, Age_value a <> s.
Proof.
  split.
  - intros Hnone a Ha. apply Age_of_value_Some in Ha. congruence.
  - intros Hall. destruct (Age_of_value s) as [a |] eqn:E; [| done].
    apply Age_of_value_Some in E. by destruct (Hall a).
Qed.

(** X1: the successor of an age is a cyclic permutation of the six ages:
    six steps lead back to the start, no shorter walk does, and no two
    ages have the same successor. *)
Theorem age_cycle_order (a : Age) :
  Nat.iter 6 Age_next a = a /\
  (forall k, (0 < k < 6)%nat -> Nat.iter k Age_next a <> a) /\
  (forall b, Age_next a = Age_next b -> a = b).
Proof.
  split; [by destruct a |]. split.
  - intros k Hk.
    assert (Hcases : (k = 1 \/ k = 2 \/ k = 3 \/ k = 4 \/ k = 5)%nat) by lia.
    destruct Hcases as [-> | [-> | [-> | [-> | ->]]]]; by destruct a.
  - intros b. by destruct a, b.
Qed.

(** X2: rebuilding a clock from a persisted era name raises ValueError
    exactly when the name is the value of no age (the lookup is exact:
    case and spacing count); when it succeeds the clock is in the era of
    that name and has the given day counter. *)
Theorem from_state_unknown_era (age_name : string) (counter : Z) :
  (AgeManager_from_state age_name counter = None
   <-> forall a, Age_value a <> age_name) /\
  (forall m, AgeManager_from_state age_name counter = Some m ->
             Age_value (current_age m) = age_name /\ day_counter m = counter).
Proof.
  unfold AgeManager_from_state. split.
  - rewrite <- Age_of_value_None. by destruct (Age_of_value age_name).
  - intros m. destruct (Age_of_value age_name) as [a |] eqn:E; [| done].
    intros [= <-]. split; [| done]. by apply Age_of_value_Some.
Qed.

Section ClockRunFacts.
Context {G : Type} `{RandomGen G}.

Lemma AgeManager_tick_quiet (m : AgeManager) (g : G) :
  day_counter m + 1 < age_duration m ->
  AgeManager_tick m g
  = (None, {| current_age := current_age m; day_counter := day_counter m + 1;
              age_duration := age_duration m |}, g).
Proof.
  intros Hlt. unfold AgeManager_tick. cbn [day_counter age_duration].
  destruct (Z.geb_spec (day_counter m + 1) (age_duration m)); [lia | done].
Qed.

Lemma AgeManager_tick_turn (m : AgeManager) (g : G) :
  age_duration m <= day_counter m + 1 ->
  (AgeManager_tick m g).1.1 = Some (Age_next (current_age m)) /\
  current_age (AgeManager_tick m g).1.2 = Age_next (current_age m) /\
  day_counter (AgeManager_tick m g).1.2 = 0.
Proof.
  intros Hge. unfold AgeManager_tick. cbn [day_counter age_duration].
  destruct (Z.geb_spec (day_counter m + 1) (age_duration m)); [| lia].
  unfold AgeManager_transition. cbn [current_age].
  by destruct (randint _ _ g) as [duration g1].
Qed.

Lemma AgeManager_ticks_quiet (n : nat) (m : AgeManager) (g : G) :
  day_counter m + Z.of_nat n < age_duration m ->
  AgeManager_ticks n m g
  = (repeat None n,
     {| current_age := current_age m; day_counter := day_counter m + Z.of_nat n;
        age_duration := age_duration m |}, g).
Proof.
  revert m. induction n as [| n IH]; intros m Hlt.
  - cbn [AgeManager_ticks repeat]. rewrite Z.add_0_r. by destruct m.
  - cbn [AgeManager_ticks]. rewrite AgeManager_tick_quiet by lia.
    rewrite IH by (cbn; lia). cbn [repeat current_age day_counter age_duration].
    do 3 f_equal. lia.
Qed.

(** X3: a clock whose day counter is below its duration stays in its era
    for exactly duration - counter - 1 more ticks, which return no
    transition and draw nothing from the generator; the tick after them
    returns the next age of the cycle and resets the day counter to 0. *)
Theorem era_lasts_its_duration (m : AgeManager) (g : G) :
  day_counter m < age_duration m ->
  let k := Z.to_nat (age_duration m - day_counter m - 1) in
  let '(trs, m1, g1) := AgeManager_ticks k m g in
  trs = repeat None k /\ g1 = g /\
  current_age m1 = current_age m /\
  (AgeManager_tick m1 g1).1.1 = Some (Age_next (current_age m)) /\
  current_age (AgeManager_tick m1 g1).1.2 = Age_next (current_age m) /\
  day_counter (AgeManager_tick m1 g1).1.2 = 0.
Proof.
  intros Hlt k. rewrite AgeManager_ticks_quiet by lia. lazy beta iota.
  split; [done |]. split; [done |]. split; [reflexivity |].
  match goal with
  | |- context [AgeManager_tick ?m1 g] =>
      apply (AgeManager_tick_turn m1 g); cbn; lia
  end.
Qed.

(** X4: restoring does not keep the duration the era was given: a clock
    rebuilt from (era, counter) changes era max(1, min_days - counter)
    ticks later, so at the next tick once the counter has reached
    min_days - 1, whatever duration was drawn when the era began. *)
Theorem restored_clock_turns_early (a : Age) (counter : Z) (g : G) :
  let m := {| current_age := a; day_counter := counter;
              age_duration := Z.max (counter + 1) (min_days (AGE_TRAITS a)) |} in
  let k := Z.to_nat (Z.max 1 (min_days (AGE_TRAITS a) - counter) - 1) in
  AgeManager_from_state (Age_value a) counter = Some m /\
  (AgeManager_ticks k m g).1.1 = repeat None k /\
  (AgeManager_tick (AgeManager_ticks k m g).1.2 (AgeManager_ticks k m g).2).1.1
  = Some (Age_next a).
Proof.
  intros m k. split; [apply AgeManager_from_state_value |].
  rewrite AgeManager_ticks_quiet by (subst m k; cbn; lia).
  split; [done |]. cbn [fst snd].
  match goal with
  | |- context [AgeManager_tick ?m1 g] =>
      apply (AgeManager_tick_turn m1 g); subst m k; cbn; lia
  end.
Qed.
End ClockRunFacts.

(** An era of Order, three days old, drawn to last thirty days. *)
Lemma era_lasts_its_duration_witness :
  day_counter {| current_age := ORDER; day_counter := 3; age_duration := 30 |}
  < age_duration {| current_age := ORDER; day_counter := 3; age_duration := 30 |} /\
  (AgeManager_ticks 26
     {| current_age := ORDER; day_counter := 3; age_duration := 30 |}
     (12345 : Z)).1.1 = repeat None 26.
Proof.
  split; [cbn; lia |].
  pose proof (era_lasts_its_duration
                {| current_age := ORDER; day_counter := 3; age_duration := 30 |}
                (12345 : Z) ltac:(cbn; lia)) as Hera.
  cbn [current_age day_counter age_duration] in Hera.
  change (Z.to_nat (30 - 3 - 1)) with 26%nat in Hera.
  destruct (AgeManager_ticks 26 _ _) as [[trs m1] g1].
  exact (proj1 Hera).
Defined.


(** ** Generated names, samples and doctrines *)

Section GeneratorDraws.
Context {G : Type} `{RandomGen G}.

Lemma choice_elem {A : Type} (dflt : A) (seq : list A) (g : G) :
  seq <> [] -> (choice dflt seq g).1 ∈ seq.
Proof.
  intros Hne. unfold choice.
  pose proof (randbelow_lt (length seq) g) as Hlt.
  destruct (randbelow (length seq) g) as [i g1]. cbn [fst] in *.
  apply list_elem_of_In, nth_In, Hlt.
  destruct seq; [done | simpl; lia].
Qed.

(** X5: every generated name is built from the pools of the source: a
    citizen's name is a prefix followed by a suffix, a faction's name is
    "The", an adjective and a noun (so there are at most 64 faction names),
    and the name of a god starts with a prefix of the pool of its own
    domain. *)
Theorem generated_names_from_pools (d : Domain) (g : G) :
  (exists p s, p ∈ CITIZEN_PREFIXES /\ s ∈ CITIZEN_SUFFIXES /\
               (generate_citizen_name g).1 = p +:+ s) /\
  (exists a n, a ∈ FACTION_ADJECTIVES /\ n ∈ FACTION_NOUNS /\
               (generate_faction_name g).1 = "The " +:+ a +:+ " " +:+ n) /\
  (exists p s, p ∈ GOD_PREFIXES d /\ s ∈ GOD_SUFFIXES /\
               (generate_god_name d g).1 = p +:+ s).
Proof.
  split; [| split].
  - unfold generate_citizen_name.
    pose proof (choice_elem "" CITIZEN_PREFIXES g ltac:(done)) as Hp.
    destruct (choice "" CITIZEN_PREFIXES g) as [p g1].
    pose proof (choice_elem "" CITIZEN_SUFFIXES g1 ltac:(done)) as Hs.
    destruct (choice "" CITIZEN_SUFFIXES g1) as [s g2].
    by exists p, s.
  - unfold generate_faction_name.
    pose proof (choice_elem "" FACTION_ADJECTIVES g ltac:(done)) as Ha.
    destruct (choice "" FACTION_ADJECTIVES g) as [a g1].
    pose proof (choice_elem "" FACTION_NOUNS g1 ltac:(done)) as Hn.
    destruct (choice "" FACTION_NOUNS g1) as [n g2].
    by exists a, n.
  - unfold generate_god_name.
    pose proof (choice_elem "" (GOD_PREFIXES d) g ltac:(by destruct d)) as Hp.
    destruct (choice "" (GOD_PREFIXES d) g) as [p g1].
    pose proof (choice_elem "" GOD_SUFFIXES g1 ltac:(done)) as Hs.
    destruct (choice "" GOD_SUFFIXES g1) as [s g2].
    by exists p, s.
Qed.

(** The selection loop of [sample]: while the first [n] places of the pool
    hold pairwise distinct elements, the [k] elements drawn are pairwise
    distinct elements of those places. *)
Lemma sample_pool_distinct {A : Type} (dflt : A) (k : nat) :
  forall (pool : list A) (n : nat) (g : G),
  (k <= n <= length pool)%nat -> NoDup (take n pool) ->
  length (sample_pool dflt pool n k g).1 = k /\
  NoDup (sample_pool dflt pool n k g).1 /\
  (forall x, x ∈ (sample_pool dflt pool n k g).1 -> x ∈ take n pool).
Proof.
  induction k as [| k IH]; intros pool n g Hn Hnd.
  - cbn [sample_pool fst length]. split; [done |]. split; [constructor |].
    intros x Hx. by apply not_elem_of_nil in Hx.
  - cbn [sample_pool].
    pose proof (randbelow_lt n g ltac:(lia)) as Hj.
    destruct (randbelow n g) as [j g1]. cbn [fst] in Hj.
    set (x := nth j pool dflt).
    set (y := nth (n - 1) pool dflt).
    set (pool' := <[j := y]> pool).
    assert (Hx : pool !! j = Some x).
    { subst x. rewrite nth_lookup.
      destruct (lookup_lt_is_Some_2 pool j ltac:(lia)) as [z ->]. done. }
    assert (Hy : pool !! (n - 1)%nat = Some y).
    { subst y. rewrite nth_lookup.
      destruct (lookup_lt_is_Some_2 pool (n - 1) ltac:(lia)) as [z ->]. done. }
    assert (Hlook : forall i z, take (n - 1) pool' !! i = Some z ->
              (i < n - 1)%nat /\
              ((i = j /\ z = y) \/ (i <> j /\ pool !! i = Some z))).
    { intros i z Hi. apply lookup_take_Some in Hi as [Hi Hlt].
      split; [done |]. subst pool'.
      apply list_lookup_insert_Some in Hi as [(-> & -> & _) | [Hne Hi]]; auto. }
    assert (Htake : forall i z, (i < n)%nat -> pool !! i = Some z ->
              take n pool !! i = Some z).
    { intros i z Hi Hz. apply lookup_take_Some. done. }
    assert (Hnd' : NoDup (take (n - 1) pool')).
    { apply NoDup_alt. intros i1 i2 z H1 H2.
      apply Hlook in H1 as [Hi1 H1]. apply Hlook in H2 as [Hi2 H2].
      rewrite NoDup_alt in Hnd.
      destruct H1 as [[-> ->] | [Hne1 H1]], H2 as [[-> Hz] | [Hne2 H2]].
      - done.
      - exfalso. assert (i2 = (n - 1)%nat); [| lia].
        eapply Hnd; apply Htake; [| exact H2 | | exact Hy]; lia.
      - exfalso. subst z. assert (i1 = (n - 1)%nat); [| lia].
        eapply Hnd; apply Htake; [| exact H1 | | exact Hy]; lia.
      - eapply Hnd; apply Htake; [| exact H1 | | exact H2]; lia. }
    assert (Hlen' : length pool' = length pool)
      by (subst pool'; apply length_insert).
    destruct (IH pool' (n - 1)%nat g1 ltac:(lia) Hnd') as (Hlen & Hrest & Hsub).
    destruct (sample_pool dflt pool' (n - 1) k g1) as [rest g2].
    cbn [fst] in *.
    assert (Hin : forall z, z ∈ rest -> z ∈ take n pool /\ z <> x).
    { intros z Hz. apply Hsub in Hz.
      apply list_elem_of_lookup in Hz as [i Hi].
      apply Hlook in Hi as [Hi [[-> ->] | [Hne Hz]]].
      - split.
        + apply list_elem_of_lookup. exists (n - 1)%nat. apply Htake; [lia | done].
        + intros Hyx. rewrite NoDup_alt in Hnd.
          assert (j = (n - 1)%nat); [| lia].
          eapply Hnd; apply Htake; [| exact Hx | | rewrite Hy, Hyx; done]; lia.
      - split.
        + apply list_elem_of_lookup. exists i. apply Htake; [lia | done].
        + intros ->. rewrite NoDup_alt in Hnd. apply Hne.
          eapply Hnd; apply Htake; [| exact Hz | | exact Hx]; lia. }
    split; [simpl; by rewrite Hlen |]. split.
    + apply NoDup_cons. split; [| done].
      intros Hxin. by destruct (Hin x Hxin).
    + intros z Hz. apply elem_of_cons in Hz as [-> | Hz].
      * apply list_elem_of_lookup. exists j. by apply Htake.
      * by apply Hin.
Qed.

(** [sample] draws without replacement: from a population without
    repetition it returns [k] pairwise distinct members. *)
Lemma sample_whole_pool {A : Type} (dflt : A) (population : list A) (k : nat)
  (g : G) :
  NoDup population -> (k <= length population)%nat ->
  length (sample dflt population k g).1 = k /\
  NoDup (sample dflt population k g).1 /\
  (forall x, x ∈ (sample dflt population k g).1 -> x ∈ population).
Proof.
  intros Hnd Hk. unfold sample.
  pose proof (sample_pool_distinct dflt k population (length population) g
                ltac:(lia)) as Hpool.
  rewrite firstn_all in Hpool. by apply Hpool.
Qed.

(** The doctrine comprehension: one value per domain listed, in [a,b]. *)
Lemma uniform_vector_lookup (a b : Q) (ds : list Domain) (g : G) (d : Domain) :
  (a <= b)%Q ->
  match (uniform_vector a b ds g).1 !! d with
  | Some x => d ∈ ds /\ (a <= x)%Q /\ (x <= b)%Q
  | None => d ∉ ds
  end.
Proof.
  intros Hab. revert g. induction ds as [| d0 ds IH]; intros g; simpl.
  - rewrite lookup_empty. apply not_elem_of_nil.
  - pose proof (uniform_range a b g Hab) as Hu.
    destruct (uniform a b g) as [x g1]. specialize (IH g1).
    destruct (uniform_vector a b ds g1) as [m g2]. cbn [fst] in *.
    destruct (decide (d0 = d)) as [-> | Hne].
    + rewrite lookup_insert_eq. split; [by left | done].
    + rewrite lookup_insert_ne by done.
      destruct (m !! d) as [z |].
      * destruct IH as [Hin Hz]. split; [by right | done].
      * apply not_elem_of_cons. split; [congruence | done].
Qed.

Lemma favor_lookup (favored : list Domain) (doctrine : gmap Domain Q) (g : G)
  (d : Domain) :
  match (favor favored doctrine g).1 !! d with
  | Some x =>
      (d ∈ favored /\ (0.7 <= x)%Q /\ (x <= 1)%Q) \/
      ((d ∉ favored) /\ doctrine !! d = Some x)
  | None => (d ∉ favored) /\ doctrine !! d = None
  end.
Proof.
  revert doctrine g. induction favored as [| d0 rest IH]; intros doctrine g.
  - cbn [favor fst]. destruct (doctrine !! d) eqn:E.
    + right. split; [apply not_elem_of_nil | done].
    + split; [apply not_elem_of_nil | done].
  - cbn [favor].
    pose proof (uniform_range 0.7 1.0 g ltac:(lra)) as Hu.
    destruct (uniform 0.7 1.0 g) as [x g1]. cbn [fst] in Hu.
    specialize (IH (<[d0 := x]> doctrine) g1).
    destruct ((favor rest (<[d0 := x]> doctrine) g1).1 !! d) as [z |].
    + destruct IH as [(Hin & Hz) | (Hnot & Hz)].
      * left. split; [by right | done].
      * destruct (decide (d0 = d)) as [-> | Hne].
        -- rewrite lookup_insert_eq in Hz. injection Hz as <-.
           left. split; [by left |]. lra.
        -- rewrite lookup_insert_ne in Hz by done.
           right. split; [| done]. apply not_elem_of_cons. split; [congruence | done].
    + destruct IH as [Hnot Hz].
      destruct (decide (d0 = d)) as [-> | Hne].
      * by rewrite lookup_insert_eq in Hz.
      * rewrite lookup_insert_ne in Hz by done.
        split; [| done]. apply not_elem_of_cons. split; [congruence | done].
Qed.

(** The doctrine of a generated faction. *)
Lemma Faction_generate_spec (g : G) :
  FactionRow.id (Faction_generate g).1 = None /\
  exists favored : list Domain,
    NoDup favored /\ (1 <= length favored <= 2)%nat /\
    forall d : Domain,
      exists x, FactionRow.doctrine_bias (Faction_generate g).1 !! d = Some x /\
                get_bias (Faction_generate g).1 d = x /\
                if bool_decide (d ∈ favored)
                then (0.7 <= x)%Q /\ (x <= 1)%Q
                else (0.1 <= x)%Q /\ (x <= 0.4)%Q.
Proof.
  unfold Faction_generate.
  pose proof (fun d => uniform_vector_lookup 0.1 0.4 DOMAINS g d ltac:(lra))
    as Hkeys.
  destruct (uniform_vector 0.1 0.4 DOMAINS g) as [doctrine g1]. cbn [fst] in Hkeys.
  pose proof (randint_range 1 2 g1 ltac:(lia)) as Hk.
  destruct (randint 1 2 g1) as [k g2]. cbn [fst] in Hk.
  pose proof (sample_whole_pool river DOMAINS (Z.to_nat k) g2 DOMAINS_NoDup
                ltac:(simpl; lia)) as (Hlen & Hnd & _).
  destruct (sample river DOMAINS (Z.to_nat k) g2) as [favored g3]. cbn [fst] in *.
  pose proof (fun d => favor_lookup favored doctrine g3 d) as Hfav.
  destruct (favor favored doctrine g3) as [doctrine' g4]. cbn [fst] in Hfav.
  destruct (generate_faction_name g4) as [nm g5]. cbn [fst FactionRow.id].
  split; [done |]. exists favored.
  split; [done |]. split; [lia |].
  intros d. unfold get_bias. cbn [FactionRow.doctrine_bias].
  specialize (Hfav d). specialize (Hkeys d).
  destruct (doctrine' !! d) as [x |].
  - exists x. split; [done |]. split; [done |].
    destruct Hfav as [(Hin & Hx) | (Hnot & Hx)].
    + by rewrite bool_decide_eq_true_2.
    + rewrite bool_decide_eq_false_2 by done.
      rewrite Hx in Hkeys. by destruct Hkeys.
  - destruct Hfav as [_ Hnone]. rewrite Hnone in Hkeys.
    destruct Hkeys. apply DOMAINS_complete.
Qed.

(** X6: the doctrine of a generated faction has a weight for every domain
    (so [get_bias] never falls back to its default 0.5 on it); one or two
    distinct domains are favoured, with a weight in [0.7, 1.0], and every
    other domain has a weight in [0.1, 0.4]. *)
Theorem Faction_generate_doctrine (g : G) :
  FactionRow.id (Faction_generate g).1 = None /\
  exists favored : list Domain,
    NoDup favored /\ (1 <= length favored <= 2)%nat /\
    forall d : Domain,
      exists x, FactionRow.doctrine_bias (Faction_generate g).1 !! d = Some x /\
                get_bias (Faction_generate g).1 d = x /\
                if bool_decide (d ∈ favored)
                then (0.7 <= x)%Q /\ (x <= 1)%Q
                else (0.1 <= x)%Q /\ (x <= 0.4)%Q.
Proof. apply Faction_generate_spec. Qed.

(** X7: a generated citizen starts with a belief in [0, 0.3] for each of
    the six domains -- below the fade threshold and far below the birth
    threshold -- and with a fear and a gratitude in [0.1, 0.4]; it is alive
    and has no id until it is saved. *)
Theorem Citizen_generate_ranges (faction_id : option Z) (g : G) :
  let c := (Citizen_generate faction_id g).1 in
  (forall d, exists x, CitizenRow.belief_vector c !! d = Some x /\
                       (0 <= x)%Q /\ (x <= FADE_THRESHOLD)%Q) /\
  (0.1 <= CitizenRow.fear c)%Q /\ (CitizenRow.fear c <= 0.4)%Q /\
  (0.1 <= CitizenRow.gratitude c)%Q /\ (CitizenRow.gratitude c <= 0.4)%Q /\
  CitizenRow.faction_id c = faction_id /\
  CitizenRow.alive c = true /\ CitizenRow.id c = None.
Proof.
  unfold Citizen_generate.
  pose proof (fun d => uniform_vector_lookup 0 0.3 DOMAINS g d ltac:(lra)) as Hkeys.
  destruct (uniform_vector 0 0.3 DOMAINS g) as [bv g1].
  destruct (generate_citizen_name g1) as [nm g2].
  pose proof (uniform_range 0.1 0.4 g2 ltac:(lra)) as Hf.
  destruct (uniform 0.1 0.4 g2) as [f g3].
  pose proof (uniform_range 0.1 0.4 g3 ltac:(lra)) as Hg.
  destruct (uniform 0.1 0.4 g3) as [gr g4]. cbn [fst] in *. cbn zeta.
  cbn [CitizenRow.belief_vector CitizenRow.fear CitizenRow.gratitude
         CitizenRow.faction_id CitizenRow.alive CitizenRow.id].
  split; [| destruct Hf, Hg; by repeat split].
  intros d. specialize (Hkeys d). destruct (bv !! d) as [x |].
  - exists x. split; [done |]. unfold FADE_THRESHOLD. by destruct Hkeys.
  - destruct Hkeys. apply DOMAINS_complete.
Qed.
End GeneratorDraws.


(** ** Events *)

Lemma EVENT_TEMPLATES_ranges (d : Domain) (tpl : Template) :
  tpl ∈ EVENT_TEMPLATES d ->
  (-0.2 <= tpl.1.1.2)%Q /\ (tpl.1.1.2 <= 0.6)%Q /\
  (-0.5 <= tpl.1.2)%Q /\ (tpl.1.2 <= 0.6)%Q /\
  (0.2 <= tpl.2)%Q /\ (tpl.2 <= 0.6)%Q.
Proof.
  intros Hin.
  destruct d; unfold EVENT_TEMPLATES in Hin;
    repeat (apply elem_of_cons in Hin as [-> | Hin]);
    try (by apply not_elem_of_nil in Hin);
    cbn [fst snd]; repeat split; lra.
Qed.

Lemma AGE_EVENT_MODIFIERS_ranges (a : Age) :
  (-0.2 <= magnitude_boost (AGE_EVENT_MODIFIERS a))%Q /\
  (magnitude_boost (AGE_EVENT_MODIFIERS a) <= 0.3)%Q /\
  (-0.3 <= positive_bias (AGE_EVENT_MODIFIERS a))%Q /\
  (positive_bias (AGE_EVENT_MODIFIERS a) <= 0.2)%Q.
Proof. destruct a; cbn; repeat split; lra. Qed.

Section EventFacts.
Context {G : Type} `{RandomGen G}.

(** The ranges of a generated event. *)
Lemma generate_event_spec (age : Age) (rate : Q) (g : G) :
  match (generate_event age rate g).1 with
  | None => True
  | Some ev =>
      (0.1 <= magnitude ev)%Q /\ (magnitude ev <= 1)%Q /\
      (-1 <= fear_impact ev)%Q /\ (fear_impact ev <= 1)%Q /\
      (-1 <= gratitude_impact ev)%Q /\ (gratitude_impact ev <= 1)%Q /\
      (0 < belief_impact ev)%Q /\ (belief_impact ev <= 0.6)%Q /\
      secondary_domain ev <> Some (primary_domain ev) /\
      exists tpl, tpl ∈ EVENT_TEMPLATES (primary_domain ev) /\
                  ev_name ev = tpl.1.1.1.1 /\ description ev = tpl.1.1.1.2
  end.
Proof.
  unfold generate_event.
  destruct (random g) as [r g1]. destruct (Qgtb r rate); [done |].
  destruct (choice river DOMAINS g1) as [primary g2].
  match goal with
  | |- context [choice ?dflt (EVENT_TEMPLATES primary) g2] =>
      pose proof (choice_elem dflt (EVENT_TEMPLATES primary) g2
                    ltac:(by destruct primary)) as Htpl;
      destruct (choice dflt (EVENT_TEMPLATES primary) g2) as [tpl g3]
  end.
  cbn [fst] in Htpl.
  pose proof (EVENT_TEMPLATES_ranges primary tpl Htpl) as Hr.
  destruct tpl as [[[[nm desc] fear0] grat0] belief]. cbn [fst snd] in Hr.
  destruct (random g3) as [r2 g4].
  set (second := if Qltb r2 0.3 then _ else _).
  assert (Hsecond : second.1 <> Some primary).
  { subst second. destruct (Qltb r2 0.3); [| done].
    set (others := List.filter _ DOMAINS).
    pose proof (choice_elem river others g4 ltac:(by destruct primary)) as Hs.
    destruct (choice river others g4) as [s g']. cbn [fst] in *.
    intros [= ->]. subst others.
    apply list_elem_of_In, filter_In in Hs as [_ Hs].
    apply negb_true_iff, bool_decide_eq_false in Hs. done. }
  destruct second as [secondary g5]. cbn [fst] in Hsecond.
  pose proof (uniform_range (-0.2) 0.2 g5 ltac:(lra)) as Hu.
  destruct (uniform (-0.2) 0.2 g5) as [u g6]. cbn [fst] in Hu.
  pose proof (AGE_EVENT_MODIFIERS_ranges age) as Hm.
  set (mag := Qmax 0.1 (Qmin 1.0 (0.5 + u + magnitude_boost (AGE_EVENT_MODIFIERS age)))).
  assert (Hmag : (0.1 <= mag)%Q /\ (mag <= 1)%Q).
  { subst mag. split; [apply Q.le_max_l |].
    apply Q.max_lub; [lra |]. eapply Qle_trans; [apply Q.le_min_l | lra]. }
  clearbody mag.
  cbn [fst magnitude fear_impact gratitude_impact belief_impact
         secondary_domain primary_domain ev_name description].
  set (bias := positive_bias (AGE_EVENT_MODIFIERS age)) in *.
  destruct Hr as (Hf1 & Hf2 & Hg1 & Hg2 & Hb1 & Hb2).
  destruct Hm as (_ & _ & Hp1 & Hp2). destruct Hmag as [Hm1 Hm2].
  clearbody bias.
  assert (Hfear : (-0.24 <= fear0 - bias * 0.2)%Q /\ (fear0 - bias * 0.2 <= 0.66)%Q)
    by (split; lra).
  assert (Hgrat : (-0.56 <= grat0 + bias * 0.2)%Q /\ (grat0 + bias * 0.2 <= 0.64)%Q)
    by (split; lra).
  revert Hfear Hgrat.
  generalize (fear0 - bias * 0.2)%Q (grat0 + bias * 0.2)%Q. intros f1 g1' [? ?] [? ?].
  repeat split; try nra; try done.
  exists (nm, desc, fear0, grat0, belief). done.
Qed.

(** X8: every event the generator returns keeps the ranges its record
    documents -- magnitude in [0.1, 1], fear and gratitude impact in
    [-1, 1] -- has a positive belief impact of at most 0.6, takes its name
    and description from one template of its primary domain, and never has
    its primary domain as secondary domain; this for every age, rate and
    state of the generator. *)
Theorem generate_event_ranges (age : Age) (rate : Q) (g : G) :
  match (generate_event age rate g).1 with
  | None => True
  | Some ev =>
      (0.1 <= magnitude ev)%Q /\ (magnitude ev <= 1)%Q /\
      (-1 <= fear_impact ev)%Q /\ (fear_impact ev <= 1)%Q /\
      (-1 <= gratitude_impact ev)%Q /\ (gratitude_impact ev <= 1)%Q /\
      (0 < belief_impact ev)%Q /\ (belief_impact ev <= 0.6)%Q /\
      secondary_domain ev <> Some (primary_domain ev) /\
      exists tpl, tpl ∈ EVENT_TEMPLATES (primary_domain ev) /\
                  ev_name ev = tpl.1.1.1.1 /\ description ev = tpl.1.1.1.2
  end.
Proof. apply generate_event_spec. Qed.

(** X9: a disaster is one of six fixed omens, whatever the age it is asked
    for: fear impact at least 0.6, gratitude impact at most -0.4, belief
    impact in [0.5, 0.7], full magnitude, no secondary domain; no disaster
    has the river as its domain. *)
Theorem generate_disaster_severe (age : Age) (g : G) :
  let ev := (generate_disaster age g).1 in
  (0.6 <= fear_impact ev)%Q /\ (fear_impact ev <= 0.8)%Q /\
  (-0.7 <= gratitude_impact ev)%Q /\ (gratitude_impact ev <= -0.4)%Q /\
  (0.5 <= belief_impact ev)%Q /\ (belief_impact ev <= 0.7)%Q /\
  (magnitude ev == 1)%Q /\ secondary_domain ev = None /\
  primary_domain ev <> river /\
  generate_disaster age g = generate_disaster EMERGENCE g.
Proof.
  unfold generate_disaster. cbv zeta.
  match goal with
  | |- context [choice ?dflt ?l g] =>
      pose proof (choice_elem dflt l g ltac:(done)) as Hin;
      destruct (choice dflt l g) as [tpl g1]
  end.
  cbn [fst] in Hin.
  repeat (apply elem_of_cons in Hin as [-> | Hin]);
    try (by apply not_elem_of_nil in Hin);
    cbn [fst magnitude fear_impact gratitude_impact belief_impact
           secondary_domain primary_domain];
    repeat split; try lra; try done.
Qed.
End EventFacts.


(** ** Aggregated belief *)













(** ** The state of a run: tables and lists *)

Lemma same_but_gods_refl (d : Database) : same_but_gods d d.
Proof. by repeat split. Qed.

Lemma same_but_gods_trans (d1 d2 d3 : Database) :
  same_but_gods d1 d2 -> same_but_gods d2 d3 -> same_but_gods d1 d3.
Proof.
  intros (? & ? & ? & ?) (? & ? & ? & ?). repeat split; congruence.
Qed.

Lemma save_god_frame (d : Database) (g : GodRow.t) :
  same_but_gods d (save_god d g).1.
Proof. unfold save_god. by destruct (GodRow.id g). Qed.

Lemma fade_loop_frame aggs cur (l : list GodRow.t)
  (st : Database * list GodRow.t * list GodRow.t) :
  same_but_gods st.1.1 (fold_left (fade_step aggs cur) l st).1.1.
Proof.
  revert st. induction l as [| g l IH]; intros st; simpl.
  - apply same_but_gods_refl.
  - eapply same_but_gods_trans; [| apply IH].
    destruct st as [[d seen] faded]. unfold fade_step.
    destruct (update_existing_god _ cur g) as [g' is_faded].
    pose proof (save_god_frame d g') as Hs.
    by destruct (save_god d g') as [d' ?].
Qed.

Section RunFrames.
Context {G : Type} `{RandomGen G}.

Lemma birth_loop_frame living cur (l : list (Domain * BeliefAggregation))
  (st : Database * G * gmap Domain Z * list GodRow.t) :
  same_but_gods st.1.1.1 (fold_left (birth_step living cur) l st).1.1.1.
Proof.
  revert st. induction l as [| [d agg] l IH]; intros st; simpl.
  - apply same_but_gods_refl.
  - eapply same_but_gods_trans; [| apply IH].
    destruct st as [[[dbs g] proto] born]. unfold birth_step.
    case_bool_decide; [apply same_but_gods_refl |].
    destruct (_ && _); [| apply same_but_gods_refl].
    destruct (_ >=? _); [| apply same_but_gods_refl].
    destruct (God_birth d _ _ cur g) as [god g1].
    pose proof (save_god_frame dbs god) as Hs.
    by destruct (save_god dbs god) as [db1 god1].
Qed.

Lemma process_gods_frame cs cur (d : Database) (g : G) (gs : GodSystem) :
  same_but_gods d (process_gods cs cur d g gs).1.1.2.
Proof.
  unfold process_gods.
  pose proof (fade_loop_frame (aggregate_beliefs cs) cur
                (get_all_gods d true) (d, [], [])) as Hf.
  destruct (fold_left (fade_step _ cur) _ _) as [[d1 seen] faded].
  pose proof (birth_loop_frame
                (list_to_set (map GodRow.domain (List.filter GodRow.alive seen)))
                cur (aggregate_beliefs cs) (d1, g, _proto_god_days gs, [])) as Hb.
  destruct (fold_left (birth_step _ cur) _ _) as [[[d2 g2] proto] born].
  cbn [fst snd] in *. by eapply same_but_gods_trans.
Qed.

(** What [_create_myths] does: it appends the new myths to their table and
    touches no other table; every new myth is of the event's primary domain
    and of the given day, speaks for one of the factions and has that
    faction's weight of the domain as confidence. *)
Lemma _create_myths_spec ev cur (fs : list FactionRow.t) (d : Database) (g : G) :
  let r := _create_myths ev cur fs d g in
  myths r.1.2 = myths d ++ r.1.1 /\
  world_state r.1.2 = world_state d /\ factions r.1.2 = factions d /\
  (length r.1.1 <= length fs)%nat /\
  Forall (fun m =>
            MythRow.domain m = primary_domain ev /\
            MythRow.day_created m = cur /\
            is_Some (MythRow.id m) /\
            exists f, f ∈ fs /\ MythRow.faction_id m = FactionRow.id f /\
                      MythRow.confidence m = get_bias f (primary_domain ev) /\
                      MythRow.text m
                      = "The " +:+ FactionRow.name f +:+ " witnessed "
                          +:+ description ev)
         r.1.1.
Proof.
  revert d g. induction fs as [| f fs IH]; intros d g.
  - cbn. rewrite app_nil_r. repeat split; done.
  - cbn [_create_myths]. destruct (random g) as [r g1].
    destruct (Qltb r 0.3).
    + match goal with
      | |- context [save_myth d ?m] =>
          assert (Hs : save_myth d m
                       = (set_myths d
                            (myths d ++
                             [MythRow.set_id m
                                (Some (lastrowid (map MythRow.id (myths d))))]),
                          MythRow.set_id m
                            (Some (lastrowid (map MythRow.id (myths d))))))
            by reflexivity;
          rewrite Hs; clear Hs
      end.
      match goal with
      | |- context [_create_myths ev cur fs ?d1 g1] =>
          specialize (IH d1 g1); destruct (_create_myths ev cur fs d1 g1)
            as [[ms d2] g2]
      end.
      cbn [fst snd myths set_myths world_state factions length] in *.
      destruct IH as (Hm & Hw & Hf & Hlen & Hall).
      rewrite Hm, <- app_assoc.
      split; [done |]. split; [done |]. split; [done |]. split; [lia |].
      constructor.
      * cbn. repeat split; eauto. exists f. split; [by left | done].
      * eapply Forall_impl; [exact Hall |].
        intros m (? & ? & ? & f' & ? & ?). repeat split; try done.
        exists f'. split; [by right | done].
    + specialize (IH d g1). destruct (_create_myths ev cur fs d g1) as [[ms d2] g2].
      cbn [fst snd length] in *. destruct IH as (Hm & Hw & Hf & Hlen & Hall).
      split; [done |]. split; [done |]. split; [done |]. split; [lia |].
      eapply Forall_impl; [exact Hall |].
      intros m (? & ? & ? & f' & ? & ?). repeat split; try done.
      exists f'. split; [by right | done].
Qed.
End RunFrames.

Lemma save_citizen_tables (d : Database) (c : CitizenRow.t) :
  world_state (save_citizen d c).1 = world_state d /\
  factions (save_citizen d c).1 = factions d /\
  myths (save_citizen d c).1 = myths d.
Proof. unfold save_citizen. by destruct (CitizenRow.id c). Qed.

Lemma save_citizens_tables (d : Database) (cs : list CitizenRow.t) :
  world_state (save_citizens d cs).1 = world_state d /\
  factions (save_citizens d cs).1 = factions d /\
  myths (save_citizens d cs).1 = myths d.
Proof.
  revert d. induction cs as [| c cs IH]; intros d; simpl; [done |].
  pose proof (save_citizen_tables d c) as (Hw & Hf & Hm).
  destruct (save_citizen d c) as [d1 c1]. specialize (IH d1).
  destruct (save_citizens d1 cs) as [d2 rest]. cbn [fst snd] in *.
  destruct IH as (? & ? & ?). repeat split; congruence.
Qed.

(** Saving, row by row, a population whose ids are those of the table, in
    the order of the table, leaves the table equal to the population. *)
Lemma save_citizens_onto (cs : list CitizenRow.t) :
  forall (d : Database) (pre old : list CitizenRow.t),
  citizens d = pre ++ old ->
  map CitizenRow.id old = map CitizenRow.id cs ->
  NoDup (map CitizenRow.id (pre ++ old)) ->
  Forall (fun c => is_Some (CitizenRow.id c)) cs ->
  citizens (save_citizens d cs).1 = pre ++ cs.
Proof.
  induction cs as [| c cs IH]; intros d pre old Hd Hids Hnd Hsome.
  - destruct old; [| done]. by simpl.
  - destruct old as [| o old]; [done |]. cbn [map] in Hids.
    injection Hids as Hid Hids.
    apply Forall_cons in Hsome as [[i Hi] Hsome].
    cbn [save_citizens]. unfold save_citizen. rewrite Hi.
    assert (Hstep : update_where_id CitizenRow.id c (citizens d)
                    = (pre ++ [c]) ++ old).
    { rewrite Hd, update_where_id_app, update_where_id_cons.
      rewrite bool_decide_eq_true_2 by done.
      rewrite List.map_app in Hnd. cbn [map] in Hnd.
      apply NoDup_app in Hnd as (_ & Hdisj & Htail).
      apply NoDup_cons in Htail as [Ho _].
      rewrite !update_where_id_fresh; [by rewrite <- app_assoc | |].
      - by rewrite <- Hid.
      - rewrite <- Hid. intros Hin. apply (Hdisj _ Hin). by left. }
    match goal with
    | |- context [save_citizens ?d1 cs] =>
        specialize (IH d1 (pre ++ [c]) old);
        destruct (save_citizens d1 cs) as [d2 rest]
    end.
    cbn [fst snd citizens set_citizens] in *.
    rewrite IH; [by rewrite <- app_assoc | done | done | | done].
    rewrite <- app_assoc. cbn [app].
    rewrite List.map_app in *. cbn [map] in *. by rewrite <- Hid.
Qed.

Lemma save_citizens_sync (d : Database) (cs : list CitizenRow.t) :
  map CitizenRow.id (citizens d) = map CitizenRow.id cs ->
  NoDup (map CitizenRow.id cs) ->
  Forall (fun c => is_Some (CitizenRow.id c)) cs ->
  citizens (save_citizens d cs).1 = cs /\ (save_citizens d cs).2 = cs.
Proof.
  intros Hids Hnd Hsome. split; [| by apply save_citizens_identity].
  apply (save_citizens_onto cs d [] (citizens d)); try done.
  cbn [app]. by rewrite Hids.
Qed.


(** ** The state of a run: genesis, tick, restart *)

Lemma identity_population (cs cs' : list CitizenRow.t) :
  map citizen_identity cs' = map citizen_identity cs ->
  map CitizenRow.id cs' = map CitizenRow.id cs /\
  map CitizenRow.faction_id cs' = map CitizenRow.faction_id cs /\
  (Forall (fun c => CitizenRow.alive c = true) cs ->
   Forall (fun c => CitizenRow.alive c = true) cs') /\
  (Forall (fun c => is_Some (CitizenRow.id c)) cs ->
   Forall (fun c => is_Some (CitizenRow.id c)) cs').
Proof.
  intros Hident. split; [| split; [| split]].
  - apply (f_equal (map (fun i : option Z * string * option Z * bool => i.1.1.1)))
      in Hident.
    by rewrite !List.map_map in Hident.
  - apply (f_equal (map (fun i : option Z * string * option Z * bool => i.1.2)))
      in Hident.
    by rewrite !List.map_map in Hident.
  - by apply identity_alive.
  - by apply identity_has_id.
Qed.

Lemma population_wf_identity (cs cs' : list CitizenRow.t) :
  map citizen_identity cs' = map citizen_identity cs ->
  Forall citizen_in_range cs' ->
  population_wf cs -> population_wf cs'.
Proof.
  intros Hident Hrange (_ & Halive & Hsome & Hnd).
  apply identity_population in Hident as (Hids & _ & Ha & Hs).
  split; [done |]. split; [by apply Ha |]. split; [by apply Hs |].
  by rewrite Hids.
Qed.

Lemma population_wf_nil : population_wf [].
Proof. repeat split; constructor. Qed.

Lemma population_wf_snoc (cs : list CitizenRow.t) (c : CitizenRow.t) :
  population_wf cs ->
  citizen_in_range c -> CitizenRow.alive c = true ->
  CitizenRow.id c = Some (lastrowid (map CitizenRow.id cs)) ->
  population_wf (cs ++ [c]).
Proof.
  intros (Hrange & Halive & Hsome & Hnd) Hc Ha Hid.
  split; [| split; [| split]].
  - apply Forall_app. split; [done | by constructor].
  - apply Forall_app. split; [done | by constructor].
  - apply Forall_app. split; [done |]. constructor; [| done]. rewrite Hid. eauto.
  - rewrite List.map_app. apply NoDup_app. split; [done |].
    split; [| apply NoDup_singleton].
    intros i Hi Hi'. cbn in Hi'. apply list_elem_of_singleton in Hi'. subst i.
    rewrite Hid in Hi. by apply lastrowid_fresh in Hi.
Qed.

Section GenesisState.
Context {G : Type} `{RandomGen G}.

Lemma Citizen_generate_fresh (fid : option Z) (g : G) :
  CitizenRow.id (Citizen_generate fid g).1 = None /\
  CitizenRow.faction_id (Citizen_generate fid g).1 = fid.
Proof.
  unfold Citizen_generate.
  destruct (uniform_vector 0 0.3 DOMAINS g) as [bv g1].
  destruct (generate_citizen_name g1) as [nm g2].
  destruct (uniform 0.1 0.4 g2) as [f g3].
  by destruct (uniform 0.1 0.4 g3) as [gr g4].
Qed.

Lemma create_citizens_state (n : nat) (fid : option Z) :
  forall (d : Database) (g : G) (cs : list CitizenRow.t),
  citizens d = cs -> population_wf cs ->
  citizens (create_citizens n fid (d, g, cs)).1.1
  = (create_citizens n fid (d, g, cs)).2 /\
  population_wf (create_citizens n fid (d, g, cs)).2 /\
  world_state (create_citizens n fid (d, g, cs)).1.1 = world_state d /\
  factions (create_citizens n fid (d, g, cs)).1.1 = factions d /\
  myths (create_citizens n fid (d, g, cs)).1.1 = myths d /\
  exists new,
    (create_citizens n fid (d, g, cs)).2 = cs ++ new /\ length new = n /\
    Forall (fun c => CitizenRow.faction_id c = fid) new.
Proof.
  induction n as [| n IH]; intros d g cs Hd Hwf.
  - cbn [create_citizens fst snd]. split; [done |]. split; [done |].
    split; [done |]. split; [done |]. split; [done |].
    exists []. by rewrite app_nil_r.
  - cbn [create_citizens].
    pose proof (Citizen_generate_in_range fid g) as Hrange.
    pose proof (Citizen_generate_alive fid g) as Halive.
    pose proof (Citizen_generate_fresh fid g) as [Hid Hfid].
    destruct (Citizen_generate fid g) as [c g1]. cbn [fst] in *.
    unfold save_citizen. rewrite Hid.
    set (c1 := CitizenRow.set_id c _).
    assert (Hwf1 : population_wf (cs ++ [c1])).
    { apply population_wf_snoc; try done. subst c1. cbn. by rewrite Hd. }
    specialize (IH (set_citizens d (citizens d ++ [c1])) g1 (cs ++ [c1])
                  ltac:(cbn; by rewrite Hd) Hwf1).
    destruct IH as (Hc & Hp & Hw & Hf & Hm & new & Hnew & Hlen & Hall).
    split; [done |]. split; [done |]. split; [done |]. split; [done |].
    split; [done |].
    exists (c1 :: new). rewrite Hnew, <- app_assoc.
    split; [done |]. split; [simpl; by rewrite Hlen |]. by constructor.
Qed.

Lemma create_factions_state (n : nat) :
  forall (d : Database) (g : G) (fs : list FactionRow.t) (cs : list CitizenRow.t)
         d' g' fs' cs',
  create_factions n (d, g, fs, cs) = inr (d', g', fs', cs') ->
  factions d = fs -> Forall faction_wf fs ->
  citizens d = cs -> population_wf cs ->
  factions d' = fs' /\ Forall faction_wf fs' /\
  citizens d' = cs' /\ population_wf cs' /\
  world_state d' = world_state d /\ myths d' = myths d.
Proof.
  induction n as [| n IH]; intros d g fs cs d' g' fs' cs' Hcreate Hf Hfwf Hc Hwf.
  - cbn in Hcreate. by injection Hcreate as <- <- <- <-.
  - cbn [create_factions] in Hcreate.
    pose proof (Faction_generate_spec g) as (Hid & favored & _ & _ & Hbias).
    destruct (Faction_generate g) as [faction g1]. cbn [fst] in *.
    unfold save_faction in Hcreate. rewrite Hid in Hcreate.
    case_bool_decide; [done |].
    set (f1 := FactionRow.set_id faction _) in Hcreate.
    set (d1 := set_factions d (factions d ++ [f1])) in Hcreate.
    pose proof (create_citizens_state INITIAL_CITIZENS_PER_FACTION
                  (FactionRow.id f1) d1 g1 cs Hc Hwf)
      as (Hc2 & Hwf2 & Hw2 & Hf2 & Hm2 & _).
    destruct (create_citizens INITIAL_CITIZENS_PER_FACTION (FactionRow.id f1)
                (d1, g1, cs)) as [[d2 g2] cs2].
    cbn [fst snd] in *.
    assert (Hf1 : faction_wf f1).
    { split; [subst f1; cbn; eauto |]. intros dom.
      destruct (Hbias dom) as (x & _ & Hx & Hr).
      change (get_bias f1 dom) with (get_bias faction dom). rewrite Hx.
      destruct (bool_decide _); lra. }
    destruct (IH d2 g2 (fs ++ [f1]) cs2 d' g' fs' cs' Hcreate)
      as (? & ? & ? & ? & Hw & Hm); try done.
    + rewrite Hf2. subst d1. cbn. by rewrite Hf.
    + apply Forall_app. split; [done | by constructor].
    + split; [done |]. split; [done |]. split; [done |]. split; [done |].
      split; [by rewrite Hw, Hw2 | by rewrite Hm, Hm2].
Qed.

Lemma initialize_fresh_state (d0 : Database) (sd : Z) (nar : option Narrator)
  (e : SimulationEngine G) :
  initialize (SimulationEngine_init d0 sd nar) true = inr e ->
  (exists am,
     age_manager e = Some am /\ clock_in_bounds am /\
     world_state (db e) = Some (world_state_row 0 am sd)) /\
  god_system e = Some GodSystem_init /\
  current_day e = 0 /\ seed e = sd /\
  citizens (db e) = _citizens e /\ population_wf (_citizens e) /\
  factions (db e) = _factions e /\ Forall faction_wf (_factions e) /\
  myths (db e) = [].
Proof.
  unfold initialize. cbn [db SimulationEngine_init set_db clear_all
                            get_world_state world_state].
  unfold _create_new_world.
  cbn [rng db seed _factions _citizens narrator god_system set_db
         SimulationEngine_init clear_all].
  pose proof (new_in_bounds (Random sd)) as Hclock.
  destruct (AgeManager_new (Random sd)) as [am g1]. cbn [fst] in Hclock.
  destruct (create_factions INITIAL_FACTIONS _)
    as [exn | [[[d2 g2] fs] cs]] eqn:Hcreate; [done |].
  apply create_factions_state in Hcreate
    as (Hf & Hfwf & Hc & Hwf & Hw & Hm);
    [| done | constructor | done | apply population_wf_nil].
  pose proof (create_citizens_state UNAFFILIATED_CITIZENS None d2 g2 cs Hc Hwf)
    as (Hc3 & Hwf3 & Hw3 & Hf3 & Hm3 & _).
  destruct (create_citizens UNAFFILIATED_CITIZENS None (d2, g2, cs))
    as [[d3 g3] cs3].
  cbn [fst snd] in *. intros [= <-].
  cbn [age_manager god_system current_day seed db _citizens _factions
         set_god_system citizens factions myths world_state save_world_state].
  split; [by exists am |]. split; [done |]. split; [done |]. split; [done |].
  split; [done |]. split; [done |]. split; [by rewrite Hf3 |].
  split; [done |]. by rewrite Hm3, Hm.
Qed.
End GenesisState.


(** ** One tick, stage by stage *)

Section TickStages.
Context {G : Type} `{RandomGen G}.

(** The stages of a tick of an initialised engine, each with its result. *)
Lemma tick_stages (e : SimulationEngine G) (am : AgeManager) (gs : GodSystem) :
  age_manager e = Some am -> god_system e = Some gs ->
  exists transition am1 g1 ev g2 cs1 ms1 d1 g3 born faded d2 g4 gs1 d3 cs2,
    AgeManager_tick am (rng e) = (transition, am1, g1) /\
    generate_event (current_age am1) (event_rate (AgeManager_traits am1)) g1
    = (ev, g2) /\
    match ev with
    | Some ev' =>
        exists ga,
          _apply_event ev' (AgeManager_traits am1) (_factions e) (_citizens e) g2
          = (cs1, ga) /\
          _create_myths ev' (current_day e + 1) (_factions e) (db e) ga
          = (ms1, d1, g3)
    | None => cs1 = _citizens e /\ ms1 = [] /\ d1 = db e /\ g3 = g2
    end /\
    process_gods cs1 (current_day e + 1) d1 g3 gs = (born, faded, d2, g4, gs1) /\
    save_citizens d2 cs1 = (d3, cs2) /\
    (tick e).2
    = {| db := save_world_state d3
                 (world_state_row (current_day e + 1) am1 (seed e));
         seed := seed e; rng := g4; narrator := narrator e;
         age_manager := Some am1; god_system := Some gs1;
         current_day := current_day e + 1; _factions := _factions e;
         _citizens := cs2 |} /\
    tick_outcome e
    = Some {| day := current_day e + 1; age := current_age am1; event := ev;
              age_transition := transition; born_gods := born;
              faded_gods := faded; new_myths := ms1 |}.
Proof.
  intros Ham Hgs. unfold tick_outcome, tick.
  cbn [age_manager god_system set_narrator rng current_day _factions _citizens
         db seed narrator].
  rewrite Ham, Hgs.
  destruct (AgeManager_tick am (rng e)) as [[transition am1] g1] eqn:Hclk.
  destruct (generate_event _ _ g1) as [ev g2] eqn:Hev.
  exists transition, am1, g1, ev, g2.
  destruct ev as [ev |].
  - destruct (_apply_event ev _ _ _ g2) as [cs ga] eqn:Happly.
    destruct (_create_myths ev _ _ _ ga) as [[ms da] gb] eqn:Hmyths.
    destruct (process_gods cs _ da gb gs) as [[[[born faded] d2] g4] gs1] eqn:Hp.
    destruct (save_citizens d2 cs) as [d3 cs2] eqn:Hsave.
    exists cs, ms, da, gb, born, faded, d2, g4, gs1, d3, cs2.
    split; [done |]. split; [done |]. split; [by exists ga |].
    split; [done |]. split; [done |].
    split; [| done]. by destruct (narrator e) as [nar |]; [destruct (nar _) |].
  - destruct (process_gods (_citizens e) _ (db e) g2 gs)
      as [[[[born faded] d2] g4] gs1] eqn:Hp.
    destruct (save_citizens d2 (_citizens e)) as [d3 cs2] eqn:Hsave.
    exists (_citizens e), [], (db e), g2, born, faded, d2, g4, gs1, d3, cs2.
    split; [done |]. split; [done |]. split; [done |].
    split; [done |]. split; [done |].
    split; [| done]. by destruct (narrator e) as [nar |]; [destruct (nar _) |].
Qed.

(** [tick] returns the result it assembled, unless the narrator raises. *)
Lemma tick_outcome_returned (e : SimulationEngine G) (r : TickResult) :
  (tick e).1 = inr r -> tick_outcome e = Some r.
Proof.
  intros Hr. unfold tick_outcome.
  destruct (tick_narrator_split e) as [_ Hsplit]. rewrite Hsplit in Hr.
  destruct (tick (set_narrator e None)).1 as [exn | r']; [done |].
  destruct (narrator e) as [nar |]; [destruct (nar r') |]; congruence.
Qed.

Lemma tick_outcome_quiet (e : SimulationEngine G) (r : TickResult) :
  quiet (narrator e) -> tick_outcome e = Some r -> (tick e).1 = inr r.
Proof.
  intros Hq Hr. rewrite tick_quiet by done. unfold tick_outcome in Hr.
  destruct (tick (set_narrator e None)).1; congruence.
Qed.

Lemma tick_run_inv (e : SimulationEngine G) :
  run_inv e ->
  run_inv (tick e).2 /\ citizens (db (tick e).2) = _citizens (tick e).2.
Proof.
  intros (Hk & (am & gs & Ham & Hgs & Hclock & Hstreaks & Hworld) & Hday
          & Hpop & Hdbpop & Hids & Hfactions & Hfwf).
  pose proof (tick_kernel_inv e Hk) as Hk'.
  destruct (tick_stages e am gs Ham Hgs)
    as (transition & am1 & g1 & ev & g2 & cs1 & ms1 & d1 & g3 & born & faded
        & d2 & g4 & gs1 & d3 & cs2 & Hclk & Hev & Hstage & Hp & Hsave & He' & _).
  assert (Hstage' : map citizen_identity cs1 = map citizen_identity (_citizens e) /\
                    Forall citizen_in_range cs1 /\
                    gods d1 = gods (db e) /\ citizens d1 = citizens (db e) /\
                    factions d1 = factions (db e)).
  { destruct Hk as (_ & _ & Hrange & _).
    destruct ev as [ev |].
    - destruct Hstage as (ga & Happly & Hmyths).
      pose proof (_apply_event_identity ev (AgeManager_traits am1) (_factions e)
                    (_citizens e) g2) as Hident.
      pose proof (_apply_event_in_range ev (AgeManager_traits am1) (_factions e)
                    (_citizens e) g2 Hrange) as Hr.
      rewrite Happly in Hident, Hr.
      pose proof (_create_myths_frame ev (current_day e + 1) (_factions e)
                    (db e) ga) as [Hg Hc].
      pose proof (_create_myths_spec ev (current_day e + 1) (_factions e)
                    (db e) ga) as (_ & _ & Hf & _).
      rewrite Hmyths in Hg, Hc, Hf. done.
    - by destruct Hstage as (-> & _ & -> & _). }
  destruct Hstage' as (Hident & Hrange1 & Hg1 & Hc1 & Hf1).
  pose proof (population_wf_identity _ _ Hident Hrange1 Hpop) as Hpop1.
  pose proof (proj1 (identity_population _ _ Hident)) as Hids1.
  pose proof (process_gods_frame cs1 (current_day e + 1) d1 g3 gs)
    as (Hw2 & Hf2 & Hc2 & _).
  destruct Hk as (Hwf & _).
  pose proof (process_gods_streaks_bounded cs1 (current_day e + 1) d1 g3 gs
                ltac:(by rewrite Hg1) ltac:(by rewrite Hg1)) as Hstreaks2.
  rewrite Hp in Hw2, Hf2, Hc2, Hstreaks2. cbn [fst snd] in *.
  destruct Hpop1 as (Hr1 & Ha1 & Hs1 & Hnd1).
  destruct (save_citizens_sync d2 cs1) as [Hc3 Hcs2]; try done.
  { by rewrite Hc2, Hc1, Hids, Hids1. }
  pose proof (save_citizens_tables d2 cs1) as (_ & Hf3 & _).
  pose proof (save_citizens_gods d2 cs1) as Hg3.
  rewrite Hsave in Hc3, Hcs2, Hf3, Hg3. cbn [fst snd] in *. subst cs2.
  pose proof (tick_in_bounds am (rng e) Hclock) as Hclock1.
  rewrite Hclk in Hclock1. cbn [fst snd] in Hclock1.
  rewrite He' in Hk' |- *.
  cbn [db _citizens citizens save_world_state]. split; [| done].
  split; [exact Hk' |]. split.
  { exists am1, gs1. cbn [age_manager god_system db gods world_state
                           save_world_state current_day seed].
    split; [done |]. split; [done |]. split; [done |].
    split; [by rewrite Hg3 | done]. }
  cbn [current_day _citizens db citizens factions _factions save_world_state].
  split; [lia |]. split; [done |]. rewrite Hc3.
  split; [done |]. split; [done |]. split; [congruence | done].
Qed.

Lemma restore_run_inv (e e' : SimulationEngine G) (sd : Z)
  (nar : option Narrator) :
  run_inv e ->
  initialize (SimulationEngine_init (db e) sd nar) false = inr e' ->
  run_inv e' /\ citizens (db e') = _citizens e' /\
  db e' = db e /\ _citizens e' = citizens (db e) /\ _factions e' = _factions e /\
  current_day e' = current_day e /\ seed e' = seed e /\ narrator e' = nar /\
  god_system e' = Some GodSystem_init /\
  exists am am',
    age_manager e = Some am /\ age_manager e' = Some am' /\
    current_age am' = current_age am /\ day_counter am' = day_counter am /\
    age_duration am' = Z.max (day_counter am + 1)
                             (min_days (AGE_TRAITS (current_age am))).
Proof.
  intros (Hk & (am & gs & Ham & Hgs & Hclock & Hstreaks & Hworld) & Hday
          & Hpop & Hdbpop & Hids & Hfactions & Hfwf) Hinit.
  pose proof (initialize_restore_spec _ _ _ _ Hinit) as [Hgods Hrange].
  revert Hinit. unfold initialize, get_world_state.
  cbn [db SimulationEngine_init]. rewrite Hworld.
  unfold _restore_world.
  cbn [WorldStateRow.current_age WorldStateRow.age_day_counter world_state_row
         WorldStateRow.seed WorldStateRow.current_day db _factions _citizens
         narrator god_system SimulationEngine_init].
  rewrite AgeManager_from_state_value.
  set (am' := {| current_age := current_age am; day_counter := day_counter am;
                 age_duration := _ |}).
  intros [= <-].
  cbn [db _citizens _factions current_day seed narrator god_system age_manager
         set_god_system app].
  assert (Halive : List.filter CitizenRow.alive (citizens (db e))
                   = citizens (db e)).
  { apply forallb_filter_id, forallb_forall.
    intros c Hc. destruct Hdbpop as (_ & Ha & _).
    rewrite Forall_forall in Ha. apply Ha. by apply list_elem_of_In. }
  unfold set_god_system. cbn [db seed rng narrator age_manager current_day
                                _factions _citizens].
  rewrite Halive. unfold get_all_factions.
  split; [| split; [done |]; split; [done |]; split; [done |];
            split; [done |]; split; [done |]; split; [done |];
            split; [done |]; split; [done |]; by exists am, am'].
  destruct Hk as (Hwf & Hnd & Hcs & Hdb).
  split; [unfold kernel_inv; cbn [db _citizens]; done |]. split.
  { exists am', GodSystem_init.
    cbn [age_manager god_system db current_day seed].
    split; [done |]. split; [done |].
    split; [by eapply from_state_in_bounds; [exact Hclock | apply AgeManager_from_state_value] |].
    split; [| done]. destruct Hstreaks as [_ Htable]. split; [| done].
    intros d. rewrite GodSystem_init_bounded. unfold CONSECUTIVE_DAYS_BIRTH. lia. }
  cbn [current_day _citizens db _factions].
  split; [done |]. split; [done |]. split; [done |]. split; [done |].
  split; [done |]. by rewrite Hfactions.
Qed.

Lemma force_run_inv (e : SimulationEngine G) (d : Domain) (level : Q) :
  run_inv e -> in_unit level ->
  run_inv (set_population e (force_belief_for_domain (_citizens e) d level)).
Proof.
  intros (Hk & Hinit & Hday & Hpop & Hdbpop & Hids & Hfactions & Hfwf) Hlevel.
  destruct Hk as (Hwf & Hnd & Hcs & Hdb).
  pose proof (force_belief_in_range (_citizens e) d level Hlevel Hcs) as Hrange.
  pose proof (force_belief_identity (_citizens e) d level) as Hident.
  split; [unfold kernel_inv; cbn [db _citizens set_population]; done |].
  cbn [age_manager god_system db current_day seed _citizens _factions
         set_population].
  split; [done |]. split; [done |].
  split; [by eapply population_wf_identity |]. split; [done |].
  split; [| done].
  rewrite Hids. symmetry. by apply identity_population.
Qed.

Lemma reachable_run_inv (e : SimulationEngine G) : reachable e -> run_inv e.
Proof.
  induction 1 as [d0 sd nar e Hinit | e _ IH | e e' sd nar _ IH Hinit
                  | e d level _ IH Hlevel].
  - pose proof (reachable_kernel_inv e (reach_genesis _ _ _ _ Hinit)) as Hk.
    pose proof (initialize_fresh_spec _ _ _ _ Hinit) as (_ & _ & _ & Hgods & _).
    apply initialize_fresh_state in Hinit
      as ((am & Ham & Hclock & Hworld) & Hgs & Hday & Hseed & Hc & Hpop
          & Hf & Hfwf & _).
    split; [done |]. split.
    { exists am, GodSystem_init. rewrite Hday, Hseed, Hgods.
      split; [done |]. split; [done |]. split; [done |]. split; [| done].
      split; [| constructor].
      intros d. rewrite GodSystem_init_bounded. unfold CONSECUTIVE_DAYS_BIRTH. lia. }
    rewrite Hc. split; [lia |]. done.
  - by apply tick_run_inv.
  - by eapply restore_run_inv.
  - by apply force_run_inv.
Qed.

End TickStages.


(** ** Beliefs only grow *)

Lemma clamp01_mono (x y : Q) : (x <= y)%Q -> (clamp01 x <= clamp01 y)%Q.
Proof.
  intros Hxy. unfold clamp01.
  apply Q.max_le_compat_l, Q.min_le_compat_l, Hxy.
Qed.

Lemma clamp01_id (x : Q) : in_unit x -> (clamp01 x == x)%Q.
Proof.
  intros [H0 H1]. unfold clamp01.
  rewrite Q.min_r by done. by rewrite Q.max_r.
Qed.

Lemma update_belief_mono (c : CitizenRow.t) (d : Domain) (delta bias : Q) :
  in_unit (get_belief c d) -> (0 <= delta * bias)%Q ->
  forall d', (get_belief c d' <= get_belief (update_belief c d delta bias) d')%Q.
Proof.
  intros Hin Hpos d'. destruct (decide (d = d')) as [<- | Hne].
  - rewrite get_belief_update_same.
    rewrite <- (clamp01_id (get_belief c d)) at 1 by done.
    apply clamp01_mono. lra.
  - rewrite get_belief_update_other by done. lra.
Qed.

Lemma get_belief_update_emotion (c : CitizenRow.t) (fd gd : Q) (d : Domain) :
  get_belief (update_emotion c fd gd) d = get_belief c d.
Proof. done. Qed.

Lemma find_faction_bias_nonneg (fs : list FactionRow.t) (fid : option Z)
  (d : Domain) (dflt : Q) :
  Forall faction_wf fs -> (0 <= dflt)%Q ->
  (0 <= find_faction_bias fs fid d dflt)%Q.
Proof.
  intros Hfs Hd. induction Hfs as [| f fs [_ Hf] _ IH]; simpl; [done |].
  case_bool_decide; [apply Hf | done].
Qed.

Lemma faction_bias_of_nonneg (fs : list FactionRow.t) (c : CitizenRow.t)
  (d : Domain) :
  Forall faction_wf fs -> (0 <= faction_bias_of fs c d)%Q.
Proof.
  intros Hfs. unfold faction_bias_of.
  destruct (truthy _); [apply find_faction_bias_nonneg; [done | lra] | lra].
Qed.

Lemma AGE_TRAITS_growth (a : Age) : (0 < belief_growth (AGE_TRAITS a))%Q.
Proof. destruct a; cbn; lra. Qed.

Section BeliefGrowth.
Context {G : Type} `{RandomGen G}.

Lemma apply_event_to_mono ev traits fs (c : CitizenRow.t) (g : G) :
  citizen_in_range c -> Forall faction_wf fs ->
  (0 <= belief_impact ev)%Q -> (0 <= belief_growth traits)%Q ->
  forall d, (get_belief c d <= get_belief (apply_event_to ev traits fs c g).1 d)%Q.
Proof.
  intros Hc Hfs Himpact Hgrowth d. unfold apply_event_to.
  pose proof (faction_bias_of_nonneg fs c (primary_domain ev) Hfs) as Hbias.
  set (bias := faction_bias_of fs c (primary_domain ev)) in *. clearbody bias.
  pose proof (random_unit g) as [Hr1 _].
  destruct (random g) as [r1 g1]. cbn [fst] in Hr1.
  destruct (random g1) as [r2 g2]. destruct (random g2) as [r3 g3].
  cbn [fst]. rewrite get_belief_update_emotion.
  set (delta := (belief_impact ev * belief_growth traits * (0.8 + r1 * 0.4))%Q).
  assert (Hdelta : (0 <= delta)%Q).
  { subst delta. apply Qmult_le_0_compat; [| lra].
    by apply Qmult_le_0_compat. }
  clearbody delta.
  assert (Hd1 : (0 <= delta * bias)%Q) by (by apply Qmult_le_0_compat).
  pose proof (update_belief_mono c (primary_domain ev) delta bias
                (proj1 Hc _) Hd1 d) as H1.
  destruct (secondary_domain ev) as [d2 |]; [| done].
  pose proof (update_belief_in_range c (primary_domain ev) delta bias Hc) as Hc1.
  assert (Hd2 : (0 <= delta * 0.5 * bias)%Q).
  { apply Qmult_le_0_compat; [| done]. lra. }
  pose proof (update_belief_mono _ d2 (delta * 0.5) bias (proj1 Hc1 _) Hd2 d) as H2.
  lra.
Qed.

Lemma _apply_event_mono ev traits fs (cs : list CitizenRow.t) (g : G) :
  Forall citizen_in_range cs -> Forall faction_wf fs ->
  (0 <= belief_impact ev)%Q -> (0 <= belief_growth traits)%Q ->
  Forall2 (fun c c' => forall d, (get_belief c d <= get_belief c' d)%Q)
          cs (_apply_event ev traits fs cs g).1.
Proof.
  intros Hcs Hfs Himpact Hgrowth. revert g.
  induction Hcs as [| c cs Hc _ IH]; intros g; simpl; [constructor |].
  pose proof (apply_event_to_mono ev traits fs c g Hc Hfs Himpact Hgrowth) as Hmono.
  destruct (apply_event_to ev traits fs c g) as [c' g1].
  specialize (IH g1). destruct (_apply_event ev traits fs cs g1) as [rest g2].
  by constructor.
Qed.

(** The stages of a tick of an engine of a run: the population after the
    event keeps its identities and has lost no belief, it is saved as it
    is, and the table of gods is touched by [process_gods] only. *)
Lemma tick_stages_run (e : SimulationEngine G) :
  run_inv e ->
  exists am gs transition am1 g1 ev g2 cs1 ms1 d1 g3 born faded d2 g4 gs1 d3,
    age_manager e = Some am /\ god_system e = Some gs /\
    AgeManager_tick am (rng e) = (transition, am1, g1) /\
    generate_event (current_age am1) (event_rate (AgeManager_traits am1)) g1
    = (ev, g2) /\
    match ev with
    | Some ev' =>
        exists ga,
          _apply_event ev' (AgeManager_traits am1) (_factions e) (_citizens e) g2
          = (cs1, ga) /\
          _create_myths ev' (current_day e + 1) (_factions e) (db e) ga
          = (ms1, d1, g3)
    | None => cs1 = _citizens e /\ ms1 = [] /\ d1 = db e /\ g3 = g2
    end /\
    process_gods cs1 (current_day e + 1) d1 g3 gs = (born, faded, d2, g4, gs1) /\
    save_citizens d2 cs1 = (d3, cs1) /\
    (tick e).2
    = {| db := save_world_state d3
                 (world_state_row (current_day e + 1) am1 (seed e));
         seed := seed e; rng := g4; narrator := narrator e;
         age_manager := Some am1; god_system := Some gs1;
         current_day := current_day e + 1; _factions := _factions e;
         _citizens := cs1 |} /\
    tick_outcome e
    = Some {| day := current_day e + 1; age := current_age am1; event := ev;
              age_transition := transition; born_gods := born;
              faded_gods := faded; new_myths := ms1 |} /\
    gods d1 = gods (db e) /\ gods d3 = gods d2 /\
    map citizen_identity cs1 = map citizen_identity (_citizens e) /\
    Forall2 (fun c c' => forall d, (get_belief c d <= get_belief c' d)%Q)
            (_citizens e) cs1.
Proof.
  intros Hinv.
  pose proof Hinv as (Hk & (am & gs & Ham & Hgs & _) & _ & Hpop & _ & _ & _ & Hfwf).
  destruct (tick_stages e am gs Ham Hgs)
    as (transition & am1 & g1 & ev & g2 & cs1 & ms1 & d1 & g3 & born & faded
        & d2 & g4 & gs1 & d3 & cs2 & Hclk & Hev & Hstage & Hp & Hsave & He' & Hout).
  destruct Hk as (_ & _ & Hrange & _).
  assert (Hstage' : gods d1 = gods (db e) /\
            map citizen_identity cs1 = map citizen_identity (_citizens e) /\
            Forall2 (fun c c' => forall d, (get_belief c d <= get_belief c' d)%Q)
                    (_citizens e) cs1).
  { destruct ev as [ev |].
    - destruct Hstage as (ga & Happly & Hmyths).
      pose proof (_apply_event_identity ev (AgeManager_traits am1) (_factions e)
                    (_citizens e) g2) as Hident.
      pose proof (_create_myths_frame ev (current_day e + 1) (_factions e)
                    (db e) ga) as [Hg _].
      pose proof (generate_event_spec (current_age am1)
                    (event_rate (AgeManager_traits am1)) g1) as Hranges.
      rewrite Hev in Hranges. cbn [fst] in Hranges.
      destruct Hranges as (_ & _ & _ & _ & _ & _ & Himpact & _).
      pose proof (_apply_event_mono ev (AgeManager_traits am1) (_factions e)
                    (_citizens e) g2 Hrange Hfwf ltac:(lra)
                    ltac:(pose proof (AGE_TRAITS_growth (current_age am1));
                          unfold AgeManager_traits; lra)) as Hmono.
      rewrite Happly in Hident, Hmono. rewrite Hmyths in Hg. done.
    - destruct Hstage as (-> & _ & -> & _). split; [done |]. split; [done |].
      apply Forall2_same_length_lookup. split; [done |].
      intros i c c' Hc Hc' d. rewrite Hc in Hc'. injection Hc' as <-. lra. }
  destruct Hstage' as (Hg1 & Hident & Hmono).
  assert (Hcs2 : cs2 = cs1).
  { pose proof (save_citizens_identity d2 cs1) as Hid.
    rewrite Hsave in Hid. apply Hid.
    eapply identity_has_id; [exact Hident | apply Hpop]. }
  subst cs2.
  pose proof (save_citizens_gods d2 cs1) as Hg3. rewrite Hsave in Hg3.
  exists am, gs, transition, am1, g1, ev, g2, cs1, ms1, d1, g3, born, faded, d2,
    g4, gs1, d3.
  done.
Qed.

(** Between the population of an engine of a run and the population its
    tick leaves, no belief has decreased. *)
Lemma tick_beliefs_mono (e : SimulationEngine G) :
  run_inv e ->
  Forall2 (fun c c' => forall d, (get_belief c d <= get_belief c' d)%Q)
          (_citizens e) (_citizens (tick e).2).
Proof.
  intros Hinv.
  destruct (tick_stages_run e Hinv)
    as (am & gs & transition & am1 & g1 & ev & g2 & cs1 & ms1 & d1 & g3 & born
        & faded & d2 & g4 & gs1 & d3 & _ & _ & _ & _ & _ & _ & _ & He' & _ & _
        & _ & _ & Hmono).
  by rewrite He'.
Qed.
End BeliefGrowth.

(** The mean belief follows the beliefs. *)
Lemma foldr_Qplus_mono (xs ys : list Q) :
  Forall2 Qle xs ys -> (foldr Qplus 0 xs <= foldr Qplus 0 ys)%Q.
Proof. induction 1; cbn [foldr]; lra. Qed.

Lemma average_belief_mono (cs cs' : list CitizenRow.t) (d : Domain) :
  Forall2 (fun c c' => forall d, (get_belief c d <= get_belief c' d)%Q) cs cs' ->
  (average_belief (aggregate_domain cs d)
   <= average_belief (aggregate_domain cs' d))%Q.
Proof.
  intros Hall. pose proof (Forall2_length _ _ _ Hall) as Hlen.
  destruct cs as [| c cs], cs' as [| c' cs']; try done.
  destruct (aggregate_domain_mean (c :: cs) d ltac:(done)) as [-> _].
  destruct (aggregate_domain_mean (c' :: cs') d ltac:(done)) as [-> _].
  unfold arithmetic_mean. rewrite !length_map, Hlen.
  apply Qmult_le_compat_r.
  - apply foldr_Qplus_mono. apply Forall2_fmap.
    eapply Forall2_impl; [exact Hall |]. intros x y Hxy. apply Hxy.
  - apply Qinv_le_0_compat. unfold Qle. simpl. lia.
Qed.

(** ** Unforced runs *)

Lemma filter_none {A : Type} (P : A -> bool) (l : list A) :
  Forall (fun x => P x = false) l -> List.filter P l = [].
Proof. induction 1 as [| x l Hx _ IH]; simpl; [done |]. by rewrite Hx. Qed.

Lemma strong_god_stays (cs : list CitizenRow.t) (cur : Z) (r : GodRow.t) :
  (BELIEF_THRESHOLD
   <= average_belief (aggregate_domain cs (GodRow.domain r)))%Q ->
  god_fades (aggregate_beliefs cs) cur r = false /\
  GodRow.alive (god_after (aggregate_beliefs cs) cur r) = GodRow.alive r.
Proof.
  intros Hstrong.
  assert (Hfades : god_fades (aggregate_beliefs cs) cur r = false).
  { rewrite god_fades_aggregate. unfold update_existing_god.
    destruct (Qltb _ FADE_THRESHOLD) eqn:Hweak; [| done].
    apply Qltb_lt in Hweak. cbn [God_update_strength] in *.
    unfold BELIEF_THRESHOLD, FADE_THRESHOLD in *. lra. }
  split; [done |]. rewrite god_after_alive, Hfades. apply andb_true_r.
Qed.

Section NaturalRuns.
Context {G : Type} `{RandomGen G}.

Lemma tick_natural_inv (e : SimulationEngine G) :
  natural_inv e ->
  Forall (fun g => GodRow.alive g = true) (gods (db e)) ->
  natural_inv (tick e).2 /\
  Forall (fun g => GodRow.alive g = true) (gods (db (tick e).2)) /\
  exists r, tick_outcome e = Some r /\ faded_gods r = [].
Proof.
  intros (Hinv & Hsync & Hgods) Halive.
  destruct (tick_run_inv e Hinv) as [Hinv' Hsync'].
  destruct (tick_stages_run e Hinv)
    as (am & gs & transition & am1 & g1 & ev & g2 & cs1 & ms1 & d1 & g3 & born
        & faded & d2 & g4 & gs1 & d3 & _ & _ & _ & _ & _ & Hp & _ & He' & Hout
        & Hg1 & Hg3 & _ & Hmono).
  destruct Hinv as ((Hwf & _) & _).
  destruct (process_gods_spec cs1 (current_day e + 1) d1 g3 gs
              ltac:(by rewrite Hg1))
    as (nb & g' & proto' & Hspec & _ & Hnb & _).
  rewrite Hp in Hspec. injection Hspec as -> -> -> _ _.
  rewrite Hg1 in *.
  assert (Hstrong : Forall (fun r =>
            (BELIEF_THRESHOLD
             <= average_belief (aggregate_domain cs1 (GodRow.domain r)))%Q)
            (gods (db e))).
  { rewrite Forall_forall in Hgods, Halive. apply Forall_forall. intros r Hr.
    eapply Qle_trans; [apply (Hgods r Hr), (Halive r Hr) |].
    by apply average_belief_mono. }
  assert (Hfaded : List.filter (god_fades (aggregate_beliefs cs1) (current_day e + 1))
                     (List.filter GodRow.alive (gods (db e))) = []).
  { apply filter_none, Forall_forall. intros r Hr.
    apply list_elem_of_In, filter_In in Hr as [Hr _]. apply list_elem_of_In in Hr.
    rewrite Forall_forall in Hstrong.
    apply (strong_god_stays cs1 (current_day e + 1) r (Hstrong r Hr)). }
  assert (Htable : Forall (fun g =>
            GodRow.alive g = true /\
            (BELIEF_THRESHOLD
             <= average_belief (aggregate_domain cs1 (GodRow.domain g)))%Q)
            (table_after cs1 (current_day e + 1) (gods (db e)) ++ nb)).
  { apply Forall_app. split.
    - unfold table_after. apply Forall_fmap, Forall_forall. intros r Hr.
      rewrite Forall_forall in Hstrong, Halive.
      unfold compose. cbv beta. rewrite (Halive r Hr).
      destruct (strong_god_stays cs1 (current_day e + 1) r (Hstrong r Hr))
        as [_ Ha].
      rewrite Ha, god_after_domain. split; [by apply Halive | by apply Hstrong].
    - eapply Forall_impl; [exact Hnb |]. intros b [Ha Ho]. split; [done |].
      by apply birth_outcome_born in Ho as (_ & _ & Hb & _). }
  rewrite He' in Hinv', Hsync' |- *. unfold natural_inv.
  cbn [db _citizens gods save_world_state] in *.
  rewrite Hg3. cbn [gods set_gods].
  split; [| split].
  - split; [done |]. split; [done |].
    eapply Forall_impl; [exact Htable |]. by intros g [_ ?] _.
  - eapply Forall_impl; [exact Htable |]. by intros g [? _].
  - eexists. split; [exact Hout |]. cbn [faded_gods]. by rewrite Hfaded.
Qed.

Lemma natural_natural_inv (e : SimulationEngine G) :
  natural e ->
  natural_inv e /\ Forall (fun g => GodRow.alive g = true) (gods (db e)).
Proof.
  induction 1 as [d0 sd nar e Hinit | e _ [IH Ha] | e e' sd nar Hnat [IH Ha] Hinit].
  - pose proof (reachable_run_inv e (reach_genesis _ _ _ _ Hinit)) as Hinv.
    pose proof (initialize_fresh_spec _ _ _ _ Hinit) as (_ & _ & _ & Hgods & _).
    apply initialize_fresh_state in Hinit as (_ & _ & _ & _ & Hc & _).
    rewrite Hgods. split; [| constructor]. split; [done |]. split; [done |].
    rewrite Hgods. constructor.
  - destruct (tick_natural_inv e IH Ha) as (? & ? & _). done.
  - destruct IH as (Hinv & Hsync & Hgods).
    destruct (restore_run_inv e e' sd nar Hinv Hinit)
      as (Hinv' & Hsync' & Hdb & Hcs & _).
    rewrite Hdb. split; [| done]. split; [done |]. split; [congruence |].
    rewrite Hdb, Hcs, Hsync. done.
Qed.

(** X12: no belief ever decreases in a tick: for every citizen of a run and
    every domain, the belief after the tick is at least the belief before
    (events only add belief, and nothing else in a tick changes it); the
    citizens keep their place, id, name, faction and life. *)
Theorem beliefs_never_decrease (e : SimulationEngine G) :
  reachable e ->
  Forall2 (fun c c' =>
             citizen_identity c' = citizen_identity c /\
             forall d, (get_belief c d <= get_belief c' d)%Q)
          (_citizens e) (_citizens (tick e).2).
Proof.
  intros Hreach. apply reachable_run_inv in Hreach.
  pose proof (tick_beliefs_mono e Hreach) as Hmono.
  pose proof Hreach as (_ & _ & _ & (_ & _ & Hsome & _) & _).
  pose proof (tick_identity e Hsome) as Hident.
  apply Forall2_same_length_lookup.
  rewrite Forall2_same_length_lookup in Hmono. destruct Hmono as [Hlen Hmono].
  split; [done |]. intros i c c' Hc Hc'. split; [| by eapply Hmono].
  apply (f_equal (fun l => l !! i)) in Hident.
  rewrite !list_lookup_fmap, Hc, Hc' in Hident. cbn in Hident. congruence.
Qed.

(** X13: in a run that only the kernel drives (genesis, ticks, restarts on
    the persisted database) no god ever fades: every tick returns an empty
    list of faded gods, and no row of the table of gods is ever dead.
    Mean beliefs never fall, so a god born on a mean of 0.6 never sees its
    domain below 0.3. *)
Theorem no_god_fades_unforced (e : SimulationEngine G) :
  natural e ->
  Forall (fun g => GodRow.alive g = true) (gods (db e)) /\
  exists r, tick_outcome e = Some r /\ faded_gods r = [].
Proof.
  intros Hnat. apply natural_natural_inv in Hnat as [Hinv Halive].
  split; [done |]. by destruct (tick_natural_inv e Hinv Halive) as (_ & _ & ?).
Qed.
End NaturalRuns.

Lemma natural_12345 : natural engine_12345.
Proof. eapply natural_genesis. exact genesis_12345_succeeds. Qed.

(** The kernel of seed 12345. *)
Lemma beliefs_never_decrease_witness :
  reachable engine_12345 /\
  Forall2 (fun c c' =>
             citizen_identity c' = citizen_identity c /\
             forall d, (get_belief c d <= get_belief c' d)%Q)
          (_citizens engine_12345) (_citizens (tick engine_12345).2).
Proof.
  split; [exact engine_12345_reachable |].
  exact (beliefs_never_decrease engine_12345 engine_12345_reachable).
Defined.

Lemma no_god_fades_unforced_witness :
  natural (tick engine_12345).2 /\
  Forall (fun g => GodRow.alive g = true) (gods (db (tick engine_12345).2)).
Proof.
  split; [apply natural_tick, natural_12345 |].
  exact (proj1 (no_god_fades_unforced _ (natural_tick _ natural_12345))).
Defined.


(** ** The engine: persistence, restart, runs *)

Lemma quiet_None : quiet None.
Proof. by intros f r. Qed.

Section EngineFacts.
Context {G : Type} `{RandomGen G}.

(** X14: every tick of a run leaves the database in step with the engine:
    the table of citizens is exactly the population in memory (also when
    beliefs were forced in memory before the tick), the table of factions
    is the engine's list of factions, and the world state row holds the
    new day, the name and day counter of the current era and the seed. *)
Theorem tick_persists_state (e : SimulationEngine G) :
  reachable e ->
  citizens (db (tick e).2) = _citizens (tick e).2 /\
  factions (db (tick e).2) = _factions (tick e).2 /\
  exists am,
    age_manager (tick e).2 = Some am /\
    world_state (db (tick e).2)
    = Some {| WorldStateRow.id := Some 1;
              WorldStateRow.current_day := current_day e + 1;
              WorldStateRow.current_age := Age_value (current_age am);
              WorldStateRow.age_day_counter := day_counter am;
              WorldStateRow.seed := seed e |}.
Proof.
  intros Hreach. apply reachable_run_inv in Hreach.
  pose proof (tick_current_day e) as Hday.
  destruct (tick_run_inv e Hreach) as [Hinv Hsync].
  destruct Hinv as (_ & (am & gs & Ham & _ & _ & _ & Hworld) & _ & _ & _ & _
                    & Hf & _).
  split; [done |]. split; [done |]. exists am. split; [done |].
  rewrite Hworld, Hday. unfold world_state_row. do 2 f_equal.
  destruct Hreach as (_ & (am0 & gs0 & Ham0 & Hgs0 & _) & _).
  destruct (tick_stages e am0 gs0 Ham0 Hgs0)
    as (? & ? & ? & ? & ? & ? & ? & ? & ? & ? & ? & ? & ? & ? & ? & ? & _ & _
        & _ & _ & _ & He' & _).
  by rewrite He'.
Qed.

Lemma restore_succeeds (e : SimulationEngine G) (sd : Z)
  (nar : option Narrator) :
  run_inv e ->
  exists e',
    initialize (SimulationEngine_init (db e) sd nar) false = inr e' /\
    rng e' = advance_rng (Z.to_nat (current_day e)) (Random (seed e)).
Proof.
  intros (_ & (am & gs & _ & _ & _ & _ & Hworld) & _).
  unfold initialize, get_world_state. cbn [db SimulationEngine_init].
  rewrite Hworld. unfold _restore_world.
  cbn [WorldStateRow.current_age WorldStateRow.age_day_counter world_state_row
         WorldStateRow.seed WorldStateRow.current_day].
  rewrite AgeManager_from_state_value. eexists. split; [reflexivity | done].
Qed.

(** X15: a restart on the database of an unforced run succeeds and resumes
    it: the new engine is on the same day, in the same era with the same
    day counter, and holds the same population and the same factions.  It
    takes the persisted seed and ignores the one it was constructed with;
    its generator is the seed's generator advanced by one draw per day
    (not the state the first engine had reached), the duration of its era
    is re-estimated and its streak counters start at 0 again. *)
Theorem restart_resumes (e : SimulationEngine G) (sd : Z)
  (nar : option Narrator) :
  natural e ->
  exists e' am am',
    initialize (SimulationEngine_init (db e) sd nar) false = inr e' /\
    db e' = db e /\
    current_day e' = current_day e /\ seed e' = seed e /\
    _citizens e' = _citizens e /\ _factions e' = _factions e /\
    age_manager e = Some am /\ age_manager e' = Some am' /\
    current_age am' = current_age am /\ day_counter am' = day_counter am /\
    age_duration am'
    = Z.max (day_counter am + 1) (min_days (AGE_TRAITS (current_age am))) /\
    rng e' = advance_rng (Z.to_nat (current_day e)) (Random (seed e)) /\
    god_system e' = Some GodSystem_init.
Proof.
  intros Hnat. apply natural_natural_inv in Hnat as [(Hinv & Hsync & _) _].
  destruct (restore_succeeds e sd nar Hinv) as (e' & Hinit & Hrng).
  destruct (restore_run_inv e e' sd nar Hinv Hinit)
    as (_ & _ & Hdb & Hcs & Hfs & Hday & Hseed & _ & Hgs & am & am' & Ham & Ham'
        & Hage & Hcounter & Hduration).
  exists e', am, am'. rewrite Hcs, Hsync. done.
Qed.

(** X16: [run] on an engine of a run whose narrator does not raise performs
    exactly the ticks it is asked for: it yields one result per day, for
    the days that follow the current one, in order, and leaves the day
    counter advanced by their number. *)
Theorem run_advances (n : nat) (e : SimulationEngine G) :
  reachable e -> quiet (narrator e) ->
  exists rs,
    (run n e).1 = map inr rs /\
    map day rs = map (fun k => current_day e + Z.of_nat k) (seq 1 n) /\
    current_day (run n e).2 = current_day e + Z.of_nat n /\
    reachable (run n e).2.
Proof.
  revert e. induction n as [| n IH]; intros e Hreach Hquiet.
  - exists []. cbn. split; [done |]. split; [done |]. split; [lia | done].
  - cbn [run].
    pose proof (reachable_run_inv e Hreach) as Hinv.
    destruct (tick_stages_run e Hinv)
      as (am & gs & transition & am1 & g1 & ev & g2 & cs1 & ms1 & d1 & g3 & born
          & faded & d2 & g4 & gs1 & d3 & _ & _ & _ & _ & _ & _ & _ & He' & Hout
          & _).
    apply tick_outcome_quiet in Hout; [| done].
    pose proof (reach_tick e Hreach) as Hreach'.
    destruct (tick e) as [out e1]. cbn [fst snd] in *. subst out.
    destruct (IH e1 Hreach' ltac:(by rewrite He')) as (rs & Hrs & Hdays & Hday & Hr).
    destruct (run n e1) as [rs' e2]. cbn [fst snd] in *. subst rs'.
    eexists (_ :: rs). split; [done |]. cbn [map day seq].
    split; [| split; [| done]].
    + change (Z.of_nat 1) with 1. f_equal. rewrite Hdays, <- (seq_shift n 1), List.map_map.
      apply map_ext. intros k. rewrite He'. cbn [current_day]. lia.
    + rewrite Hday, He'. cbn [current_day]. lia.
Qed.

(** X17: [tick] on an engine that was never initialised raises
    AttributeError and writes nothing, but it has already advanced the day
    counter: after [n] such calls the engine is on day [n] with the
    database it was constructed on, and the next call raises again. *)
Theorem tick_before_initialize (d : Database) (sd : Z) (nar : option Narrator)
  (n : nat) :
  (tick (ticks n (SimulationEngine_init d sd nar))).1 = inl AttributeError /\
  db (ticks n (SimulationEngine_init d sd nar)) = d /\
  current_day (ticks n (SimulationEngine_init d sd nar)) = Z.of_nat n /\
  age_manager (ticks n (SimulationEngine_init d sd nar)) = None.
Proof.
  assert (Hn : db (ticks n (SimulationEngine_init d sd nar)) = d /\
               current_day (ticks n (SimulationEngine_init d sd nar)) = Z.of_nat n /\
               age_manager (ticks n (SimulationEngine_init d sd nar)) = None).
  { induction n as [| n (Hd & Hday & Ham)]; [done |].
    unfold ticks in *. rewrite !Nat.iter_succ.
    set (e := Nat.iter n _ _) in *. clearbody e. cbv beta.
    unfold tick. rewrite Ham. cbn [snd db current_day age_manager].
    split; [done |]. split; [lia | done]. }
  destruct Hn as (Hd & Hday & Ham). split; [| done].
  unfold tick. by rewrite Ham.
Qed.

(** X18: the table of myths only grows, and by the myths the tick reports:
    after a tick it is the table before followed by the [new_myths] of the
    result, in order.  A day without event adds none; otherwise there is at
    most one new myth per faction, each of the day of the tick and of the
    primary domain of the event, speaking for one of the engine's factions
    with that faction's weight of the domain as confidence.  This holds
    for every engine; one that is not initialised writes nothing. *)
Theorem tick_myths_appended (e : SimulationEngine G) :
  match tick_outcome e with
  | None => db (tick e).2 = db e
  | Some r =>
      myths (db (tick e).2) = myths (db e) ++ new_myths r /\
      (length (new_myths r) <= length (_factions e))%nat /\
      match event r with
      | None => new_myths r = []
      | Some ev =>
          Forall (fun m =>
                    MythRow.domain m = primary_domain ev /\
                    MythRow.day_created m = day r /\
                    exists f, f ∈ _factions e /\
                              MythRow.faction_id m = FactionRow.id f /\
                              MythRow.confidence m
                              = get_bias f (primary_domain ev))
                 (new_myths r)
      end
  end.
Proof.
  destruct (age_manager e) as [am |] eqn:Ham;
    [destruct (god_system e) as [gs |] eqn:Hgs |].
  - destruct (tick_stages e am gs Ham Hgs)
      as (transition & am1 & g1 & ev & g2 & cs1 & ms1 & d1 & g3 & born & faded
          & d2 & g4 & gs1 & d3 & cs2 & _ & _ & Hstage & Hp & Hsave & He' & ->).
    cbn [new_myths event day].
    pose proof (process_gods_frame cs1 (current_day e + 1) d1 g3 gs)
      as (_ & _ & _ & Hm2).
    pose proof (save_citizens_tables d2 cs1) as (_ & _ & Hm3).
    rewrite Hp in Hm2. rewrite Hsave in Hm3. cbn [fst snd] in *.
    rewrite He'. cbn [db myths save_world_state]. rewrite Hm3, Hm2.
    destruct ev as [ev |].
    + destruct Hstage as (ga & _ & Hmyths).
      pose proof (_create_myths_spec ev (current_day e + 1) (_factions e)
                    (db e) ga) as (Hm & _ & _ & Hlen & Hall).
      rewrite Hmyths in Hm, Hlen, Hall. cbn [fst snd] in *.
      split; [done |]. split; [done |].
      eapply Forall_impl; [exact Hall |].
      intros m (? & ? & _ & f & ? & ? & ? & _). repeat split; try done.
      by exists f.
    + destruct Hstage as (_ & -> & -> & _). rewrite app_nil_r.
      split; [done |]. split; [simpl; lia | done].
  - unfold tick_outcome, tick.
    cbn [age_manager god_system set_narrator]. rewrite Ham, Hgs.
    by destruct (AgeManager_tick am _) as [[? ?] ?].
  - unfold tick_outcome, tick.
    cbn [age_manager god_system set_narrator]. by rewrite Ham.
Qed.
End EngineFacts.

(** The kernel of seed 12345 and a restart on its database with another
    seed. *)
Lemma restart_resumes_witness :
  natural engine_12345 /\
  exists e',
    initialize (SimulationEngine_init (db engine_12345) 99 None) false = inr e' /\
    seed e' = 12345 /\ _citizens e' = _citizens engine_12345.
Proof.
  split; [exact natural_12345 |].
  destruct (restart_resumes engine_12345 99 None natural_12345)
    as (e' & am & am' & Hinit & _ & _ & Hseed & Hcs & _).
  exists e'. split; [exact Hinit |]. split; [| exact Hcs].
  rewrite Hseed. reflexivity.
Defined.

(** Ten days of the kernel of seed 12345 without narrator. *)
Lemma run_advances_witness :
  reachable engine_12345 /\ quiet (narrator engine_12345) /\
  current_day (run 10 engine_12345).2 = current_day engine_12345 + 10.
Proof.
  split; [exact engine_12345_reachable |].
  assert (Hquiet : quiet (narrator engine_12345)) by exact quiet_None.
  split; [exact Hquiet |].
  destruct (run_advances 10 engine_12345 engine_12345_reachable Hquiet)
    as (rs & _ & _ & Hday & _).
  exact Hday.
Defined.

(** The kernel of seed 12345 after a tick on forced beliefs: its next tick
    leaves the table of citizens equal to the population in memory. *)
Lemma tick_persists_state_witness :
  reachable
    (tick (set_population engine_12345
             (force_belief_for_domain (_citizens engine_12345) flame 0.8))).2 /\
  citizens
    (db (tick (tick (set_population engine_12345
                       (force_belief_for_domain (_citizens engine_12345)
                          flame 0.8))).2).2)
  = _citizens
      (tick (tick (set_population engine_12345
                     (force_belief_for_domain (_citizens engine_12345)
                        flame 0.8))).2).2.
Proof.
  split; [exact engine_12345_forced_reachable |].
  exact (proj1 (tick_persists_state _ engine_12345_forced_reachable)).
Defined.


(** ** The table of gods through a tick *)

Lemma god_after_fields aggs cur (g : GodRow.t) :
  GodRow.name (god_after aggs cur g) = GodRow.name g /\
  GodRow.birth_day (god_after aggs cur g) = GodRow.birth_day g /\
  GodRow.belief_strength (god_after aggs cur g)
  = average_belief (agg_lookup aggs (GodRow.domain g)) /\
  GodRow.coherence (god_after aggs cur g)
  = agg_coherence (agg_lookup aggs (GodRow.domain g)).
Proof.
  unfold god_after, update_existing_god.
  destruct (Qltb _ _); [destruct (_ >=? _) |]; done.
Qed.

Lemma god_fades_weak (cs : list CitizenRow.t) (cur : Z) (g : GodRow.t) :
  god_fades (aggregate_beliefs cs) cur g = true ->
  (average_belief (aggregate_domain cs (GodRow.domain g)) < FADE_THRESHOLD)%Q /\
  GodRow.alive (god_after (aggregate_beliefs cs) cur g) = false /\
  GodRow.death_day (god_after (aggregate_beliefs cs) cur g) = Some cur.
Proof.
  rewrite god_fades_aggregate, god_after_aggregate. unfold update_existing_god.
  destruct (Qltb _ FADE_THRESHOLD) eqn:Hweak; [| done].
  apply Qltb_lt in Hweak. cbn [God_update_strength] in Hweak.
  destruct (_ >=? _); [| done]. done.
Qed.

Section GodsTable.
Context {G : Type} `{RandomGen G}.

(** Whatever holds of every god the second loop of [process_gods] can
    give birth to holds of the gods it reports as born. *)
Lemma birth_loop_Forall (P : GodRow.t -> Prop) living cur
  (l : list (Domain * BeliefAggregation)) :
  (forall d agg g ids, (d, agg) ∈ l -> P (newborn d agg cur g ids)) ->
  forall (st : Database * G * gmap Domain Z * list GodRow.t),
  Forall P st.2 -> Forall P (fold_left (birth_step living cur) l st).2.
Proof.
  induction l as [| [d agg] l IH]; intros HP st Hst; [done |].
  cbn [fold_left]. apply IH.
  - intros d1 agg1 g ids Hin. apply HP. by right.
  - destruct st as [[[d0 g] proto] born]. rewrite birth_step_unfold.
    cbn [snd] in Hst. destruct (birth_outcome living proto d agg).2; [| done].
    cbn [snd]. apply Forall_app. split; [done |]. constructor; [| done].
    apply HP. by left.
Qed.

Lemma process_gods_born_track cs cur (d0 : Database) (g : G) (gs : GodSystem) :
  Forall (fun b =>
            GodRow.belief_strength b
            = average_belief (aggregate_domain cs (GodRow.domain b)) /\
            GodRow.coherence b
            = agg_coherence (aggregate_domain cs (GodRow.domain b)))
         (process_gods cs cur d0 g gs).1.1.1.1.
Proof.
  unfold process_gods.
  destruct (fold_left (fade_step _ cur) _ _) as [[d1 seen] faded].
  match goal with
  | |- context [fold_left (birth_step ?living cur) ?l ?st] =>
      pose proof (birth_loop_Forall
                    (fun b =>
                       GodRow.belief_strength b
                       = average_belief (aggregate_domain cs (GodRow.domain b)) /\
                       GodRow.coherence b
                       = agg_coherence (aggregate_domain cs (GodRow.domain b)))
                    living cur l) as Hloop;
      specialize (Hloop
        ltac:(intros d agg g' ids Hin; apply aggregate_beliefs_elem in Hin;
              subst agg;
              pose proof (newborn_fields d (aggregate_domain cs d) cur g' ids)
                as Hf; cbn zeta in Hf;
              destruct Hf as (_ & -> & _ & _ & _ & -> & -> & _); done)
        st ltac:(constructor));
      destruct (fold_left (birth_step living cur) l st) as [[[d2 g2] proto] born]
  end.
  done.
Qed.

(** X19: the table of gods is a history: a tick removes no row and
    reorders none, it changes neither the id, the name, the domain nor the
    day of birth of a god, it leaves every dead god exactly as it was, and
    it revives none; the rows it adds, at the end, are the gods the tick
    reports as born. *)
Theorem gods_table_is_a_history (e : SimulationEngine G) :
  reachable e ->
  exists rows r,
    tick_outcome e = Some r /\
    gods (db (tick e).2) = rows ++ born_gods r /\
    Forall2 (fun g g' =>
               GodRow.id g' = GodRow.id g /\ GodRow.name g' = GodRow.name g /\
               GodRow.domain g' = GodRow.domain g /\
               GodRow.birth_day g' = GodRow.birth_day g /\
               (GodRow.alive g = false -> g' = g) /\
               (GodRow.alive g' = true -> GodRow.alive g = true))
            (gods (db e)) rows.
Proof.
  intros Hreach. apply reachable_run_inv in Hreach.
  destruct (tick_stages_run e Hreach)
    as (am & gs & transition & am1 & g1 & ev & g2 & cs1 & ms1 & d1 & g3 & born
        & faded & d2 & g4 & gs1 & d3 & _ & _ & _ & _ & _ & Hp & _ & He' & Hout
        & Hg1 & Hg3 & _).
  destruct Hreach as ((Hwf & _) & _).
  destruct (process_gods_spec cs1 (current_day e + 1) d1 g3 gs
              ltac:(by rewrite Hg1))
    as (nb & g' & proto' & Hspec & _).
  rewrite Hp in Hspec. injection Hspec as -> -> -> _ _.
  rewrite Hg1 in *.
  exists (table_after cs1 (current_day e + 1) (gods (db e))). eexists.
  split; [exact Hout |]. cbn [born_gods].
  split; [rewrite He'; cbn [db gods save_world_state]; by rewrite Hg3 |].
  unfold table_after. apply Forall2_fmap_r, Forall_Forall2_diag, Forall_forall.
  intros r _. unfold compose. cbv beta.
  destruct (GodRow.alive r) eqn:Ha; [| by rewrite Ha].
  pose proof (god_after_fields (aggregate_beliefs cs1) (current_day e + 1) r)
    as (Hn & Hb & _).
  rewrite god_after_id, god_after_domain. done.
Qed.

(** X20: after every tick the strength and the coherence recorded for each
    living god are the mean belief and the coherence of its domain over
    the population the tick leaves -- for the gods born in the tick as for
    the older ones. *)
Theorem living_gods_track_belief (e : SimulationEngine G) :
  reachable e ->
  Forall (fun g =>
            GodRow.alive g = true ->
            GodRow.belief_strength g
            = average_belief
                (aggregate_domain (_citizens (tick e).2) (GodRow.domain g)) /\
            GodRow.coherence g
            = agg_coherence
                (aggregate_domain (_citizens (tick e).2) (GodRow.domain g)))
         (gods (db (tick e).2)).
Proof.
  intros Hreach. apply reachable_run_inv in Hreach.
  destruct (tick_stages_run e Hreach)
    as (am & gs & transition & am1 & g1 & ev & g2 & cs1 & ms1 & d1 & g3 & born
        & faded & d2 & g4 & gs1 & d3 & _ & _ & _ & _ & _ & Hp & _ & He' & Hout
        & Hg1 & Hg3 & _).
  destruct Hreach as ((Hwf & _) & _).
  pose proof (process_gods_born_track cs1 (current_day e + 1) d1 g3 gs) as Hborn.
  destruct (process_gods_spec cs1 (current_day e + 1) d1 g3 gs
              ltac:(by rewrite Hg1))
    as (nb & g' & proto' & Hspec & _).
  rewrite Hp in Hspec, Hborn. injection Hspec as -> -> -> _ _.
  cbn [fst] in Hborn. rewrite Hg1 in *.
  rewrite He'. cbn [db gods save_world_state _citizens]. rewrite Hg3.
  cbn [gods set_gods]. apply Forall_app. split.
  - unfold table_after. apply Forall_fmap, Forall_forall. intros r _.
    unfold compose. destruct (GodRow.alive r) eqn:Ha; [| congruence].
    intros _.
    pose proof (god_after_fields (aggregate_beliefs cs1) (current_day e + 1) r)
      as (_ & _ & Hs & Hc).
    by rewrite Hs, Hc, god_after_domain, agg_lookup_aggregate.
  - eapply Forall_impl; [exact Hborn |]. by intros b ? _.
Qed.

(** X21: the gods a tick reports are of pairwise distinct domains: no two
    born in the same domain, no two faded in the same domain, and none
    born in the domain of one that faded in the same tick.  The born are
    alive and the faded are dead, with the day of the tick as day of birth
    and day of death. *)
Theorem tick_reports_distinct_domains (e : SimulationEngine G) :
  reachable e ->
  exists r,
    tick_outcome e = Some r /\
    NoDup (map GodRow.domain (born_gods r ++ faded_gods r)) /\
    Forall (fun b => GodRow.alive b = true /\ GodRow.birth_day b = day r)
           (born_gods r) /\
    Forall (fun f => GodRow.alive f = false /\ GodRow.death_day f = Some (day r))
           (faded_gods r).
Proof.
  intros Hreach. apply reachable_run_inv in Hreach.
  destruct (tick_stages_run e Hreach)
    as (am & gs & transition & am1 & g1 & ev & g2 & cs1 & ms1 & d1 & g3 & born
        & faded & d2 & g4 & gs1 & d3 & _ & _ & _ & _ & _ & Hp & _ & He' & Hout
        & Hg1 & Hg3 & _).
  destruct Hreach as ((Hwf & Hnd & _) & _).
  destruct (process_gods_spec cs1 (current_day e + 1) d1 g3 gs
              ltac:(by rewrite Hg1))
    as (nb & g' & proto' & Hspec & Hproto & Hnb & _ & Hdom).
  rewrite Hp in Hspec. injection Hspec as -> -> -> _ _.
  rewrite Hg1 in *.
  eexists. split; [exact Hout |]. cbn [born_gods faded_gods day].
  set (aggs := aggregate_beliefs cs1) in *.
  set (cur := current_day e + 1) in *.
  assert (Hfaded : Forall (fun r => god_fades aggs cur r = true)
                     (List.filter (god_fades aggs cur)
                        (List.filter GodRow.alive (gods (db e))))).
  { apply Forall_forall. intros r Hr.
    by apply list_elem_of_In, filter_In in Hr as [_ Hr]. }
  split; [| split].
  - rewrite List.map_app. apply NoDup_app. split; [done |]. split.
    + intros d Hd Hd'.
      apply list_elem_of_In, in_map_iff in Hd as (b & <- & Hb).
      apply list_elem_of_In, in_map_iff in Hd' as (f & Hfd & Hf).
      apply in_map_iff in Hf as (r & <- & Hr).
      rewrite Forall_forall in Hnb, Hfaded.
      destruct (Hnb b ltac:(by apply list_elem_of_In)) as [_ Ho].
      apply birth_outcome_born in Ho as (_ & _ & Hstrong & _).
      specialize (Hfaded r ltac:(by apply list_elem_of_In)).
      apply god_fades_weak in Hfaded as (Hweak & _).
      subst aggs. rewrite god_after_domain in Hfd. rewrite <- Hfd in Hstrong.
      unfold BELIEF_THRESHOLD, FADE_THRESHOLD in *. lra.
    + rewrite List.map_map.
      erewrite map_ext; [| intros r; apply god_after_domain].
      eapply sublist_NoDup; [exact Hnd |].
      apply map_sublist. apply filter_sublist.
  - apply Forall_forall. intros b Hb.
    rewrite Forall_forall in Hnb. destruct (Hnb b Hb) as [Ha Ho]. split; [done |].
    destruct (Hproto (GodRow.domain b)) as [_ Hex]. cbn zeta in Hex.
    destruct (Hex Ho) as (b' & Hb' & Hd & _ & Hday & _).
    assert (b' = b); [| by subst b'].
    apply list_elem_of_lookup in Hb as [i Hi].
    apply list_elem_of_lookup in Hb' as [j Hj].
    rewrite NoDup_alt in Hdom.
    assert (i = j).
    { eapply Hdom; rewrite list_lookup_fmap; [by rewrite Hi | by rewrite Hj, <- Hd]. }
    subst j. congruence.
  - apply Forall_fmap. eapply Forall_impl; [exact Hfaded |].
    intros r Hr. apply god_fades_weak in Hr as (_ & ? & ?). done.
Qed.

(** X22: the streak counters of every engine of a run are bounded: the
    ascending counter of each domain stays in [0, 5) and the weak streak
    of each living god in [0, 7) -- a birth or a fade resets the counter
    in the very tick in which it reaches its threshold. *)
Theorem streak_counters_bounded (e : SimulationEngine G) :
  reachable e ->
  exists gs,
    god_system e = Some gs /\
    (forall d, 0 <= _proto_god_days gs !!! d < CONSECUTIVE_DAYS_BIRTH) /\
    Forall (fun g => GodRow.alive g = true ->
                     0 <= GodRow.consecutive_weak_days g < CONSECUTIVE_DAYS_FADE)
           (gods (db e)).
Proof.
  intros Hreach. apply reachable_run_inv in Hreach.
  destruct Hreach as (_ & (am & gs & _ & Hgs & _ & Hstreaks & _) & _).
  exists gs. split; [done |]. exact Hstreaks.
Qed.
End GodsTable.

(** The kernel of seed 12345, at its genesis and one forced day later. *)
Lemma gods_table_is_a_history_witness :
  reachable engine_12345 /\
  exists rows r,
    tick_outcome engine_12345 = Some r /\
    gods (db (tick engine_12345).2) = rows ++ born_gods r.
Proof.
  split; [exact engine_12345_reachable |].
  destruct (gods_table_is_a_history engine_12345 engine_12345_reachable)
    as (rows & r & Hout & Htable & _).
  exists rows, r. split; [exact Hout | exact Htable].
Defined.

Lemma living_gods_track_belief_witness :
  reachable
    (tick (set_population engine_12345
             (force_belief_for_domain (_citizens engine_12345) flame 0.8))).2 /\
  Forall (fun g =>
            GodRow.alive g = true ->
            GodRow.belief_strength g
            = average_belief
                (aggregate_domain
                   (_citizens
                      (tick (tick (set_population engine_12345
                                     (force_belief_for_domain
                                        (_citizens engine_12345) flame 0.8))).2).2)
                   (GodRow.domain g)) /\
            GodRow.coherence g
            = agg_coherence
                (aggregate_domain
                   (_citizens
                      (tick (tick (set_population engine_12345
                                     (force_belief_for_domain
                                        (_citizens engine_12345) flame 0.8))).2).2)
                   (GodRow.domain g)))
         (gods (db (tick (tick (set_population engine_12345
                                  (force_belief_for_domain
                                     (_citizens engine_12345) flame 0.8))).2).2)).
Proof.
  split; [exact engine_12345_forced_reachable |].
  exact (living_gods_track_belief _ engine_12345_forced_reachable).
Defined.

Lemma tick_reports_distinct_domains_witness :
  reachable engine_12345 /\
  exists r,
    tick_outcome engine_12345 = Some r /\
    NoDup (map GodRow.domain (born_gods r ++ faded_gods r)).
Proof.
  split; [exact engine_12345_reachable |].
  destruct (tick_reports_distinct_domains engine_12345 engine_12345_reachable)
    as (r & Hout & Hnd & _).
  exists r. split; [exact Hout | exact Hnd].
Defined.

Lemma streak_counters_bounded_witness :
  reachable engine_12345 /\
  exists gs,
    god_system engine_12345 = Some gs /\
    forall d, 0 <= _proto_god_days gs !!! d < CONSECUTIVE_DAYS_BIRTH.
Proof.
  split; [exact engine_12345_reachable |].
  destruct (streak_counters_bounded engine_12345 engine_12345_reachable)
    as (gs & Hgs & Hproto & _).
  exists gs. split; [exact Hgs | exact Hproto].
Defined.


(** ** What an event touches *)

Section EventFrame.
Context {G : Type} `{RandomGen G}.

Lemma apply_event_to_frame ev traits fs (c : CitizenRow.t) (g : G) (d : Domain) :
  d <> primary_domain ev -> Some d <> secondary_domain ev ->
  get_belief (apply_event_to ev traits fs c g).1 d = get_belief c d.
Proof.
  intros Hp Hs. unfold apply_event_to.
  destruct (random g) as [r1 g1]. destruct (random g1) as [r2 g2].
  destruct (random g2) as [r3 g3]. cbn [fst].
  rewrite get_belief_update_emotion.
  destruct (secondary_domain ev) as [d2 |].
  - rewrite !get_belief_update_other; [done | congruence | congruence].
  - by rewrite get_belief_update_other.
Qed.

Lemma _apply_event_frame ev traits fs (cs : list CitizenRow.t) (g : G) :
  Forall2 (fun c c' => forall d, d <> primary_domain ev ->
                                 Some d <> secondary_domain ev ->
                                 get_belief c' d = get_belief c d)
          cs (_apply_event ev traits fs cs g).1.
Proof.
  revert g. induction cs as [| c cs IH]; intros g; simpl; [constructor |].
  pose proof (fun d => apply_event_to_frame ev traits fs c g d) as Hc.
  destruct (apply_event_to ev traits fs c g) as [c' g1].
  specialize (IH g1). destruct (_apply_event ev traits fs cs g1) as [rest g2].
  by constructor.
Qed.

(** X23: a day without event leaves the whole population as it was --
    beliefs, fear and gratitude of every citizen; on a day with an event
    a citizen's belief can change in the primary and the secondary domain
    of the event only. *)
Theorem event_touches_its_domains (e : SimulationEngine G) :
  reachable e ->
  exists r,
    tick_outcome e = Some r /\
    match event r with
    | None => _citizens (tick e).2 = _citizens e
    | Some ev =>
        Forall2 (fun c c' => forall d, d <> primary_domain ev ->
                                       Some d <> secondary_domain ev ->
                                       get_belief c' d = get_belief c d)
                (_citizens e) (_citizens (tick e).2)
    end.
Proof.
  intros Hreach. apply reachable_run_inv in Hreach.
  destruct (tick_stages_run e Hreach)
    as (am & gs & transition & am1 & g1 & ev & g2 & cs1 & ms1 & d1 & g3 & born
        & faded & d2 & g4 & gs1 & d3 & _ & _ & _ & _ & Hstage & _ & _ & He' & Hout
        & _).
  eexists. split; [exact Hout |]. cbn [event]. rewrite He'. cbn [_citizens].
  destruct ev as [ev |].
  - destruct Hstage as (ga & Happly & _).
    pose proof (_apply_event_frame ev (AgeManager_traits am1) (_factions e)
                  (_citizens e) g2) as Hframe.
    by rewrite Happly in Hframe.
  - by destruct Hstage as (-> & _).
Qed.
End EventFrame.

Lemma event_touches_its_domains_witness :
  reachable engine_12345 /\
  exists r,
    tick_outcome engine_12345 = Some r /\
    match event r with
    | None => _citizens (tick engine_12345).2 = _citizens engine_12345
    | Some ev =>
        Forall2 (fun c c' => forall d, d <> primary_domain ev ->
                                       Some d <> secondary_domain ev ->
                                       get_belief c' d = get_belief c d)
                (_citizens engine_12345) (_citizens (tick engine_12345).2)
    end.
Proof.
  split; [exact engine_12345_reachable |].
  exact (event_touches_its_domains engine_12345 engine_12345_reachable).
Defined.


(** ** Genesis and the names of the factions *)

Lemma save_faction_insert (d : Database) (f : FactionRow.t) :
  FactionRow.id f = None ->
  save_faction d f
  = if bool_decide (FactionRow.name f ∈ map FactionRow.name (factions d))
    then inl IntegrityError
    else inr (set_factions d
                (factions d ++
                 [FactionRow.set_id f
                    (Some (lastrowid (map FactionRow.id (factions d))))]),
              FactionRow.set_id f
                (Some (lastrowid (map FactionRow.id (factions d))))).
Proof. intros Hid. unfold save_faction. by rewrite Hid. Qed.

Section GenesisNames.
Context {G : Type} `{RandomGen G}.




End GenesisNames.

Lemma genesis_names_7_clash :
  initialize (G := Z) (SimulationEngine_init empty_db 7 None) true
  = inl IntegrityError.
Proof. vm_compute. reflexivity. Qed.

(** With the generator of this development, seed 7 draws a name twice. *)
Lemma genesis_of_seed_7_fails (d0 : Database) (nar : option Narrator) :
  initialize (G := Z) (SimulationEngine_init d0 7 nar) true = inl IntegrityError.
Proof.
  pose proof (genesis_names_7_clash) as Hclash.
  pose proof (initialize_fresh_narrator (G := Z) d0 7 nar) as Hnar.
  rewrite Hnar. by rewrite Hclash.
Qed.


(** ** The lookups of the database *)

Lemma find_filter {A : Type} (P : A -> bool) (l : list A) :
  List.find P l = head (List.filter P l).
Proof. induction l as [| x l IH]; simpl; [done |]. by destruct (P x). Qed.

Lemma filter_length_ext {A B : Type} (P : A -> bool) (Q : B -> bool)
  (l : list A) (l' : list B) :
  Forall2 (fun x y => P x = Q y) l l' ->
  length (List.filter P l) = length (List.filter Q l').
Proof.
  induction 1 as [| x y l l' Hxy _ IH]; simpl; [done |].
  rewrite Hxy. destruct (Q y); simpl; by rewrite IH.
Qed.

Lemma find_unique_id (fs : list FactionRow.t) (f : FactionRow.t) (i : Z) :
  NoDup (map FactionRow.id fs) -> f ∈ fs -> FactionRow.id f = Some i ->
  List.find (fun r => bool_decide (FactionRow.id r = Some i)) fs = Some f.
Proof.
  intros Hnd Hin Hid. induction fs as [| r fs IH]; [by apply not_elem_of_nil in Hin |].
  cbn [map] in Hnd. apply NoDup_cons in Hnd as [Hr Hnd]. cbn [List.find].
  apply elem_of_cons in Hin as [<- | Hin].
  - by rewrite bool_decide_eq_true_2.
  - rewrite bool_decide_eq_false_2; [by apply IH |].
    intros Hri. apply Hr. rewrite Hri, <- Hid.
    apply list_elem_of_In, in_map. by apply list_elem_of_In.
Qed.

Section Lookups.
Context {G : Type} `{RandomGen G}.

(** X25: in every engine of a run the lookup of the living god of a domain
    is unambiguous: [get_god_by_domain] returns the one living god of the
    domain when there is one and nothing when there is none; that it takes
    the first matching row decides nothing. *)
Theorem get_god_by_domain_unambiguous (e : SimulationEngine G) (d : Domain) :
  reachable e ->
  match get_god_by_domain (db e) d true with
  | Some g => living_gods (gods (db e)) d = [g]
  | None => living_gods (gods (db e)) d = []
  end.
Proof.
  intros Hreach. apply reachable_kernel_inv in Hreach as (_ & Hnd & _).
  pose proof (alive_domains_exclusive _ Hnd d) as Hone.
  unfold get_god_by_domain. rewrite find_filter.
  assert (Hsame : List.filter
                    (fun r => bool_decide (GodRow.domain r = d) && GodRow.alive r)
                    (gods (db e))
                  = living_gods (gods (db e)) d).
  { unfold living_gods. apply filter_ext. intros r. apply andb_comm. }
  rewrite Hsame. destruct (living_gods (gods (db e)) d) as [| g [| g' rest]].
  - done.
  - done.
  - simpl in Hone. lia.
Qed.

Lemma create_factions_members (n : nat) :
  forall (d : Database) (g : G) (fs : list FactionRow.t) (cs : list CitizenRow.t)
         d' g' fs' cs',
  create_factions n (d, g, fs, cs) = inr (d', g', fs', cs') ->
  factions d = fs -> citizens d = cs -> population_wf cs ->
  affiliation_inv fs cs ->
  affiliation_inv fs' cs' /\ length fs' = (length fs + n)%nat.
Proof.
  induction n as [| n IH]; intros d g fs cs d' g' fs' cs' Hcreate Hf Hc Hwf Hinv.
  - cbn in Hcreate. injection Hcreate as <- <- <- <-. split; [done | lia].
  - cbn [create_factions] in Hcreate.
    pose proof (Faction_generate_spec g) as [Hid _].
    destruct (Faction_generate g) as [faction g1]. cbn [fst] in Hid.
    rewrite save_faction_insert in Hcreate by done.
    case_bool_decide; [done |].
    set (f1 := FactionRow.set_id faction _) in Hcreate.
    set (d1 := set_factions d (factions d ++ [f1])) in Hcreate.
    pose proof (create_citizens_state INITIAL_CITIZENS_PER_FACTION
                  (FactionRow.id f1) d1 g1 cs Hc Hwf)
      as (Hc2 & Hwf2 & _ & Hf2 & _ & new & Hnew & Hlen & Hfid).
    destruct (create_citizens INITIAL_CITIZENS_PER_FACTION (FactionRow.id f1)
                (d1, g1, cs)) as [[d2 g2] cs2].
    cbn [fst snd] in *. rewrite Hnew in Hcreate, Hc2, Hwf2. clear Hnew.
    destruct Hinv as (Hnd & Hsome & Hin & Hcount).
    assert (Hfresh : FactionRow.id f1 ∉ map FactionRow.id fs).
    { subst f1. cbn. rewrite Hf. apply lastrowid_fresh. }
    assert (Hinv1 : affiliation_inv (fs ++ [f1]) (cs ++ new)).
    { split; [| split; [| split]].
      - rewrite List.map_app. apply NoDup_app. split; [done |].
        split; [| apply NoDup_singleton].
        intros i Hi Hi'. cbn in Hi'. apply list_elem_of_singleton in Hi'.
        by subst i.
      - apply Forall_app. split; [done |]. constructor; [| done].
        subst f1. cbn. eauto.
      - rewrite List.map_app. apply Forall_app. split.
        + eapply Forall_impl; [exact Hin |]. intros c Hc'.
          apply elem_of_app. by left.
        + eapply Forall_impl; [exact Hfid |]. intros c ->.
          apply elem_of_app. right. by left.
      - apply Forall_app. split.
        + apply Forall_forall. intros f Hfin.
          rewrite Forall_forall in Hcount. rewrite List.filter_app, length_app.
          rewrite (Hcount f Hfin).
          rewrite (filter_none _ new); [cbn [length]; lia |].
          eapply Forall_impl; [exact Hfid |]. intros c ->.
          apply bool_decide_eq_false. intros Heq. apply Hfresh. rewrite Heq.
          apply list_elem_of_In, in_map. by apply list_elem_of_In.
        + constructor; [| done].
          rewrite List.filter_app, length_app.
          rewrite (filter_none _ cs).
          * rewrite forallb_filter_id; [cbn [length]; lia |].
            apply forallb_forall. intros c Hc'.
            rewrite Forall_forall in Hfid.
            apply bool_decide_eq_true, Hfid. by apply list_elem_of_In.
          * eapply Forall_impl; [exact Hin |]. intros c Hc'.
            apply bool_decide_eq_false. intros Heq. apply Hfresh.
            by rewrite <- Heq. }
    destruct (IH d2 g2 (fs ++ [f1]) (cs ++ new) d' g' fs' cs' Hcreate)
      as [Hinv' Hlen']; try done.
    + rewrite Hf2. subst d1. cbn. by rewrite Hf.
    + split; [done |]. rewrite Hlen', length_app. simpl. lia.
Qed.

Lemma genesis_members (d0 : Database) (sd : Z) (nar : option Narrator)
  (e : SimulationEngine G) :
  initialize (SimulationEngine_init d0 sd nar) true = inr e ->
  members_ok (db e).
Proof.
  intros Hinit.
  pose proof (initialize_fresh_state _ _ _ _ Hinit)
    as (_ & _ & _ & _ & Hsync & Hpop & Hfsync & _).
  revert Hinit Hsync Hpop Hfsync. unfold initialize.
  cbn [db SimulationEngine_init set_db clear_all get_world_state world_state].
  unfold _create_new_world.
  cbn [rng db seed _factions _citizens narrator god_system set_db
         SimulationEngine_init clear_all].
  destruct (AgeManager_new (Random sd)) as [am g1].
  destruct (create_factions INITIAL_FACTIONS _)
    as [exn | [[[d2 g2] fs] cs]] eqn:Hcreate; [done |].
  pose proof Hcreate as Hstate.
  apply create_factions_state in Hstate
    as (Hf & _ & Hc & Hwf & _);
    [| done | constructor | done | apply population_wf_nil].
  apply create_factions_members in Hcreate as [Hinv Hlen];
    [| done | done | apply population_wf_nil
     | by repeat split; constructor].
  pose proof (create_citizens_state UNAFFILIATED_CITIZENS None d2 g2 cs Hc Hwf)
    as (Hc3 & Hwf3 & _ & Hf3 & _ & new & Hnew & Hlen3 & Hfid).
  destruct (create_citizens UNAFFILIATED_CITIZENS None (d2, g2, cs))
    as [[d3 g3] cs3].
  cbn [fst snd] in *. intros [= <-].
  cbn [db _citizens _factions set_god_system citizens factions save_world_state].
  intros _ _ _. rewrite Hnew in Hc3, Hwf3. clear Hnew.
  destruct Hinv as (Hnd & Hsome & Hin & Hcount).
  destruct Hwf3 as (_ & Halive & _).
  unfold members_ok, get_faction, get_citizens_by_faction.
  cbn [factions citizens save_world_state]. rewrite Hf3, Hf, Hc3.
  split; [by rewrite Hlen |]. split.
  - apply Forall_forall. intros f Hfin.
    rewrite Forall_forall in Hsome. rewrite Forall_forall in Hcount.
    destruct (Hsome f Hfin) as [i Hi]. exists i. split; [done |].
    split; [by apply find_unique_id |].
    rewrite <- (Hcount f Hfin), Hi, List.filter_app, length_app.
    rewrite (filter_none _ new).
    + rewrite Nat.add_0_r. apply filter_length_ext.
      apply Forall_Forall2_diag, Forall_forall. intros c Hc'.
      rewrite Forall_forall in Halive.
      rewrite (Halive c ltac:(apply elem_of_app; by left)).
      apply andb_true_r.
    + eapply Forall_impl; [exact Hfid |]. intros c ->. done.
  - rewrite List.filter_app, length_app.
    rewrite (filter_none _ cs).
    + rewrite forallb_filter_id; [cbn [length]; lia |].
      apply forallb_forall. intros c Hc'. rewrite Forall_forall in Hfid.
      apply bool_decide_eq_true, Hfid. by apply list_elem_of_In.
    + apply Forall_forall. intros c Hc'.
      rewrite Forall_forall in Hin. rewrite Forall_forall in Hsome.
      specialize (Hin c Hc').
      apply bool_decide_eq_false. intros Hnone. rewrite Hnone in Hin.
      apply list_elem_of_In, in_map_iff in Hin as (f & Hfid' & Hfin).
      destruct (Hsome f ltac:(by apply list_elem_of_In)) as [i Hi]. congruence.
Qed.

Lemma members_ok_identity (d d' : Database) :
  factions d' = factions d ->
  map citizen_identity (citizens d') = map citizen_identity (citizens d) ->
  members_ok d -> members_ok d'.
Proof.
  intros Hf Hident (Hlen & Hall & Hnone).
  assert (Hrows : Forall2 (fun c c' => citizen_identity c = citizen_identity c')
                    (citizens d) (citizens d')).
  { apply Forall2_same_length_lookup. split.
    - apply (f_equal length) in Hident. by rewrite !length_map in Hident.
    - intros i c c' Hc Hc'. apply (f_equal (fun l => l !! i)) in Hident.
      rewrite !list_lookup_fmap, Hc, Hc' in Hident. cbn in Hident. congruence. }
  unfold members_ok, get_faction, get_citizens_by_faction in *. rewrite Hf.
  split; [done |]. split.
  - eapply Forall_impl; [exact Hall |].
    intros f (i & Hi & Hfind & Hcount). exists i. split; [done |].
    split; [done |]. rewrite <- Hcount. symmetry. apply filter_length_ext.
    eapply Forall2_impl; [exact Hrows |]. intros c c' Hcc.
    unfold citizen_identity in Hcc. by injection Hcc as _ _ -> ->.
  - rewrite <- Hnone. symmetry. apply filter_length_ext.
    eapply Forall2_impl; [exact Hrows |]. intros c c' Hcc.
    unfold citizen_identity in Hcc. by injection Hcc as _ _ -> _.
Qed.

Lemma reachable_members (e : SimulationEngine G) :
  reachable e ->
  members_ok (db e) /\
  map citizen_identity (citizens (db e)) = map citizen_identity (_citizens e).
Proof.
  induction 1 as [d0 sd nar e Hinit | e Hreach [IH Hident]
                  | e e' sd nar Hreach [IH Hident] Hinit
                  | e d level Hreach [IH Hident] Hlevel].
  - split; [by eapply genesis_members |].
    apply initialize_fresh_state in Hinit as (_ & _ & _ & _ & -> & _). done.
  - pose proof (reachable_run_inv e Hreach) as Hinv.
    destruct (tick_run_inv e Hinv) as [Hinv' Hsync].
    split; [| by rewrite Hsync].
    apply (members_ok_identity (db e)); [| | done].
    + destruct Hinv' as (_ & _ & _ & _ & _ & _ & -> & _).
      destruct Hinv as (_ & _ & _ & _ & _ & _ & -> & _).
      destruct (tick_stages_run e (reachable_run_inv e Hreach))
        as (am & gs & transition & am1 & g1 & ev & g2 & cs1 & ms1 & d1 & g3
            & born & faded & d2 & g4 & gs1 & d3 & _ & _ & _ & _ & _ & _ & _ & He'
            & _).
      by rewrite He'.
    + rewrite Hsync, Hident.
      destruct Hinv as (_ & _ & _ & (_ & _ & Hsome & _) & _).
      by apply tick_identity.
  - pose proof (reachable_run_inv e Hreach) as Hinv.
    destruct (restore_run_inv e e' sd nar Hinv Hinit)
      as (_ & Hsync & Hdb & _).
    rewrite Hdb in *. split; [done |]. by rewrite <- Hsync.
  - split; [done |]. cbn [db _citizens set_population].
    by rewrite force_belief_identity.
Qed.

(** X26: the membership set up at genesis is kept, and the database answers
    for it: in every engine of a run there are three factions, each of
    them is the row [get_faction] returns for its id and has exactly eight
    members for [get_citizens_by_faction], and five citizens have no
    faction. *)
Theorem factions_keep_their_members (e : SimulationEngine G) :
  reachable e ->
  get_all_factions (db e) = get_factions e /\
  length (get_factions e) = 3%nat /\
  Forall (fun f =>
            exists i, FactionRow.id f = Some i /\
                      get_faction (db e) i = Some f /\
                      length (get_citizens_by_faction (db e) i) = 8%nat)
         (get_factions e) /\
  length (List.filter (fun c => bool_decide (CitizenRow.faction_id c = None))
            (get_all_citizens (db e) false)) = 5%nat.
Proof.
  intros Hreach.
  destruct (reachable_members e Hreach) as [(Hlen & Hall & Hnone) _].
  apply reachable_run_inv in Hreach as (_ & _ & _ & _ & _ & _ & Hf & _).
  unfold get_all_factions, get_factions, get_all_citizens. rewrite <- Hf.
  done.
Qed.
End Lookups.

Lemma get_god_by_domain_unambiguous_witness :
  reachable
    (tick (set_population engine_12345
             (force_belief_for_domain (_citizens engine_12345) flame 0.8))).2 /\
  match
    get_god_by_domain
      (db (tick (set_population engine_12345
                   (force_belief_for_domain (_citizens engine_12345) flame 0.8))).2)
      flame true
  with
  | Some g =>
      living_gods
        (gods (db (tick (set_population engine_12345
                           (force_belief_for_domain (_citizens engine_12345)
                              flame 0.8))).2)) flame = [g]
  | None =>
      living_gods
        (gods (db (tick (set_population engine_12345
                           (force_belief_for_domain (_citizens engine_12345)
                              flame 0.8))).2)) flame = []
  end.
Proof.
  split; [exact engine_12345_forced_reachable |].
  exact (get_god_by_domain_unambiguous _ flame engine_12345_forced_reachable).
Defined.

Lemma factions_keep_their_members_witness :
  reachable (tick engine_12345).2 /\
  length (get_factions (tick engine_12345).2) = 3%nat.
Proof.
  split; [exact (reach_tick _ engine_12345_reachable) |].
  exact (proj1 (proj2 (factions_keep_their_members _
                         (reach_tick _ engine_12345_reachable)))).
Defined.

(** ** The simulation manager *)

Section ManagerFacts.
Context {G : Type} `{RandomGen G}.
Variable hash : string -> Z.


Lemma _god_to_position_on_grid (god : GodRow.t) :
  on_grid (_god_to_position hash god).
Proof.
  unfold on_grid, _god_to_position. cbn [fst snd].
  split; apply Z.mod_pos_bound; lia.
Qed.

Lemma _update_historical_scars_on_grid (scars : gmap (Z * Z) Scar)
  (result : TickResult) :
  map_Forall (fun p _ => on_grid p) scars ->
  map_Forall (fun p _ => on_grid p) (_update_historical_scars hash scars result).
Proof.
  intros Hscars. unfold _update_historical_scars.
  assert (Hfold : forall gs (s : gmap (Z * Z) Scar),
            map_Forall (fun p (_ : Scar) => on_grid p) s ->
            map_Forall (fun p (_ : Scar) => on_grid p)
              (fold_left
                 (fun s god =>
                    <[_god_to_position hash god :=
                        {| god_name := GodRow.name god;
                           scar_domain := GodRow.domain god;
                           scar_death_day := day result |}]> s) gs s)).
  { induction gs as [| god gs IH]; intros s Hs; [done |]. cbn [fold_left].
    apply IH. apply map_Forall_insert_2; [| done].
    apply _god_to_position_on_grid. }
  destruct (age_transition result) as [[] |];
    try apply map_Forall_empty; case_bool_decide; auto.
Qed.

(** X27: every scar the manager records lies on the 64 x 64 grid, whatever
    Python's hash of the god's name is (also a negative one): when all scars
    of a manager are on the grid, so are all scars after any number of
    steps. *)
Theorem scars_stay_on_the_grid (m : SimulationManager G) (n : nat) :
  map_Forall (fun p _ => on_grid p) (_historical_scars m) ->
  map_Forall (fun p _ => on_grid p) (_historical_scars (steps hash n m)).
Proof.
  intros Hm. unfold steps. induction n as [| n IH]; [done |].
  rewrite Nat.iter_succ. set (m' := Nat.iter n _ m) in *.
  unfold step. destruct (engine m') as [e |]; [| done].
  destruct (tick e) as [[exn | result] e1]; cbn [snd _historical_scars];
    [done |].
  by apply _update_historical_scars_on_grid.
Qed.

Lemma _broadcast_tick_snoc (subs : list Narrator) (callback : Narrator)
  (result : TickResult) :
  _broadcast_tick (subs ++ [callback]) result
  = _broadcast_tick subs result
    ++ match callback result with Some exn => [exn] | None => [] end.
Proof.
  unfold _broadcast_tick. rewrite fold_left_app. cbn [fold_left].
  destruct (callback result); [done |]. by rewrite app_nil_r.
Qed.

(** What the broadcast prints: the exceptions of the subscribers that
    raise, in the order of subscription. *)
Lemma _broadcast_tick_omap (subs : list Narrator) (result : TickResult) :
  _broadcast_tick subs result = omap (fun callback => callback result) subs.
Proof.
  induction subs as [| callback subs IH] using rev_ind; [done |].
  rewrite _broadcast_tick_snoc, IH, omap_app. cbn [omap list_omap].
  by destruct (callback result).
Qed.

Lemma step_set_subscribers (m : SimulationManager G) (subs : list Narrator) :
  (step hash (set_subscribers m subs)).2
  = set_subscribers (step hash m).2 subs /\
  (step hash (set_subscribers m subs)).1.1 = (step hash m).1.1.
Proof.
  unfold step, set_subscribers.
  cbn [engine manager_db _subscribers _historical_scars].
  destruct (engine m) as [e |] eqn:He;
    [| cbn [fst snd engine manager_db _historical_scars]; by rewrite He].
  by destruct (tick e) as [[exn | result] e1].
Qed.

Lemma set_subscribers_twice (m : SimulationManager G)
  (subs subs' : list Narrator) :
  set_subscribers (set_subscribers m subs) subs' = set_subscribers m subs'.
Proof. done. Qed.

Lemma steps_set_subscribers (m : SimulationManager G) (subs : list Narrator)
  (n : nat) :
  steps hash n (set_subscribers m subs)
  = set_subscribers (steps hash n m) subs.
Proof.
  unfold steps. induction n as [| n IH]; [done |].
  rewrite !Nat.iter_succ, IH.
  by destruct (step_set_subscribers (Nat.iter n (fun m' => (step hash m').2) m)
                 subs) as [-> _].
Qed.

(** X28: subscribers cannot disturb the simulation.  Whatever the
    subscribers of a manager do on a tick result (return or raise), a run of
    [n] steps leaves the engine and the scars that the same run leaves
    without any subscriber, and each step returns what it returns without
    them; a step prints exactly the exceptions of the subscribers that
    raised, in the order of subscription. *)
Theorem subscribers_cannot_disturb (m : SimulationManager G)
  (subs : list Narrator) (n : nat) :
  steps hash n (set_subscribers m subs)
  = set_subscribers (steps hash n (set_subscribers m [])) subs /\
  (step hash (steps hash n (set_subscribers m subs))).1.1
  = (step hash (steps hash n (set_subscribers m []))).1.1 /\
  match (step hash (set_subscribers m subs)).1.1 with
  | inr result =>
      (step hash (set_subscribers m subs)).1.2
      = omap (fun callback => callback result) subs
  | inl _ => (step hash (set_subscribers m subs)).1.2 = []
  end.
Proof.
  split; [| split].
  - by rewrite !steps_set_subscribers, set_subscribers_twice.
  - rewrite !steps_set_subscribers.
    destruct (step_set_subscribers (steps hash n m) subs) as [_ ->].
    by destruct (step_set_subscribers (steps hash n m) []) as [_ ->].
  - unfold step, set_subscribers.
    cbn [engine manager_db _subscribers _historical_scars].
    destruct (engine m) as [e |]; [| done].
    destruct (tick e) as [[exn | result] e1]; cbn [fst snd]; [done |].
    apply _broadcast_tick_omap.
Qed.



End ManagerFacts.


(** Three steps of the manager of seed 12345, with the length of the name
    as hash. *)
Lemma scars_stay_on_the_grid_witness :
  map_Forall (fun p _ => on_grid p) (_historical_scars manager_12345) /\
  map_Forall (fun p _ => on_grid p)
    (_historical_scars (steps length_hash 3 manager_12345)).
Proof.
  assert (H0 : map_Forall (fun p (_ : Scar) => on_grid p)
                 (_historical_scars manager_12345))
    by (apply map_Forall_empty).
  split; [exact H0 |].
  exact (scars_stay_on_the_grid length_hash manager_12345 3 H0).
Defined.

